(** * Gomoku board and win detection

    A shallow embedding of [gomoku_board.py] (class [GomokuBoard]) and
    [win_checker.py] (class [WinChecker]), and the properties of the
    coordinate mapping, of stone placement and of the five-in-a-row scan.

    Python values are embedded as follows: [int] is [Z], [str] is [string],
    a list of lists is a [list (list string)] read and written through
    Python's indexing rules (negative indices wrap, anything else out of
    range raises [IndexError]), the dict [BOARD_COL_TO_INDEX] is a
    [gmap string Z].  Functions that may raise return an [outcome]. *)

From stdpp Require Import gmap strings list list_numbers pretty.
From Stdlib Require Import ZArith Lia Ascii.

Set Warnings "-clear-no-such-hyp".

Local Open Scope string_scope.
Local Open Scope list_scope.
Local Open Scope Z_scope.

(** ** Outcomes of a Python call *)

Inductive py_exn : Type := IndexError | KeyError.

(** [Ok v]: the call returns [v]; [Raise e]: it raises [e]; [OutOfFuel]: the
    bounded unrolling of a [while] loop was too short to reach its exit. *)
Inductive outcome (A : Type) : Type :=
| Ok (v : A)
| Raise (e : py_exn)
| OutOfFuel.
Arguments Ok {A} v.
Arguments Raise {A} e.
Arguments OutOfFuel {A}.

(** Sequencing through stdpp's [x ← m; k]. *)
Global Instance outcome_bind : MBind outcome := fun A B k m =>
  match m with
  | Ok v => k v
  | Raise e => Raise e
  | OutOfFuel => OutOfFuel
  end.

(** ** Python sequences and dicts *)

Module Py.

(** The index [l[i]] really used: negative indices count from the end. *)
Definition norm_index (n i : Z) : Z := if i <? 0 then i + n else i.

(** [l[i]] *)
Definition getitem {A : Type} (l : list A) (i : Z) : outcome A :=
  let j := norm_index (Z.of_nat (length l)) i in
  if (0 <=? j) && (j <? Z.of_nat (length l)) then
    match l !! Z.to_nat j with
    | Some x => Ok x
    | None => Raise IndexError
    end
  else Raise IndexError.

(** [l[i] = x], as the list after the assignment *)
Definition setitem {A : Type} (l : list A) (i : Z) (x : A) : outcome (list A) :=
  let j := norm_index (Z.of_nat (length l)) i in
  if (0 <=? j) && (j <? Z.of_nat (length l)) then Ok (<[Z.to_nat j := x]> l)
  else Raise IndexError.

(** [enumerate(l)] *)
Definition enumerate {A : Type} (l : list A) : list (Z * A) :=
  imap (fun i x => (Z.of_nat i, x)) l.

(** [{k: v for v, k in ps}]: entries are stored in order, a later one
    replaces an earlier one with the same key. *)
Definition dict_of_swapped (ps : list (Z * string)) : gmap string Z :=
  foldl (fun m p => <[p.2 := p.1]> m) ∅ ps.

(** [d[k]] *)
Definition dict_getitem (d : gmap string Z) (k : string) : outcome Z :=
  match d !! k with
  | Some v => Ok v
  | None => Raise KeyError
  end.

(** [k in d] *)
Definition dict_contains (d : gmap string Z) (k : string) : bool :=
  match d !! k with
  | Some _ => true
  | None => false
  end.

(** [tuple(s)]: the one-character strings of [s]. *)
Definition tuple_of_str (s : string) : list string :=
  (fun c => String c EmptyString) <$> String.list_ascii_of_string s.

(** [l[:n]] for [n >= 0] *)
Definition slice_to {A : Type} (n : nat) (l : list A) : list A := take n l.

End Py.

(** ** gomoku_board.py *)

Definition BOARD_SIZE : Z := 15.
Definition BOARD_COLUMNS : list string := Py.tuple_of_str "ABCDEFGHIJKLMNO".
Definition BOARD_COL_TO_INDEX : gmap string Z :=
  Py.dict_of_swapped (Py.enumerate BOARD_COLUMNS).

(** The empty cell and the two stones. *)
Definition EMPTY : string := ".".
Definition BLACK : string := "B".
Definition WHITE : string := "W".

(** The attributes of a [GomokuBoard] that change: [self.board] and
    [self.move_history].  [self.size], [self.cols] and [self.col_to_idx] are
    set once, by [__init__], to the module constants, and are read below as
    those constants. *)
Record GomokuBoard : Type := mkBoard {
  board : list (list string);
  move_history : list (string * Z * string)
}.

Definition size : Z := BOARD_SIZE.
Definition cols : list string := BOARD_COLUMNS.
Definition col_to_idx : gmap string Z := BOARD_COL_TO_INDEX.

(** [GomokuBoard.__init__] *)
Definition init : GomokuBoard :=
  {| board := replicate (Z.to_nat size) (replicate (Z.to_nat size) EMPTY);
     move_history := [] |}.

(** [GomokuBoard._validate_coordinates] *)
Definition _validate_coordinates (col : string) (row : Z) : bool :=
  if negb (Py.dict_contains col_to_idx col) then false
  else if (row <? 1) || (row >? size) then false
  else true.

(** [GomokuBoard._coord_to_indices]: the pair [(row_idx, col_idx)]. *)
Definition _coord_to_indices (col : string) (row : Z) : outcome (Z * Z) :=
  col_idx ← Py.dict_getitem col_to_idx col;
  let row_idx := size - row in
  Ok (row_idx, col_idx).

(** [self.board[row_idx][col_idx]] *)
Definition board_at (g : list (list string)) (row_idx col_idx : Z) : outcome string :=
  r ← Py.getitem g row_idx;
  Py.getitem r col_idx.

(** [self.board[row_idx][col_idx] = stone]: the row object is fetched and
    updated in place, so the grid holds the updated row at the same place. *)
Definition board_set (g : list (list string)) (row_idx col_idx : Z) (stone : string)
  : outcome (list (list string)) :=
  r ← Py.getitem g row_idx;
  r' ← Py.setitem r col_idx stone;
  Py.setitem g row_idx r'.

(** The message returned by [is_valid_move], by the values formatted into it. *)
Inductive move_message : Type :=
| MsgNone
| MsgInvalidCoordinates (col : string) (row : Z)
| MsgOccupied (col : string) (row : Z).

(** [GomokuBoard.is_valid_move] *)
Definition is_valid_move (b : GomokuBoard) (col : string) (row : Z)
  : outcome (bool * move_message) :=
  if negb (_validate_coordinates col row) then
    Ok (false, MsgInvalidCoordinates col row)
  else
    '(row_idx, col_idx) ← _coord_to_indices col row;
    cell ← board_at (board b) row_idx col_idx;
    if negb (String.eqb cell EMPTY) then Ok (false, MsgOccupied col row)
    else Ok (true, MsgNone).

(** [stone in ['B', 'W']] *)
Definition is_stone (stone : string) : bool :=
  String.eqb stone BLACK || String.eqb stone WHITE.

(** [GomokuBoard.place_stone]: the returned flag and the board afterwards.
    Logging and printing are left out; the cell read by the debug message
    before the assignment is kept, as it can raise. *)
Definition place_stone (b : GomokuBoard) (col : string) (row : Z) (stone : string)
  : outcome (bool * GomokuBoard) :=
  '(is_valid, error_msg) ← is_valid_move b col row;
  if negb is_valid then Ok (false, b)
  else if negb (is_stone stone) then Ok (false, b)
  else
    '(row_idx, col_idx) ← _coord_to_indices col row;
    _ ← board_at (board b) row_idx col_idx;
    g ← board_set (board b) row_idx col_idx stone;
    Ok (true, {| board := g; move_history := move_history b ++ [(col, row, stone)] |}).

(** [GomokuBoard.get_stone]: [None] is Python's [None]. *)
Definition get_stone (b : GomokuBoard) (col : string) (row : Z) : outcome (option string) :=
  if negb (_validate_coordinates col row) then Ok None
  else
    '(row_idx, col_idx) ← _coord_to_indices col row;
    stone ← board_at (board b) row_idx col_idx;
    Ok (if negb (String.eqb stone EMPTY) then Some stone else None).

(** [GomokuBoard.get_last_move] *)
Definition get_last_move (b : GomokuBoard) : option (string * Z * string) :=
  last (move_history b).

(** ** win_checker.py

    A [WinChecker] holds a reference to a board and never writes to it: its
    methods take the board as an argument. *)

(** [directions]: horizontal, vertical, diagonal [\], diagonal [/]. *)
Definition directions : list (Z * Z) := [(0, 1); (1, 0); (1, 1); (1, -1)].

(** [0 <= i < self.board.size] *)
Definition in_range (i : Z) : bool := (0 <=? i) && (i <? size).

(** The [while] loop of [_count_consecutive], unrolled at most [fuel] times. *)
Fixpoint count_loop (fuel : nat) (g : list (list string)) (row col dr dc : Z)
    (stone : string) (count : Z) : outcome Z :=
  match fuel with
  | O => OutOfFuel
  | S fuel' =>
      if in_range row && in_range col then
        cell ← board_at g row col;
        if String.eqb cell stone then
          count_loop fuel' g (row + dr) (col + dc) dr dc stone (count + 1)
        else Ok count
      else Ok count
  end.

(** A scan leaves the board after at most [size] cells, so [size] rounds and
    the one that leaves the loop are enough ([count_loop_ok] below). *)
Definition scan_fuel : nat := S (Z.to_nat size).

(** [WinChecker._count_consecutive] *)
Definition _count_consecutive (b : GomokuBoard) (start_row start_col dr dc : Z)
    (stone : string) : outcome Z :=
  let count := 0 in
  let '(row, col) := (start_row + dr, start_col + dc) in
  count_loop scan_fuel (board b) row col dr dc stone count.

(** The [for dr, dc in directions] loop of [check_win]. *)
Fixpoint check_win_loop (b : GomokuBoard) (row_idx col_idx : Z) (stone : string)
    (ds : list (Z * Z)) : outcome bool :=
  match ds with
  | [] => Ok false
  | (dr, dc) :: ds' =>
      let count := 1 in
      n ← _count_consecutive b row_idx col_idx dr dc stone;
      let count := count + n in
      n ← _count_consecutive b row_idx col_idx (- dr) (- dc) stone;
      let count := count + n in
      if count >=? 5 then Ok true
      else check_win_loop b row_idx col_idx stone ds'
  end.

(** [WinChecker.check_win] *)
Definition check_win (b : GomokuBoard) (col : string) (row : Z) (stone : string)
  : outcome bool :=
  if negb (_validate_coordinates col row) then Ok false
  else
    '(row_idx, col_idx) ← _coord_to_indices col row;
    check_win_loop b row_idx col_idx stone directions.

(** [for cell in row] of [is_board_full]: [false] when the loop returns
    [False], [true] when it runs to its end. *)
Fixpoint is_board_full_row (row : list string) : bool :=
  match row with
  | [] => true
  | cell :: row' => if String.eqb cell EMPTY then false else is_board_full_row row'
  end.

(** [for row in self.board.board] of [is_board_full]. *)
Fixpoint is_board_full_rows (g : list (list string)) : bool :=
  match g with
  | [] => true
  | row :: g' => if is_board_full_row row then is_board_full_rows g' else false
  end.

(** [WinChecker.is_board_full] *)
Definition is_board_full (b : GomokuBoard) : bool := is_board_full_rows (board b).

(** "Convert back to board coordinates", the two assignments in the body of
    the loop of [_collect_line]: [(self.board.cols[col], self.board.size - row)]. *)
Definition indices_to_coord (row col : Z) : outcome (string * Z) :=
  board_col ← Py.getitem cols col;
  let board_row := size - row in
  Ok (board_col, board_row).

(** The [while] loop of [_collect_line]; the list passed in is extended in
    place, and is returned here as it stands when the loop ends. *)
Fixpoint collect_loop (fuel : nat) (g : list (list string)) (row col dr dc : Z)
    (stone : string) (line_positions : list (string * Z)) : outcome (list (string * Z)) :=
  match fuel with
  | O => OutOfFuel
  | S fuel' =>
      if in_range row && in_range col then
        cell ← board_at g row col;
        if String.eqb cell stone then
          coord ← indices_to_coord row col;
          collect_loop fuel' g (row + dr) (col + dc) dr dc stone
            (line_positions ++ [coord])
        else Ok line_positions
      else Ok line_positions
  end.

(** [WinChecker._collect_line] *)
Definition _collect_line (b : GomokuBoard) (start_row start_col dr dc : Z)
    (stone : string) (line_positions : list (string * Z)) : outcome (list (string * Z)) :=
  let '(row, col) := (start_row + dr, start_col + dc) in
  collect_loop scan_fuel (board b) row col dr dc stone line_positions.

(** The [for dr, dc in directions] loop of [get_winning_line]. *)
Fixpoint get_winning_line_loop (b : GomokuBoard) (col : string) (row : Z)
    (row_idx col_idx : Z) (stone : string) (ds : list (Z * Z))
  : outcome (option (list (string * Z))) :=
  match ds with
  | [] => Ok None
  | (dr, dc) :: ds' =>
      let line_positions := [(col, row)] in
      line_positions ← _collect_line b row_idx col_idx dr dc stone line_positions;
      line_positions ← _collect_line b row_idx col_idx (- dr) (- dc) stone line_positions;
      if Z.of_nat (length line_positions) >=? 5 then
        Ok (Some (Py.slice_to 5 line_positions))
      else get_winning_line_loop b col row row_idx col_idx stone ds'
  end.

(** [WinChecker.get_winning_line] *)
Definition get_winning_line (b : GomokuBoard) (col : string) (row : Z) (stone : string)
  : outcome (option (list (string * Z))) :=
  won ← check_win b col row stone;
  if negb won then Ok None
  else
    '(row_idx, col_idx) ← _coord_to_indices col row;
    get_winning_line_loop b col row row_idx col_idx stone directions.

(** ** Playing a sequence of moves *)

(** A call [place_stone(col, row, stone)]. *)
Definition move : Type := string * Z * string.

(** The calls of [ms] made in order on [b], whatever each one returns. *)
Fixpoint play (b : GomokuBoard) (ms : list move) : outcome GomokuBoard :=
  match ms with
  | [] => Ok b
  | (col, row, stone) :: ms' =>
      '(_, b') ← place_stone b col row stone;
      play b' ms'
  end.

(** ** Vocabulary of the statements *)

(** A coordinate of the board: a column letter and a row in [1, size]. *)
Definition valid_coord (col : string) (row : Z) : Prop :=
  col ∈ cols ∧ 1 ≤ row ≤ size.

(** The grid is [size] rows of [size] cells, as [__init__] builds it. *)
Definition square (g : list (list string)) : bool :=
  (length g =? Z.to_nat size)%nat && forallb (fun r => (length r =? Z.to_nat size)%nat) g.

(** The content of the grid at array indices [(row, col)]; nothing outside
    the board. *)
Definition cell_at (g : list (list string)) (row col : Z) : option string :=
  if in_range row && in_range col then
    r ← g !! Z.to_nat row; r !! Z.to_nat col
  else None.

(** The grid with the cell at [(row, col)] holding [v]. *)
Definition grid_set (g : list (list string)) (row col : Z) (v : string)
  : list (list string) :=
  match g !! Z.to_nat row with
  | Some r => <[Z.to_nat row := <[Z.to_nat col := v]> r]> g
  | None => g
  end.

(** [k] cells in a row hold [stone] beside the cell [(row, col)] in the
    direction [(dr, dc)]: those at distance 1 to [k] do, and the next one is
    off the board or holds something else. *)
Definition is_run (g : list (list string)) (row col dr dc : Z) (stone : string) (k : Z)
  : Prop :=
  0 ≤ k ∧
  (∀ i, 1 ≤ i ≤ k → cell_at g (row + i * dr) (col + i * dc) = Some stone) ∧
  cell_at g (row + (k + 1) * dr) (col + (k + 1) * dc) ≠ Some stone.

(** [n] is 1 for the cell [(row, col)] plus the runs on its two sides along
    the direction [d]. *)
Definition line_total (g : list (list string)) (row col : Z) (d : Z * Z)
    (stone : string) (n : Z) : Prop :=
  ∃ kp kn, is_run g row col d.1 d.2 stone kp ∧
           is_run g row col (- d.1) (- d.2) stone kn ∧ n = 1 + kp + kn.

(** The board coordinate of the cell at array indices [(row, col)]. *)
Definition coord_at (row col : Z) : string * Z :=
  (cols !!! Z.to_nat col, size - row).

(** The coordinates at distance 1, 2, ..., [k] from [(row, col)] along
    [(dr, dc)], nearest first. *)
Definition run_coords (row col dr dc k : Z) : list (string * Z) :=
  (fun i => coord_at (row + i * dr) (col + i * dc)) <$> seqZ 1 k.

(** The line along [d] through the cell [(row, col)], named [(c, r)]: the
    cell, then its [kp] neighbours along [d], then its [kn] neighbours the
    other way. *)
Definition line_of (c : string) (r : Z) (row col : Z) (d : Z * Z) (kp kn : Z)
  : list (string * Z) :=
  (c, r) :: run_coords row col d.1 d.2 kp ++ run_coords row col (- d.1) (- d.2) kn.

(** A step of a scan: one cell along a row, a column or a diagonal. *)
Definition unit_dir (dr dc : Z) : Prop :=
  -1 ≤ dr ≤ 1 ∧ -1 ≤ dc ≤ 1 ∧ (dr ≠ 0 ∨ dc ≠ 0).

(** The number of cells that hold a stone. *)
Definition count_stones (g : list (list string)) : nat :=
  length (filter (fun cell => cell ≠ EMPTY) (concat g)).

(** An upper bound on the cells a scan at [(row, col)] can still visit. *)
Definition steps_left (dr dc row col : Z) : Z :=
  if dr =? 1 then size - row
  else if dr =? -1 then row + 1
  else if dc =? 1 then size - col
  else col + 1.

Global Instance valid_coord_dec (col : string) (row : Z) : Decision (valid_coord col row).
Proof. unfold valid_coord. apply _. Defined.

(** ** Example positions *)

(** The board after the calls [ms] on a new board. *)
Definition played (ms : list move) : GomokuBoard :=
  match play init ms with
  | Ok b => b
  | _ => init
  end.

(** Black plays H8, H9, H10, H11 and H12, White answers in column A. *)
Definition five_in_column : GomokuBoard :=
  played [("H", 8, "B"); ("A", 1, "W"); ("H", 9, "B"); ("A", 2, "W");
          ("H", 10, "B"); ("A", 3, "W"); ("H", 11, "B"); ("A", 4, "W");
          ("H", 12, "B")].

(** Black holds H4 to H7 and D4, E5, F6, G7, and then plays H8, which
    completes a column and a diagonal at once. *)
Definition column_and_diagonal : GomokuBoard :=
  played [("H", 4, "B"); ("A", 1, "W"); ("H", 5, "B"); ("A", 2, "W");
          ("H", 6, "B"); ("A", 3, "W"); ("H", 7, "B"); ("A", 4, "W");
          ("D", 4, "B"); ("O", 1, "W"); ("E", 5, "B"); ("O", 2, "W");
          ("F", 6, "B"); ("O", 3, "W"); ("G", 7, "B"); ("O", 4, "W");
          ("H", 8, "B")].

(** Black holds D8 to G8 and I8, and then plays H8: six in a row. *)
Definition six_in_row : GomokuBoard :=
  played [("D", 8, "B"); ("A", 1, "W"); ("E", 8, "B"); ("A", 2, "W");
          ("F", 8, "B"); ("A", 3, "W"); ("G", 8, "B"); ("A", 4, "W");
          ("I", 8, "B"); ("O", 1, "W"); ("H", 8, "B")].

(** Black holds D8, E8, F8 and G8; H8 is empty. *)
Definition four_in_row : GomokuBoard :=
  played [("D", 8, "B"); ("A", 1, "W"); ("E", 8, "B"); ("A", 2, "W");
          ("F", 8, "B"); ("A", 3, "W"); ("G", 8, "B")].

(** A board with a black stone on every cell. *)
Definition all_black : GomokuBoard :=
  {| board := replicate (Z.to_nat size) (replicate (Z.to_nat size) BLACK);
     move_history := [] |}.

(** The distances, along a direction, of the cells of a line from the
    queried cell, in the order in which [get_winning_line] collects them:
    the cell itself, [kp] cells one way, [kn] cells the other way. *)
Definition line_offsets (kp kn : Z) : list Z :=
  0 :: seqZ 1 kp ++ (Z.opp <$> seqZ 1 kn).

(** ** llm_player.py

    Of an [LLMPlayer], the attributes read by the methods below.  The move
    that [get_move] obtains from the remote model is an input of the methods
    that call it: [None] when the call or the parsing of its answer fails,
    and else the pair [(column, row)] returned. *)

Module LLMPlayer.

Record t : Type := mk {
  stone_color : string;
  display_name : string
}.

(** ["Black" if self.stone_color == "B" else "White"] *)
Definition color_name (stone_color : string) : string :=
  if String.eqb stone_color "B" then "Black" else "White".

(** [" (Retry {attempt})" if is_retry else ""], by the attempt formatted
    into it. *)
Inductive attempt_msg : Type :=
| NoRetry
| Retry (attempt : Z).

(** The messages returned by [validate_and_execute_move] and [play_turn], by
    the values formatted into them. *)
Inductive message : Type :=
| InvalidMove (column : string) (row : Z) (error_msg : move_message)
| Plays (color_name display_name column : string) (row : Z)
| FailedToPlace (column : string) (row : Z)
| FailedToGetMove (a : attempt_msg)
| Loses (color_name display_name : string) (attempts : Z)
| UnexpectedError (color_name : string)
| WithAttempt (m : message) (a : attempt_msg).

(** [LLMPlayer.validate_and_execute_move]: the pair returned and the board
    afterwards.  The stone read first is only logged. *)
Definition validate_and_execute_move (self : t) (b : GomokuBoard)
    (column : string) (row : Z) : outcome (bool * message * GomokuBoard) :=
  current_stone ← get_stone b column row;
  '(is_valid, error_msg) ← is_valid_move b column row;
  if negb is_valid then Ok (false, InvalidMove column row error_msg, b)
  else
    '(success, b') ← place_stone b column row (stone_color self);
    if (success : bool) then
      let color_name := color_name (stone_color self) in
      Ok (true, Plays color_name (display_name self) column row, b')
    else Ok (false, FailedToPlace column row, b').

(** The [for attempt in range(max_retries + 1)] loop of [play_turn], over
    the attempts still to make; [get_move attempt] is what [self.get_move]
    returns at that attempt. *)
Fixpoint play_turn_loop (self : t) (b : GomokuBoard) (max_retries : Z)
    (get_move : Z → option (string * Z)) (attempts : list Z)
  : outcome (bool * message * option (string * Z) * GomokuBoard) :=
  let color_name := color_name (stone_color self) in
  match attempts with
  | [] => Ok (false, UnexpectedError color_name, None, b)
  | attempt :: attempts' =>
      let is_retry := attempt >? 0 in
      let attempt_msg := if is_retry then Retry attempt else NoRetry in
      match get_move attempt with
      | None =>
          let error_msg := FailedToGetMove attempt_msg in
          if attempt =? max_retries then Ok (false, error_msg, None, b)
          else play_turn_loop self b max_retries get_move attempts'
      | Some (column, row) =>
          '(success, message, b') ← validate_and_execute_move self b column row;
          if (success : bool) then
            Ok (true, WithAttempt message attempt_msg, Some (column, row), b')
          else if attempt =? max_retries then
            Ok (false, Loses color_name (display_name self) (max_retries + 1), None, b')
          else play_turn_loop self b' max_retries get_move attempts'
      end
  end.

(** [range(n)] *)
Definition range (n : Z) : list Z := seqZ 0 n.

(** [LLMPlayer.play_turn] *)
Definition play_turn (self : t) (b : GomokuBoard) (max_retries : Z)
    (get_move : Z → option (string * Z))
  : outcome (bool * message * option (string * Z) * GomokuBoard) :=
  play_turn_loop self b max_retries get_move (range (max_retries + 1)).

End LLMPlayer.

(** An answer of [get_move] that can be played on [b]: a coordinate of the
    board on which [get_stone] finds no stone. *)
Definition playable (b : GomokuBoard) (answer : option (string * Z)) : Prop :=
  ∃ column row, answer = Some (column, row) ∧
                valid_coord column row ∧ get_stone b column row = Ok None.

(** [" (Retry {attempt})" if attempt > 0 else ""] *)
Definition attempt_msg_of (attempt : Z) : LLMPlayer.attempt_msg :=
  if attempt >? 0 then LLMPlayer.Retry attempt else LLMPlayer.NoRetry.

(** ** Python strings and ranges

    A [str] is embedded as a [string] of 8-bit characters: what follows is
    Python's behaviour on ASCII text. *)

Module PyStr.

(** [range(n)] *)
Definition range (n : Z) : list Z := seqZ 0 n.

(** [range(start, stop, -1)] *)
Definition range_down (start stop : Z) : list Z :=
  (fun i => start - i) <$> seqZ 0 (start - stop).

(** [str(n)] of an int *)
Definition str_of_int (n : Z) : string := pretty n.

(** [f"{n:{width}d}"] of an int: its decimal form, with spaces before it up
    to [width] characters. *)
Definition format_d (width : nat) (n : Z) : string :=
  let s := str_of_int n in
  String.string_of_list_ascii (replicate (width - String.length s) " "%char) +:+ s.

(** [c.isspace()] of an ASCII character: tab, line feed, vertical tab, form
    feed, carriage return, the four separators 28 to 31, and space. *)
Definition isspace (c : ascii) : bool :=
  let n := nat_of_ascii c in
  ((9 <=? n) && (n <=? 13) || (28 <=? n) && (n <=? 32))%nat.

(** [s.rstrip()] *)
Fixpoint rstrip (s : string) : string :=
  match s with
  | EmptyString => EmptyString
  | String c s' =>
      match rstrip s' with
      | EmptyString => if isspace c then EmptyString else String c EmptyString
      | r => String c r
      end
  end.

(** [sep.join(l)] *)
Definition join (sep : string) (l : list string) : string := String.concat sep l.

(** [pat in s] *)
Fixpoint contains (pat s : string) : bool :=
  String.prefix pat s ||
  match s with
  | EmptyString => false
  | String _ s' => contains pat s'
  end.

End PyStr.

(** The line feed. *)
Definition newline : string := String (ascii_of_nat 10) EmptyString.

(** The loop [for col_idx in range(self.size)] of [display], over the columns
    still to show. *)
Fixpoint display_cols (g : list (list string)) (row_idx : Z) (col_idxs : list Z)
    (line : string) : outcome string :=
  match col_idxs with
  | [] => Ok line
  | col_idx :: col_idxs' =>
      cell ← board_at g row_idx col_idx;
      display_cols g row_idx col_idxs' (line +:+ (cell +:+ " "))
  end.

(** The loop [for row_num in range(self.size, 0, -1)] of [display], over the
    rows still to show. *)
Fixpoint display_rows (b : GomokuBoard) (row_nums : list Z) (lines : list string)
  : outcome (list string) :=
  match row_nums with
  | [] => Ok lines
  | row_num :: row_nums' =>
      let row_idx := size - row_num in
      let line := PyStr.format_d 2 row_num +:+ " " in
      line ← display_cols (board b) row_idx (PyStr.range size) line;
      display_rows b row_nums' (lines ++ [PyStr.rstrip line])
  end.

(** [GomokuBoard.display] *)
Definition display (b : GomokuBoard) : outcome string :=
  lines ← display_rows b (PyStr.range_down size 0) [];
  let header := "   " +:+ PyStr.join " " cols in
  let lines := lines ++ [header] in
  Ok (PyStr.join newline lines).

(** The line of [display] for the row [row_num] of a grid: the number in two
    columns, a space, and the cells of that row with one space between them. *)
Definition row_text (g : list (list string)) (row_num : Z) : string :=
  PyStr.format_d 2 row_num +:+ " " +:+
  PyStr.join " " (g !!! Z.to_nat (size - row_num)).

(** The text of a grid: its rows from the highest number down to 1, then the
    column letters, one per line. *)
Definition board_text (g : list (list string)) : string :=
  PyStr.join newline
    ((row_text g <$> PyStr.range_down size 0) ++ ["   " +:+ PyStr.join " " cols]).

(** What a cell of a board in play holds. *)
Definition cell_mark (s : string) : Prop := s = EMPTY ∨ s = BLACK ∨ s = WHITE.

(** The cells of a row as the loop of [display] appends them: each one
    followed by a space. *)
Definition cells_text (cells : list string) : string :=
  foldr (fun cell acc => cell +:+ " " +:+ acc) "" cells.
(** The texts of the messages of [is_valid_move], [validate_and_execute_move]
    and [play_turn]. *)

(** The message of [is_valid_move]: [BOARD_COLUMNS[0]], [BOARD_COLUMNS[-1]]
    and [self.size] are formatted into the first one. *)
Definition move_message_text (m : move_message) : string :=
  match m with
  | MsgNone => ""
  | MsgInvalidCoordinates col row =>
      "Invalid coordinates: " +:+ col +:+ PyStr.str_of_int row +:+
      ". Column must be " +:+ default "" (head BOARD_COLUMNS) +:+ "-" +:+
      default "" (last BOARD_COLUMNS) +:+ ", row must be 1-" +:+ PyStr.str_of_int size
  | MsgOccupied col row =>
      "Position " +:+ col +:+ PyStr.str_of_int row +:+ " is already occupied"
  end.

Definition attempt_text (a : LLMPlayer.attempt_msg) : string :=
  match a with
  | LLMPlayer.NoRetry => ""
  | LLMPlayer.Retry attempt => " (Retry " +:+ PyStr.str_of_int attempt +:+ ")"
  end.

Fixpoint message_text (m : LLMPlayer.message) : string :=
  match m with
  | LLMPlayer.InvalidMove column row error_msg =>
      "Invalid move " +:+ column +:+ PyStr.str_of_int row +:+ ": " +:+
      move_message_text error_msg
  | LLMPlayer.Plays color_name display_name column row =>
      color_name +:+ " (" +:+ display_name +:+ ") plays " +:+ column +:+
      PyStr.str_of_int row
  | LLMPlayer.FailedToPlace column row =>
      "Failed to place stone at " +:+ column +:+ PyStr.str_of_int row
  | LLMPlayer.FailedToGetMove a => "Failed to get move from LLM" +:+ attempt_text a
  | LLMPlayer.Loses color_name display_name attempts =>
      color_name +:+ " (" +:+ display_name +:+
      ") loses - Failed to make valid move after " +:+ PyStr.str_of_int attempts +:+
      " attempts"
  | LLMPlayer.UnexpectedError color_name =>
      color_name +:+ " loses - Unexpected error in retry logic"
  | LLMPlayer.WithAttempt m a => message_text m +:+ attempt_text a
  end.

(** ** gomoku_game.py

    A [GomokuGame] holds the board, the two players and the record of the
    game, and changes them in place: its methods are state transformers
    that return a value, raise, or run out of fuel, and leave the state as
    it stands at that point.  Printing, logging, sleeping and the saving of
    the record to a file are left out. *)

Module GomokuGame.

(** [self.current_player]: which of [self.black_player] and
    [self.white_player] it is. *)
Inductive side : Type := Black | White.

(** An entry of [game_record["game_info"]]. *)
Record player_info : Type := mk_info {
  model : string;
  provider : string;
  display_name : string
}.

(** An entry of [game_record["moves"]]. *)
Record move_record : Type := mk_move {
  move_number : Z;
  player : string;
  player_name : string;
  column : string;
  row : Z;
  coordinate : string
}.

(** An entry of [game_record["result"]["winning_line"]]: the keys
    ["column"], ["row"] and ["coordinate"]. *)
Record position_record : Type := mk_position {
  position_column : string;
  position_row : Z;
  position_coordinate : string
}.

(** [game_record["result"]["game_end_reason"]], by the values formatted
    into it. *)
Inductive end_reason : Type :=
| FiveInRow (color_name : string)
| BoardFull
| Forfeited (color_name : string)
| EndedByError (message : LLMPlayer.message)
| EndedByException (e : py_exn)
| MaximumMoves.

(** [game_record["result"]]; [winner_name] is its key ["winner"]. *)
Record result_record : Type := mk_result {
  winner_name : option string;
  winner_color : option string;
  total_moves : Z;
  winning_line : option (list position_record);
  game_end_reason : option end_reason
}.

(** The attributes of a game; [black_info], [white_info], [moves] and
    [result] are the parts of [self.game_record] (its timestamp is never
    read). *)
Record t : Type := mk {
  board : GomokuBoard;
  black_player : LLMPlayer.t;
  white_player : LLMPlayer.t;
  current_player : side;
  game_over : bool;
  winner : option string;
  black_info : player_info;
  white_info : player_info;
  moves : list move_record;
  result : result_record
}.

(** How a call ends. *)
Inductive step (A : Type) : Type :=
| Done (v : A)
| Raised (e : py_exn)
| NoFuel.
Arguments Done {A} v.
Arguments Raised {A} e.
Arguments NoFuel {A}.

(** A method: from the state before to how the call ends and the state
    then. *)
Definition M (A : Type) : Type := t → step A * t.

Definition ret {A : Type} (v : A) : M A := fun s => (Done v, s).

Definition bind {A B : Type} (m : M A) (k : A → M B) : M B := fun s =>
  match m s with
  | (Done v, s') => k v s'
  | (Raised e, s') => (Raised e, s')
  | (NoFuel, s') => (NoFuel, s')
  end.

Definition get : M t := fun s => (Done s, s).

Definition modify (f : t → t) : M unit := fun s => (Done tt, f s).

(** A call into the board or the win checker that changes nothing. *)
Definition lift {A : Type} (o : outcome A) : M A := fun s =>
  match o with
  | Ok v => (Done v, s)
  | Raise e => (Raised e, s)
  | OutOfFuel => (NoFuel, s)
  end.

(** [try: body except Exception as e: handler] *)
Definition try_except {A : Type} (body : M A) (handler : py_exn → M A) : M A := fun s =>
  match body s with
  | (Raised e, s') => handler e s'
  | r => r
  end.

Notation "x <- m ;; k" := (bind m (fun x => k))
  (at level 100, m at next level, right associativity).
Notation "m ;;; k" := (bind m (fun _ => k))
  (at level 100, right associativity).

Definition set_board (b : GomokuBoard) (s : t) : t :=
  mk b (black_player s) (white_player s) (current_player s) (game_over s) (winner s)
    (black_info s) (white_info s) (moves s) (result s).
Definition set_current_player (c : side) (s : t) : t :=
  mk (board s) (black_player s) (white_player s) c (game_over s) (winner s)
    (black_info s) (white_info s) (moves s) (result s).
Definition set_game_over (v : bool) (s : t) : t :=
  mk (board s) (black_player s) (white_player s) (current_player s) v (winner s)
    (black_info s) (white_info s) (moves s) (result s).
Definition set_winner (w : option string) (s : t) : t :=
  mk (board s) (black_player s) (white_player s) (current_player s) (game_over s) w
    (black_info s) (white_info s) (moves s) (result s).
Definition set_moves (ms : list move_record) (s : t) : t :=
  mk (board s) (black_player s) (white_player s) (current_player s) (game_over s)
    (winner s) (black_info s) (white_info s) ms (result s).
Definition set_result (r : result_record) (s : t) : t :=
  mk (board s) (black_player s) (white_player s) (current_player s) (game_over s)
    (winner s) (black_info s) (white_info s) (moves s) r.

(** The four keys that every end of a game writes. *)
Definition set_result_keys (w c : option string) (reason : end_reason) (s : t) : t :=
  set_result
    (mk_result w c (Z.of_nat (length (moves s))) (winning_line (result s)) (Some reason)) s.

(** The player object that [self.current_player] is. *)
Definition current (s : t) : LLMPlayer.t :=
  match current_player s with
  | Black => black_player s
  | White => white_player s
  end.

(** [GomokuGame.__init__], from the display names that it gets for the two
    configured models: the players hold the stones ['B'] and ['W'], black
    starts. *)
Definition new_game (black white : player_info) : t :=
  {| board := init;
     black_player := LLMPlayer.mk "B" (display_name black);
     white_player := LLMPlayer.mk "W" (display_name white);
     current_player := Black;
     game_over := false;
     winner := None;
     black_info := black;
     white_info := white;
     moves := [];
     result := mk_result None None 0 None None |}.

(** [GomokuGame.switch_player] *)
Definition switch_player : M unit :=
  modify (fun s =>
    set_current_player
      (match current_player s with Black => White | White => Black end) s).

(** [GomokuGame.record_move] *)
Definition record_move (column : string) (row : Z) (player_color : string) : M unit :=
  modify (fun s =>
    let move_number := Z.of_nat (length (moves s)) + 1 in
    let player_info := if String.eqb player_color "B" then black_info s else white_info s in
    let move_record :=
      mk_move move_number player_color (display_name player_info) column row
        (column +:+ PyStr.str_of_int row) in
    set_moves (moves s ++ [move_record]) s).

(** [GomokuGame.display_game_state]: what it prints is left out, the call
    of [self.board.display()] can raise. *)
Definition display_game_state : M unit :=
  s <- get ;;
  _ <- lift (display (board s)) ;;
  ret tt.

(** The win branch of [check_game_end]. *)
Definition check_game_end_win (column : string) (row : Z) : M bool :=
  s <- get ;;
  let stone := LLMPlayer.stone_color (current s) in
  won <- lift (check_win (board s) column row stone) ;;
  if (won : bool) then
    modify (set_winner (Some stone)) ;;;
    modify (set_game_over true) ;;;
    s <- get ;;
    winning_line <- lift (get_winning_line (board s) column row stone) ;;
    let color_name := if String.eqb stone "B" then "Black" else "White" in
    modify (set_result_keys (Some color_name) (Some stone) (FiveInRow color_name)) ;;;
    match winning_line with
    | Some (p :: l) =>
        modify (fun s =>
          set_result
            (mk_result (winner_name (result s)) (winner_color (result s))
               (total_moves (result s))
               (Some ((fun '(col, row) =>
                         mk_position col row (col +:+ PyStr.str_of_int row)) <$> (p :: l)))
               (game_end_reason (result s))) s)
    | _ => ret tt
    end ;;;
    ret true
  else ret false.

(** [GomokuGame.check_game_end] *)
Definition check_game_end (last_move : option (string * Z)) : M bool :=
  won <- match last_move with
         | Some (column, row) => check_game_end_win column row
         | None => ret false
         end ;;
  if (won : bool) then ret true
  else
    s <- get ;;
    if is_board_full (board s) then
      modify (set_game_over true) ;;;
      modify (set_result_keys (Some "Draw") None BoardFull) ;;;
      ret true
    else ret false.

(** The pattern by which [play_turn] recognises a forfeit. *)
Definition forfeit_pattern : string := "loses - Failed to make valid move".

(** The body of the [try] of [play_turn].  [LLMPlayer.play_turn] changes the
    board only by the assignment that ends [place_stone], after which it
    raises nothing: when it raises the board is as it was. *)
Definition play_turn_body (get_move : Z → option (string * Z)) : M bool :=
  s <- get ;;
  let color_name :=
    if String.eqb (LLMPlayer.stone_color (current s)) "B" then "Black" else "White" in
  r <- lift (LLMPlayer.play_turn (current s) (board s) 3 get_move) ;;
  let '(success, message, move_coords, b') := r in
  modify (set_board b') ;;;
  if (success : bool) then
    match move_coords with
    | Some (column, row) =>
        record_move column row (LLMPlayer.stone_color (current s))
    | None => ret tt
    end ;;;
    ended <- check_game_end move_coords ;;
    if (ended : bool) then ret true
    else switch_player ;;; ret true
  else if PyStr.contains forfeit_pattern (message_text message) then
    modify (set_game_over true) ;;;
    let winner :=
      if String.eqb (LLMPlayer.stone_color (current s)) "B" then "W" else "B" in
    modify (set_winner (Some winner)) ;;;
    let winner_name := if String.eqb winner "W" then "White" else "Black" in
    modify (set_result_keys (Some winner_name) (Some winner) (Forfeited color_name)) ;;;
    ret true
  else
    modify (set_game_over true) ;;;
    modify (set_result_keys (Some "Error") None (EndedByError message)) ;;;
    ret false.

(** [GomokuGame.play_turn]; the board is displayed for the log before the
    [try]. *)
Definition play_turn (get_move : Z → option (string * Z)) : M bool :=
  s <- get ;;
  _ <- lift (display (board s)) ;;
  try_except (play_turn_body get_move)
    (fun e =>
       modify (set_game_over true) ;;;
       modify (set_result_keys (Some "Error") None (EndedByException e)) ;;;
       ret false).

(** The [while] loop of [play_game], unrolled at most [fuel] times;
    [answers move_count] are the answers of the remote model in the turn
    played when [move_count] turns are done.  It returns [move_count]. *)
Fixpoint play_game_loop (fuel : nat) (max_moves : Z)
    (answers : Z → Z → option (string * Z)) (move_count : Z) : M Z :=
  match fuel with
  | O => fun s => (NoFuel, s)
  | S fuel' =>
      s <- get ;;
      if negb (game_over s) && (move_count <? max_moves) then
        display_game_state ;;;
        ok <- play_turn (answers move_count) ;;
        if negb ok then ret move_count
        else play_game_loop fuel' max_moves answers (move_count + 1)
      else ret move_count
  end.

(** [GomokuGame.play_game]: each round adds one to [move_count], so the
    loop has at most [max_moves] rounds. *)
Definition play_game (max_moves : Z) (answers : Z → Z → option (string * Z)) : M string :=
  let move_count := 0 in
  move_count <- play_game_loop (S (Z.to_nat max_moves)) max_moves answers move_count ;;
  display_game_state ;;;
  s <- get ;;
  match winner s with
  | Some w =>
      if negb (String.eqb w "") then
        let winner_name := if String.eqb w "B" then "Black" else "White" in
        ret (winner_name +:+ " wins!")
      else if move_count >=? max_moves then
        match winner_name (result s) with
        | None => modify (set_result_keys (Some "Draw") None MaximumMoves)
        | Some _ => ret tt
        end ;;;
        ret "Draw - Maximum moves reached"
      else ret "Game ended due to error"
  | None =>
      if move_count >=? max_moves then
        match winner_name (result s) with
        | None => modify (set_result_keys (Some "Draw") None MaximumMoves)
        | Some _ => ret tt
        end ;;;
        ret "Draw - Maximum moves reached"
      else ret "Game ended due to error"
  end.

End GomokuGame.

(** ** Vocabulary of the statements about a game *)

(** The stone of a side, the name of its colour, and the other side. *)
Definition side_stone (c : GomokuGame.side) : string :=
  match c with GomokuGame.Black => "B" | GomokuGame.White => "W" end.
Definition side_name (c : GomokuGame.side) : string :=
  match c with GomokuGame.Black => "Black" | GomokuGame.White => "White" end.
Definition other_side (c : GomokuGame.side) : GomokuGame.side :=
  match c with GomokuGame.Black => GomokuGame.White | GomokuGame.White => GomokuGame.Black end.

(** The side to play when [n] moves are made: black starts. *)
Definition side_to_play (n : nat) : GomokuGame.side :=
  if Nat.even n then GomokuGame.Black else GomokuGame.White.

(** The entries of [winning_line] made from a line of coordinates. *)
Definition line_positions (l : list (string * Z)) : list GomokuGame.position_record :=
  (fun '(col, row) => GomokuGame.mk_position col row (col +:+ PyStr.str_of_int row)) <$> l.

(** The result record of a game that is not over. *)
Definition no_result : GomokuGame.result_record :=
  GomokuGame.mk_result None None 0 None None.

(** How a game that is over has ended: by a line of five completed by the
    last move, by a full board, by a forfeit of the side to play, or by a
    failure to get a move. *)
Inductive ended (s : GomokuGame.t) : Prop :=
| ended_win (c : GomokuGame.side) (col : string) (row : Z) (l : list (string * Z)) :
    last (move_history (GomokuGame.board s)) = Some (col, row, side_stone c) →
    check_win (GomokuGame.board s) col row (side_stone c) = Ok true →
    get_winning_line (GomokuGame.board s) col row (side_stone c) = Ok (Some l) →
    GomokuGame.winner s = Some (side_stone c) →
    GomokuGame.result s =
      GomokuGame.mk_result (Some (side_name c)) (Some (side_stone c))
        (Z.of_nat (length (GomokuGame.moves s))) (Some (line_positions l))
        (Some (GomokuGame.FiveInRow (side_name c))) →
    ended s
| ended_draw :
    is_board_full (GomokuGame.board s) = true →
    GomokuGame.winner s = None →
    GomokuGame.result s =
      GomokuGame.mk_result (Some "Draw") None
        (Z.of_nat (length (GomokuGame.moves s))) None (Some GomokuGame.BoardFull) →
    ended s
| ended_forfeit (c : GomokuGame.side) :
    c = side_to_play (length (GomokuGame.moves s)) →
    is_board_full (GomokuGame.board s) = false →
    GomokuGame.winner s = Some (side_stone (other_side c)) →
    GomokuGame.result s =
      GomokuGame.mk_result (Some (side_name (other_side c)))
        (Some (side_stone (other_side c)))
        (Z.of_nat (length (GomokuGame.moves s))) None
        (Some (GomokuGame.Forfeited (side_name c))) →
    ended s
| ended_error :
    is_board_full (GomokuGame.board s) = false →
    GomokuGame.winner s = None →
    GomokuGame.result s =
      GomokuGame.mk_result (Some "Error") None
        (Z.of_nat (length (GomokuGame.moves s))) None
        (Some (GomokuGame.EndedByError
                 (LLMPlayer.FailedToGetMove (LLMPlayer.Retry 3)))) →
    ended s.

(** What holds of a game between two turns, from its creation on. *)
Record game_inv (black white : GomokuGame.player_info) (s : GomokuGame.t) : Prop := {
  inv_square : square (board (GomokuGame.board s)) = true;
  inv_black : GomokuGame.black_player s = LLMPlayer.mk "B" (GomokuGame.display_name black);
  inv_white : GomokuGame.white_player s = LLMPlayer.mk "W" (GomokuGame.display_name white);
  inv_black_info : GomokuGame.black_info s = black;
  inv_white_info : GomokuGame.white_info s = white;
  inv_history :
    move_history (GomokuGame.board s) =
    (fun m => (GomokuGame.column m, GomokuGame.row m, GomokuGame.player m))
      <$> GomokuGame.moves s;
  inv_records :
    ∀ i m, GomokuGame.moves s !! i = Some m →
      GomokuGame.move_number m = Z.of_nat i + 1 ∧
      GomokuGame.player m = side_stone (side_to_play i) ∧
      GomokuGame.player_name m =
        GomokuGame.display_name
          (match side_to_play i with GomokuGame.Black => black | GomokuGame.White => white end) ∧
      GomokuGame.coordinate m =
        GomokuGame.column m +:+ PyStr.str_of_int (GomokuGame.row m);
  inv_rebuild : play init (move_history (GomokuGame.board s)) = Ok (GomokuGame.board s);
  inv_running :
    GomokuGame.game_over s = false →
    GomokuGame.current_player s = side_to_play (length (GomokuGame.moves s)) ∧
    GomokuGame.winner s = None ∧ GomokuGame.result s = no_result ∧
    is_board_full (GomokuGame.board s) = false;
  inv_over : GomokuGame.game_over s = true → ended s
}.

(** The record of the move that [record_move] appends. *)
Definition recorded_move (black white : GomokuGame.player_info) (n : nat)
    (col : string) (row : Z) : GomokuGame.move_record :=
  GomokuGame.mk_move (Z.of_nat n + 1) (side_stone (side_to_play n))
    (GomokuGame.display_name
       (if String.eqb (side_stone (side_to_play n)) "B" then black else white))
    col row (col +:+ PyStr.str_of_int row).

(** The turns that ended in a forfeit: one when the game ended so, and they
    are counted by [play_game] though no move was made. *)
Definition forfeit_turns (s : GomokuGame.t) : Z :=
  match GomokuGame.game_end_reason (GomokuGame.result s) with
  | Some (GomokuGame.Forfeited _) => 1
  | _ => 0
  end.

(** The game ended by a failure of a turn that is no forfeit. *)
Definition ended_by_error (s : GomokuGame.t) : Prop :=
  ∃ m, GomokuGame.game_end_reason (GomokuGame.result s)
       = Some (GomokuGame.EndedByError m).

(** The answer that a turn of [LLMPlayer.play_turn] with three retries
    plays on [b]: the first of the answers at the attempts 0 to 3 that can
    be played. *)
Definition first_playable (b : GomokuBoard) (get_move : Z → option (string * Z))
    (k : Z) (col : string) (row : Z) : Prop :=
  0 ≤ k ≤ 3 ∧ get_move k = Some (col, row) ∧ playable b (get_move k) ∧
  ∀ j, 0 ≤ j < k → ¬ playable b (get_move j).

(** None of the answers at the attempts 0 to 3 can be played on [b]. *)
Definition none_playable (b : GomokuBoard) (get_move : Z → option (string * Z)) : Prop :=
  ∀ j, 0 ≤ j ≤ 3 → ¬ playable b (get_move j).

(** The board of a game after its first [i] moves. *)
Definition board_after (s : GomokuGame.t) (i : nat) : outcome GomokuBoard :=
  play init (take i (move_history (GomokuGame.board s))).

(** Every recorded move is the first playable answer of its turn, on the
    board of the moves before it. *)
Definition moves_follow (answers : Z → Z → option (string * Z)) (s : GomokuGame.t) : Prop :=
  ∀ i m, GomokuGame.moves s !! i = Some m →
    ∃ b k, board_after s i = Ok b ∧
           first_playable b (answers (Z.of_nat i)) k (GomokuGame.column m) (GomokuGame.row m).

(** A forfeit and a failure to get a move end the turn in which no answer
    can be played; the last answer tells them apart. *)
Definition end_follows (answers : Z → Z → option (string * Z)) (s : GomokuGame.t) : Prop :=
  let get_move := answers (Z.of_nat (length (GomokuGame.moves s))) in
  (forfeit_turns s = 1 →
   none_playable (GomokuGame.board s) get_move ∧ is_Some (get_move 3)) ∧
  (ended_by_error s →
   none_playable (GomokuGame.board s) get_move ∧ get_move 3 = None).

(** ** Example games *)

(** Two configured models. *)
Definition black_model : GomokuGame.player_info :=
  GomokuGame.mk_info "model-b" "provider-b" "Model B".
Definition white_model : GomokuGame.player_info :=
  GomokuGame.mk_info "model-w" "provider-w" "Model W".

(** The answers of models that follow a script: in the turn played when
    [turn] turns are done the model answers the entry [turn] of the script
    at every attempt, and nothing when the script is over. *)
Definition scripted (script : list (string * Z)) (turn attempt : Z) : option (string * Z) :=
  script !! Z.to_nat turn.

(** Black completes H8 to H12 with its fifth stone. *)
Definition line_script : list (string * Z) :=
  [("H", 8); ("A", 1); ("H", 9); ("A", 2); ("H", 10); ("A", 3); ("H", 11); ("A", 4);
   ("H", 12)].
Definition line_game : GomokuGame.step string * GomokuGame.t :=
  GomokuGame.play_game 225 (scripted line_script)
    (GomokuGame.new_game black_model white_model).

(** White answers the occupied H8 at each of its four attempts. *)
Definition forfeit_game : GomokuGame.step string * GomokuGame.t :=
  GomokuGame.play_game 225 (scripted [("H", 8); ("H", 8)])
    (GomokuGame.new_game black_model white_model).

(** White gives no answer. *)
Definition silent_game : GomokuGame.step string * GomokuGame.t :=
  GomokuGame.play_game 225 (scripted [("H", 8)])
    (GomokuGame.new_game black_model white_model).

(** A game of at most two moves. *)
Definition short_game : GomokuGame.step string * GomokuGame.t :=
  GomokuGame.play_game 2 (scripted line_script)
    (GomokuGame.new_game black_model white_model).

(** ** gomoku_visualizer.py

    The replay of a recorded game by [GomokuVisualizer]: its board state
    and its navigation.  The windows, the canvas and what is drawn on it are
    left out.  A game file is read as the record that
    [GomokuGame.save_game_record] writes: every move has its keys, and the
    key [result] is there. *)

Module GomokuVisualizer.

(** What the replay can raise: [ValueError], from [list.index], and the
    exceptions of indexing. *)
Inductive raised : Type :=
| ValueError
| Indexing (e : py_exn).

(** The keys [moves] and [result] of [self.game_data]. *)
Record game_file : Type := mk_file {
  file_moves : list GomokuGame.move_record;
  file_result : GomokuGame.result_record
}.

(** The attributes of the visualizer that the replay reads and writes. *)
Record t : Type := mk {
  game_data : option game_file;
  current_move_index : Z;
  board_size : Z;
  board_state : list (list string);
  move_numbers : list (list Z);
  winning_positions : list (string * Z)
}.

(** How a call ends. *)
Inductive step (A : Type) : Type :=
| Done (v : A)
| Raised (e : raised)
| NoFuel.
Arguments Done {A} v.
Arguments Raised {A} e.
Arguments NoFuel {A}.

(** A method: from the state before to how the call ends and the state
    then. *)
Definition M (A : Type) : Type := t → step A * t.

Definition ret {A : Type} (v : A) : M A := fun s => (Done v, s).

Definition bind {A B : Type} (m : M A) (k : A → M B) : M B := fun s =>
  match m s with
  | (Done v, s') => k v s'
  | (Raised e, s') => (Raised e, s')
  | (NoFuel, s') => (NoFuel, s')
  end.

Definition get : M t := fun s => (Done s, s).

Definition modify (f : t → t) : M unit := fun s => (Done tt, f s).

Definition raise {A : Type} (e : raised) : M A := fun s => (Raised e, s).

(** An indexing that changes nothing by itself. *)
Definition lift {A : Type} (o : outcome A) : M A := fun s =>
  match o with
  | Ok v => (Done v, s)
  | Raise e => (Raised (Indexing e), s)
  | OutOfFuel => (NoFuel, s)
  end.

Notation "x <- m ;; k" := (bind m (fun x => k))
  (at level 100, m at next level, right associativity).
Notation "m ;;; k" := (bind m (fun _ => k))
  (at level 100, right associativity).

Definition set_game_data (d : option game_file) (s : t) : t :=
  mk d (current_move_index s) (board_size s) (board_state s) (move_numbers s)
    (winning_positions s).
Definition set_current_move_index (i : Z) (s : t) : t :=
  mk (game_data s) i (board_size s) (board_state s) (move_numbers s)
    (winning_positions s).
Definition set_board_state (g : list (list string)) (s : t) : t :=
  mk (game_data s) (current_move_index s) (board_size s) g (move_numbers s)
    (winning_positions s).
Definition set_move_numbers (g : list (list Z)) (s : t) : t :=
  mk (game_data s) (current_move_index s) (board_size s) (board_state s) g
    (winning_positions s).
Definition set_winning_positions (l : list (string * Z)) (s : t) : t :=
  mk (game_data s) (current_move_index s) (board_size s) (board_state s)
    (move_numbers s) l.

(** [[[x for _ in range(n)] for _ in range(n)]] *)
Definition fresh_grid {A : Type} (n : Z) (x : A) : list (list A) :=
  replicate (Z.to_nat n) (replicate (Z.to_nat n) x).

(** The attributes after [__init__]. *)
Definition new_visualizer : t :=
  {| game_data := None;
     current_move_index := 0;
     board_size := 15;
     board_state := fresh_grid 15 ".";
     move_numbers := fresh_grid 15 0;
     winning_positions := [] |}.

(** [GomokuVisualizer.reset_board] *)
Definition reset_board : M unit :=
  modify (fun s => set_board_state (fresh_grid (board_size s) ".") s) ;;;
  modify (fun s => set_move_numbers (fresh_grid (board_size s) 0) s) ;;;
  modify (set_winning_positions []).

(** [l.index(x)]: the first position of [x] in [l], if it is there. *)
Fixpoint list_index (l : list string) (x : string) : option Z :=
  match l with
  | [] => None
  | y :: l' => if String.eqb y x then Some 0 else Z.succ <$> list_index l' x
  end.

(** The list [cols] of [coord_to_indices]. *)
Definition cols : list string :=
  ["A"; "B"; "C"; "D"; "E"; "F"; "G"; "H"; "I"; "J"; "K"; "L"; "M"; "N"; "O"].

(** [GomokuVisualizer.coord_to_indices]: the row is not checked. *)
Definition coord_to_indices (col : string) (row : Z) : M (Z * Z) :=
  col_idx <- match list_index cols col with
             | Some i => ret i
             | None => raise ValueError
             end ;;
  s <- get ;;
  let row_idx := board_size s - row in
  ret (row_idx, col_idx).

(** [g[row_idx][col_idx] = x]: the row object is fetched and updated in
    place. *)
Definition assign {A : Type} (g : list (list A)) (row_idx col_idx : Z) (x : A)
  : outcome (list (list A)) :=
  r ← Py.getitem g row_idx;
  r' ← Py.setitem r col_idx x;
  Py.setitem g row_idx r'.

(** The body of the loop [for i in range(move_index)] of
    [update_board_to_move]. *)
Definition apply_move (moves : list GomokuGame.move_record) (i : Z) : M unit :=
  if i <? Z.of_nat (length moves) then
    move <- lift (Py.getitem moves i) ;;
    let col := GomokuGame.column move in
    let row := GomokuGame.row move in
    let player := GomokuGame.player move in
    let move_num := GomokuGame.move_number move in
    idx <- coord_to_indices col row ;;
    let '(row_idx, col_idx) := idx in
    s <- get ;;
    g <- lift (assign (board_state s) row_idx col_idx player) ;;
    modify (set_board_state g) ;;;
    s <- get ;;
    n <- lift (assign (move_numbers s) row_idx col_idx move_num) ;;
    modify (set_move_numbers n)
  else ret tt.

(** [for i in l: body(i)] *)
Fixpoint for_each (l : list Z) (body : Z → M unit) : M unit :=
  match l with
  | [] => ret tt
  | i :: l' => body i ;;; for_each l' body
  end.

(** [GomokuVisualizer.update_board_to_move] *)
Definition update_board_to_move (move_index : Z) : M unit :=
  reset_board ;;;
  s <- get ;;
  match game_data s with
  | None => ret tt
  | Some data =>
      match file_moves data with
      | [] => ret tt
      | _ :: _ =>
          let moves := file_moves data in
          for_each (PyStr.range move_index) (apply_move moves) ;;;
          match GomokuGame.winning_line (file_result data) with
          | Some (p :: l) =>
              if move_index =? Z.of_nat (length moves) then
                modify (set_winning_positions
                          ((fun pos => (GomokuGame.position_column pos,
                                        GomokuGame.position_row pos)) <$> (p :: l)))
              else modify (set_winning_positions [])
          | _ => modify (set_winning_positions [])
          end ;;;
          modify (set_current_move_index move_index)
      end
  end.

(** [GomokuVisualizer.load_game], from the data read of the file; an
    exception of the replay is caught and shown. *)
Definition load_game (data : game_file) : M unit := fun s =>
  match (modify (set_game_data (Some data)) ;;;
         modify (set_current_move_index 0) ;;;
         reset_board ;;;
         update_board_to_move 0) s with
  | (Raised e, s') => (Done tt, s')
  | r => r
  end.

(** [GomokuVisualizer.go_to_first] *)
Definition go_to_first : M unit := update_board_to_move 0.

(** [GomokuVisualizer.previous_move] *)
Definition previous_move : M unit :=
  s <- get ;;
  if current_move_index s >? 0 then update_board_to_move (current_move_index s - 1)
  else ret tt.

(** [len(self.game_data.get('moves', []))] *)
Definition total_moves (data : game_file) : Z := Z.of_nat (length (file_moves data)).

(** [GomokuVisualizer.next_move] *)
Definition next_move : M unit :=
  s <- get ;;
  match game_data s with
  | Some data =>
      if current_move_index s <? total_moves data
      then update_board_to_move (current_move_index s + 1)
      else ret tt
  | None => ret tt
  end.

(** [GomokuVisualizer.go_to_last] *)
Definition go_to_last : M unit :=
  s <- get ;;
  match game_data s with
  | Some data => update_board_to_move (total_moves data)
  | None => ret tt
  end.

(** The buttons of the navigation, and a sequence of presses. *)
Inductive button : Type := First | Previous | Next | Last.

Definition press (b : button) : M unit :=
  match b with
  | First => go_to_first
  | Previous => previous_move
  | Next => next_move
  | Last => go_to_last
  end.

Fixpoint presses (l : list button) : M unit :=
  match l with
  | [] => ret tt
  | b :: l' => press b ;;; presses l'
  end.

End GomokuVisualizer.

(** The calls of [place_stone] that the records of a game file stand for. *)
Definition recorded_calls (records : list GomokuGame.move_record) : list move :=
  (fun m => (GomokuGame.column m, GomokuGame.row m, GomokuGame.player m)) <$> records.

(** A grid of [size] rows of [size] entries. *)
Definition grid_shape {A : Type} (g : list (list A)) : Prop :=
  length g = Z.to_nat size ∧ ∀ i r, g !! i = Some r → length r = Z.to_nat size.

(** The visualizer shows a position of the game of [file]: its board state
    is the board after the first [current_move_index] recorded moves. *)
Definition shows_position (file : GomokuVisualizer.game_file) (v : GomokuVisualizer.t)
  : Prop :=
  GomokuVisualizer.game_data v = Some file ∧
  GomokuVisualizer.board_size v = 15 ∧
  0 ≤ GomokuVisualizer.current_move_index v
    ≤ Z.of_nat (length (GomokuVisualizer.file_moves file)) ∧
  ∃ b, play init (take (Z.to_nat (GomokuVisualizer.current_move_index v))
                    (recorded_calls (GomokuVisualizer.file_moves file))) = Ok b ∧
       GomokuVisualizer.board_state v = board b.

(** A file of three moves. *)
Definition three_moves : GomokuVisualizer.game_file :=
  GomokuVisualizer.mk_file
    [GomokuGame.mk_move 1 "B" "Model B" "H" 8 "H8";
     GomokuGame.mk_move 2 "W" "Model W" "A" 1 "A1";
     GomokuGame.mk_move 3 "B" "Model B" "H" 9 "H9"]
    (GomokuGame.mk_result (Some "Draw") None 3 None (Some GomokuGame.MaximumMoves)).

(** ** model_config.py

    The choice of a provider and a configuration for a model name by
    [ModelManager].  A dict is embedded as the list of its items in
    insertion order, read by the key; the client that a configuration
    creates and the reading of the environment are left out, so
    [self.configs] is given. *)

Module ModelManager.

(** The [ValueError]s that these methods raise, by the values formatted
    into their messages. *)
Inductive value_error : Type :=
| ProviderNotConfigured (provider : string) (available : list string)
| ModelNotSupported (model_name provider : string) (available : list string)
| ModelNotFound (model_name : string).

(** A call returns ([inr]) or raises ([inl]). *)
Definition result (A : Type) : Type := value_error + A.



(** An entry of [self.configs]. *)
Record config_data_t : Type := mk_data {
  data_api_key : string;
  data_base_url : string
}.

(** [d.get(k)] *)
Fixpoint dict_get {V : Type} (d : list (string * V)) (k : string) : option V :=
  match d with
  | [] => None
  | (k', v) :: d' => if String.eqb k' k then Some v else dict_get d' k
  end.

(** [list(d.keys())] *)
Definition keys {V : Type} (d : list (string * V)) : list string := fst <$> d.

(** [x in l] *)
Definition contains (l : list string) (x : string) : bool := existsb (String.eqb x) l.

Definition PROVIDER_MODELS : list (string * list string) :=
  [("openai", ["gpt-5"]);
   ("deepseek", ["deepseek-chat"]);
   ("moonshot", ["kimi-k2-0711-preview"; "kimi-k2-thinking-turbo"]);
   ("zhipuai", ["glm-4.5"]);
   ("anthropic", ["anthropic/claude-sonnet-4"]);
   ("google", ["gemini-2.5-pro"; "gemini-2.5-flash"]);
   ("volcengine", ["doubao-seed-1.6-250615"; "deepseek-r1-250528"; "deepseek-v3-1-250821"]);
   ("stepfun", ["step-3"]);
   ("openrouter", ["qwen/qwen3-235b-a22b-thinking-2507"])].


(** [ModelManager.list_available_providers] *)
Definition list_available_providers (configs : list (string * config_data_t))
  : list string := keys configs.

(** [ModelManager.list_available_models] *)
Definition list_available_models (provider : string) : list string :=
  default [] (dict_get PROVIDER_MODELS provider).




End ModelManager.

(** * Properties *)

(** ** Outcomes and Python indexing *)

Lemma bind_Ok {A B : Type} (m : outcome A) (k : A → outcome B) (w : B) :
  (m ≫= k) = Ok w ↔ ∃ v, m = Ok v ∧ k v = Ok w.
Proof.
  destruct m as [v | e |]; simpl; split.
  - intros H. by exists v.
  - by intros (v' & [= ->] & H).
  - done.
  - by intros (v' & ? & _).
  - done.
  - by intros (v' & ? & _).
Qed.

Lemma ret_bind {A B : Type} (v : A) (k : A → outcome B) : (Ok v ≫= k) = k v.
Proof. reflexivity. Qed.

Lemma getitem_nonneg {A : Type} (l : list A) (i : Z) (x : A) :
  0 ≤ i → l !! Z.to_nat i = Some x → Py.getitem l i = Ok x.
Proof.
  intros Hi Hl. pose proof (lookup_lt_Some _ _ _ Hl) as Hlen.
  unfold Py.getitem, Py.norm_index.
  destruct (Z.ltb_spec i 0); [lia |].
  destruct (Z.leb_spec 0 i); [| lia].
  destruct (Z.ltb_spec i (Z.of_nat (length l))); [| lia].
  simpl. by rewrite Hl.
Qed.

Lemma setitem_nonneg {A : Type} (l : list A) (i : Z) (x : A) :
  0 ≤ i < Z.of_nat (length l) → Py.setitem l i x = Ok (<[Z.to_nat i := x]> l).
Proof.
  intros Hi. unfold Py.setitem, Py.norm_index.
  destruct (Z.ltb_spec i 0); [lia |].
  destruct (Z.leb_spec 0 i); [| lia].
  destruct (Z.ltb_spec i (Z.of_nat (length l))); [| lia].
  done.
Qed.

(** ** The column table *)

Lemma enumerate_snoc {A : Type} (l : list A) (x : A) :
  Py.enumerate (l ++ [x]) = Py.enumerate l ++ [(Z.of_nat (length l), x)].
Proof.
  unfold Py.enumerate. rewrite imap_app. simpl.
  by rewrite Nat.add_0_r.
Qed.

(** In the dict built from [enumerate] of a list without repetition, a key
    is bound to its position in the list, and nothing else is bound. *)
Lemma dict_of_enumerate_lookup (l : list string) (k : string) (i : Z) :
  NoDup l →
  Py.dict_of_swapped (Py.enumerate l) !! k = Some i ↔ 0 ≤ i ∧ l !! Z.to_nat i = Some k.
Proof.
  revert i. induction l as [| x l IH] using rev_ind; intros i Hnd.
  - unfold Py.dict_of_swapped. simpl. rewrite lookup_empty. naive_solver.
  - apply NoDup_app in Hnd as (Hl & Hx & _).
    rewrite enumerate_snoc. unfold Py.dict_of_swapped in *.
    rewrite foldl_app. simpl. rewrite lookup_insert.
    case_decide as Hk.
    + subst k. split.
      * intros [= <-]. split; [lia |].
        rewrite Nat2Z.id. by rewrite list_lookup_middle.
      * intros [Hi Hlk]. f_equal.
        destruct (decide (Z.to_nat i < length l)%nat) as [Hlt | Hge].
        -- rewrite lookup_app_l in Hlk by done.
           exfalso. apply (Hx x); [| set_solver].
           apply list_elem_of_lookup. eauto.
        -- apply lookup_lt_Some in Hlk. rewrite length_app in Hlk. simpl in Hlk. lia.
    + rewrite IH by done. split; intros [Hi Hlk]; (split; [done |]).
      * by apply lookup_app_l_Some.
      * apply lookup_app_Some in Hlk as [Hlk | [_ Hlk]]; [done |].
        destruct (Z.to_nat i - length l)%nat; simpl in Hlk; [congruence | done].
Qed.

Lemma cols_NoDup : NoDup cols.
Proof. apply (bool_decide_unpack _). by vm_compute. Qed.

Lemma cols_length : Z.of_nat (length cols) = size.
Proof. reflexivity. Qed.

(** [col_to_idx] is the inverse of indexing into [cols]. *)
Lemma col_to_idx_lookup (col : string) (i : Z) :
  col_to_idx !! col = Some i ↔ 0 ≤ i ∧ cols !! Z.to_nat i = Some col.
Proof. apply dict_of_enumerate_lookup, cols_NoDup. Qed.

Lemma col_to_idx_range (col : string) (i : Z) :
  col_to_idx !! col = Some i → 0 ≤ i < size.
Proof.
  intros [Hi Hl]%col_to_idx_lookup. apply lookup_lt_Some in Hl.
  pose proof cols_length. lia.
Qed.

(** What [_validate_coordinates] accepts. *)
Lemma validate_true (col : string) (row : Z) :
  _validate_coordinates col row = true ↔
  (∃ i, col_to_idx !! col = Some i) ∧ 1 ≤ row ≤ size.
Proof.
  unfold _validate_coordinates, Py.dict_contains.
  destruct (col_to_idx !! col) as [i |]; simpl.
  - destruct (Z.ltb_spec row 1), (Z.gtb_spec row size); simpl;
      split; try done; try (intros [_ ?]; lia).
    intros _. split; [eauto | lia].
  - split; [done | by intros [[i ?] _]].
Qed.

Lemma coord_to_indices_Ok (col : string) (row i : Z) :
  col_to_idx !! col = Some i → _coord_to_indices col row = Ok (size - row, i).
Proof. intros H. unfold _coord_to_indices, Py.dict_getitem. by rewrite H. Qed.

(** ** The grid *)

Lemma in_range_spec (i : Z) : in_range i = true ↔ 0 ≤ i < size.
Proof. unfold in_range. rewrite andb_true_iff, Z.leb_le, Z.ltb_lt. done. Qed.

Lemma in_range_false (i : Z) : in_range i = false ↔ ¬ (0 ≤ i < size).
Proof. rewrite <- in_range_spec. by destruct (in_range i). Qed.

Lemma square_spec (g : list (list string)) :
  square g = true ↔
  length g = Z.to_nat size ∧ ∀ i r, g !! i = Some r → length r = Z.to_nat size.
Proof.
  unfold square. rewrite andb_true_iff, Nat.eqb_eq, forallb_forall.
  split; intros [Hlen Hrows]; (split; [done |]).
  - intros i r Hr. apply Nat.eqb_eq, Hrows.
    apply list_elem_of_In, list_elem_of_lookup. eauto.
  - intros r [i Hr]%list_elem_of_In%list_elem_of_lookup.
    apply Nat.eqb_eq. eauto.
Qed.

Lemma cell_at_Some (g : list (list string)) (row col : Z) (s : string) :
  cell_at g row col = Some s ↔
  0 ≤ row < size ∧ 0 ≤ col < size ∧
  ∃ r, g !! Z.to_nat row = Some r ∧ r !! Z.to_nat col = Some s.
Proof.
  unfold cell_at.
  destruct (in_range row) eqn:Hr; simpl.
  - destruct (in_range col) eqn:Hc; simpl.
    + apply in_range_spec in Hr, Hc.
      destruct (g !! Z.to_nat row) as [r |]; simpl; naive_solver.
    + apply in_range_false in Hc. naive_solver.
  - apply in_range_false in Hr. naive_solver.
Qed.

Lemma cell_at_in_range (g : list (list string)) (row col : Z) (s : string) :
  cell_at g row col = Some s → 0 ≤ row < size ∧ 0 ≤ col < size.
Proof. rewrite cell_at_Some. tauto. Qed.

(** Every cell of the board holds something. *)
Lemma cell_at_total (g : list (list string)) (row col : Z) :
  square g = true → 0 ≤ row < size → 0 ≤ col < size →
  ∃ s, cell_at g row col = Some s.
Proof.
  intros [Hlen Hrows]%square_spec Hr Hc.
  destruct (lookup_lt_is_Some_2 g (Z.to_nat row)) as [r Hgr]; [lia |].
  destruct (lookup_lt_is_Some_2 r (Z.to_nat col)) as [s Hs].
  { rewrite (Hrows _ _ Hgr). lia. }
  exists s. apply cell_at_Some. eauto.
Qed.

(** Reading a cell of the board does not raise. *)
Lemma board_at_cell (g : list (list string)) (row col : Z) (s : string) :
  cell_at g row col = Some s → board_at g row col = Ok s.
Proof.
  intros (Hr & Hc & r & Hgr & Hs)%cell_at_Some. unfold board_at.
  rewrite (getitem_nonneg g row r) by (done || lia). simpl.
  apply getitem_nonneg; [lia | done].
Qed.

Lemma grid_set_square (g : list (list string)) (row col : Z) (v : string) :
  square g = true → square (grid_set g row col v) = true.
Proof.
  rewrite !square_spec. intros [Hlen Hrows]. unfold grid_set.
  destruct (g !! Z.to_nat row) as [r |] eqn:Hgr; [| done].
  split; [by rewrite length_insert |].
  intros i r' Hr'. destruct (decide (i = Z.to_nat row)) as [-> | Hne].
  - rewrite list_lookup_insert_eq in Hr' by (by eapply lookup_lt_Some).
    injection Hr' as <-. rewrite length_insert. eauto.
  - rewrite list_lookup_insert_ne in Hr' by done. eauto.
Qed.

(** Writing a cell of the board does not raise, and gives [grid_set]. *)
Lemma board_set_Ok (g : list (list string)) (row col : Z) (v : string) :
  square g = true → 0 ≤ row < size → 0 ≤ col < size →
  board_set g row col v = Ok (grid_set g row col v).
Proof.
  intros Hsq Hr Hc. pose proof Hsq as [Hlen Hrows]%square_spec.
  destruct (lookup_lt_is_Some_2 g (Z.to_nat row)) as [r Hgr]; [lia |].
  unfold board_set, grid_set. rewrite Hgr.
  rewrite (getitem_nonneg g row r) by (done || lia). simpl.
  rewrite setitem_nonneg by (rewrite (Hrows _ _ Hgr); lia). simpl.
  apply setitem_nonneg. lia.
Qed.

Lemma cell_at_grid_set_eq (g : list (list string)) (row col : Z) (v : string) :
  square g = true → 0 ≤ row < size → 0 ≤ col < size →
  cell_at (grid_set g row col v) row col = Some v.
Proof.
  intros [Hlen Hrows]%square_spec Hr Hc.
  destruct (lookup_lt_is_Some_2 g (Z.to_nat row)) as [r Hgr]; [lia |].
  apply cell_at_Some. do 2 (split; [done |]).
  unfold grid_set. rewrite Hgr. exists (<[Z.to_nat col := v]> r). split.
  - apply list_lookup_insert_eq. lia.
  - apply list_lookup_insert_eq. rewrite (Hrows _ _ Hgr). lia.
Qed.

Lemma cell_at_grid_set_ne (g : list (list string)) (row col row' col' : Z) (v : string) :
  0 ≤ row → 0 ≤ col → (row', col') ≠ (row, col) →
  cell_at (grid_set g row col v) row' col' = cell_at g row' col'.
Proof.
  intros Hr Hc Hne. unfold cell_at.
  destruct (in_range row') eqn:Hr'; [| done].
  destruct (in_range col') eqn:Hc'; [| done]. simpl.
  apply in_range_spec in Hr', Hc'. unfold grid_set.
  destruct (g !! Z.to_nat row) as [r |] eqn:Hgr; [| done].
  destruct (decide (row' = row)) as [-> | Hrow].
  - rewrite list_lookup_insert_eq by (by eapply lookup_lt_Some).
    rewrite Hgr. simpl. apply list_lookup_insert_ne.
    intros Heq. apply Hne. f_equal. lia.
  - rewrite list_lookup_insert_ne by lia. done.
Qed.

(** ** The scans of [_count_consecutive] and [_collect_line] *)

Lemma steps_left_next (dr dc row col : Z) :
  unit_dir dr dc → 0 ≤ row < size → 0 ≤ col < size →
  0 ≤ steps_left dr dc (row + dr) (col + dc) < steps_left dr dc row col.
Proof.
  intros (Hdr & Hdc & Hnz) Hr Hc. unfold steps_left.
  destruct (Z.eqb_spec dr 1); [lia |].
  destruct (Z.eqb_spec dr (-1)); [lia |].
  destruct (Z.eqb_spec dc 1); lia.
Qed.

Lemma steps_left_le (dr dc row col : Z) :
  0 ≤ row < size → 0 ≤ col < size → steps_left dr dc row col ≤ size.
Proof.
  intros Hr Hc. unfold steps_left.
  repeat match goal with |- context [Z.eqb ?a ?b] => destruct (Z.eqb_spec a b) end; lia.
Qed.

Lemma directions_unit (d : Z * Z) : d ∈ directions → unit_dir d.1 d.2.
Proof.
  unfold directions. rewrite !elem_of_cons, elem_of_nil.
  intros [-> | [-> | [-> | [-> | []]]]]; unfold unit_dir; simpl; lia.
Qed.

Lemma unit_dir_opp (dr dc : Z) : unit_dir dr dc → unit_dir (- dr) (- dc).
Proof. unfold unit_dir. lia. Qed.

Section Scan.
Variables (g : list (list string)) (stone : string).
Variables (row col dr dc : Z).
Hypothesis Hsq : square g = true.
Hypothesis Hdir : unit_dir dr dc.

(** The loop of [_count_consecutive], entered for the cell at distance [j]
    with the count [j - 1], leaves with the length of the run. *)
Lemma count_loop_run (fuel : nat) (j : Z) :
  1 ≤ j →
  0 ≤ row + (j - 1) * dr < size → 0 ≤ col + (j - 1) * dc < size →
  (∀ i, 1 ≤ i < j → cell_at g (row + i * dr) (col + i * dc) = Some stone) →
  steps_left dr dc (row + j * dr) (col + j * dc) < Z.of_nat fuel →
  ∃ k, count_loop fuel g (row + j * dr) (col + j * dc) dr dc stone (j - 1) = Ok k
       ∧ is_run g row col dr dc stone k.
Proof.
  revert j. induction fuel as [| fuel' IH]; intros j Hj Hpr Hpc Hcells Hfuel.
  - pose proof (steps_left_next dr dc _ _ Hdir Hpr Hpc) as Hs.
    replace (row + (j - 1) * dr + dr) with (row + j * dr) in Hs by lia.
    replace (col + (j - 1) * dc + dc) with (col + j * dc) in Hs by lia.
    lia.
  - simpl.
    destruct (cell_at g (row + j * dr) (col + j * dc)) as [s |] eqn:Hcell.
    + pose proof (cell_at_in_range _ _ _ _ Hcell) as [Hr Hc].
      rewrite (proj2 (in_range_spec _) Hr), (proj2 (in_range_spec _) Hc). simpl.
      rewrite (board_at_cell _ _ _ _ Hcell). simpl.
      destruct (String.eqb_spec s stone) as [-> | Hne].
      * pose proof (steps_left_next dr dc _ _ Hdir Hr Hc) as Hs.
        replace (row + j * dr + dr) with (row + (j + 1) * dr) in * by lia.
        replace (col + j * dc + dc) with (col + (j + 1) * dc) in * by lia.
        replace (j - 1 + 1) with (j + 1 - 1) by lia.
        apply IH; [lia | | | | lia].
        -- by replace (j + 1 - 1) with j by lia.
        -- by replace (j + 1 - 1) with j by lia.
        -- intros i Hi. destruct (decide (i = j)) as [-> | Hij]; [done |].
           apply Hcells. lia.
      * exists (j - 1). split; [done |]. split; [lia |]. split.
        -- intros i Hi. apply Hcells. lia.
        -- replace (j - 1 + 1) with j by lia. rewrite Hcell. congruence.
    + assert (in_range (row + j * dr) && in_range (col + j * dc) = false) as ->.
      { destruct (in_range (row + j * dr)) eqn:Hr; [| done].
        destruct (in_range (col + j * dc)) eqn:Hc; [| done].
        apply in_range_spec in Hr, Hc.
        destruct (cell_at_total g _ _ Hsq Hr Hc) as [s Hs]. congruence. }
      exists (j - 1). split; [done |]. split; [lia |]. split.
      * intros i Hi. apply Hcells. lia.
      * replace (j - 1 + 1) with j by lia. rewrite Hcell. congruence.
Qed.

(** [_count_consecutive] from a cell of the board returns, and returns the
    length of the run beside that cell. *)
Lemma count_consecutive_run (b : GomokuBoard) :
  board b = g → 0 ≤ row < size → 0 ≤ col < size →
  ∃ k, _count_consecutive b row col dr dc stone = Ok k
       ∧ is_run g row col dr dc stone k.
Proof.
  intros Hb Hr Hc. unfold _count_consecutive. rewrite Hb.
  pose proof (count_loop_run scan_fuel 1) as H.
  replace (row + 1 * dr) with (row + dr) in H by lia.
  replace (col + 1 * dc) with (col + dc) in H by lia.
  apply H; clear H.
  - lia.
  - by replace (row + (1 - 1) * dr) with row by lia.
  - by replace (col + (1 - 1) * dc) with col by lia.
  - intros i Hi. lia.
  - pose proof (steps_left_next dr dc _ _ Hdir Hr Hc).
    pose proof (steps_left_le dr dc _ _ Hr Hc).
    unfold scan_fuel. lia.
Qed.

(** The length of the run is determined by the board. *)
Lemma is_run_unique (k1 k2 : Z) :
  is_run g row col dr dc stone k1 → is_run g row col dr dc stone k2 → k1 = k2.
Proof.
  intros (H1 & Hc1 & Hn1) (H2 & Hc2 & Hn2).
  destruct (Z.lt_trichotomy k1 k2) as [Hlt | [Heq | Hgt]]; [| done |].
  - exfalso. apply Hn1, Hc2. lia.
  - exfalso. apply Hn2, Hc1. lia.
Qed.
End Scan.

Lemma indices_to_coord_Ok (row col : Z) :
  0 ≤ col < size → indices_to_coord row col = Ok (coord_at row col).
Proof.
  intros Hc. unfold indices_to_coord, coord_at.
  rewrite (getitem_nonneg cols col (cols !!! Z.to_nat col)); [done | lia |].
  apply list_lookup_lookup_total_lt. pose proof cols_length. lia.
Qed.

(** More fuel does not change what a scan returns. *)
Lemma count_loop_fuel_mono (fuel fuel' : nat) (g : list (list string))
    (row col dr dc : Z) (stone : string) (n k : Z) :
  (fuel ≤ fuel')%nat →
  count_loop fuel g row col dr dc stone n = Ok k →
  count_loop fuel' g row col dr dc stone n = Ok k.
Proof.
  revert fuel' row col n. induction fuel as [| fuel IH]; intros fuel' row col n Hle; [done |].
  destruct fuel' as [| fuel']; [lia |]. simpl.
  destruct (in_range row && in_range col); [| done].
  destruct (board_at g row col) as [cell | |]; simpl; [| done | done].
  destruct (String.eqb cell stone); [| done].
  apply IH. lia.
Qed.

Lemma count_loop_ge (fuel : nat) (g : list (list string))
    (row col dr dc : Z) (stone : string) (n k : Z) :
  count_loop fuel g row col dr dc stone n = Ok k → n ≤ k.
Proof.
  revert row col n. induction fuel as [| fuel IH]; intros row col n; [done |].
  simpl. destruct (in_range row && in_range col); [| intros [= ->]; lia].
  destruct (board_at g row col) as [cell | |]; simpl; [| done | done].
  destruct (String.eqb cell stone); [| intros [= ->]; lia].
  intros H%IH. lia.
Qed.

(** The loop of [_collect_line] visits the cells that the loop of
    [_count_consecutive] counts, and appends their coordinates in that order. *)
Lemma collect_loop_count (fuel : nat) (g : list (list string))
    (row col dr dc : Z) (stone : string) (n k : Z) (acc : list (string * Z)) :
  count_loop fuel g row col dr dc stone n = Ok k →
  collect_loop fuel g row col dr dc stone acc =
  Ok (acc ++ ((fun i => coord_at (row + i * dr) (col + i * dc)) <$> seqZ 0 (k - n))).
Proof.
  revert row col n acc. induction fuel as [| fuel IH]; intros row col n acc; [done |].
  simpl. destruct (in_range row && in_range col) eqn:Hin.
  - destruct (board_at g row col) as [cell | |]; simpl; [| done | done].
    destruct (String.eqb cell stone).
    + intros Hcount. pose proof (count_loop_ge _ _ _ _ _ _ _ _ _ Hcount) as Hge.
      apply andb_true_iff in Hin as [_ Hc%in_range_spec].
      rewrite indices_to_coord_Ok by done. simpl.
      rewrite (IH _ _ _ _ Hcount).
      rewrite (seqZ_cons 0 (k - n)) by lia. rewrite fmap_cons.
      rewrite <- (fmap_add_seqZ 1 0), <- list_fmap_compose.
      rewrite <- app_assoc. simpl. do 3 f_equal.
      * f_equal; lia.
      * replace (Z.pred (k - n)) with (k - (n + 1)) by lia.
        apply list_fmap_ext. intros _ i _. simpl. f_equal; lia.
    + intros [= ->]. by rewrite Z.sub_diag, app_nil_r.
  - intros [= ->]. by rewrite Z.sub_diag, app_nil_r.
Qed.

(** [_collect_line] appends the coordinates of the run, nearest first. *)
Lemma collect_line_count (b : GomokuBoard) (row col dr dc : Z) (stone : string)
    (k : Z) (acc : list (string * Z)) :
  _count_consecutive b row col dr dc stone = Ok k →
  _collect_line b row col dr dc stone acc = Ok (acc ++ run_coords row col dr dc k).
Proof.
  unfold _count_consecutive, _collect_line, run_coords. intros H.
  rewrite (collect_loop_count _ _ _ _ _ _ _ _ _ _ H). do 2 f_equal.
  rewrite Z.sub_0_r, <- (fmap_add_seqZ 1 0), <- list_fmap_compose.
  apply list_fmap_ext. intros _ i _. simpl. f_equal; lia.
Qed.

Lemma run_coords_length (row col dr dc k : Z) :
  0 ≤ k → Z.of_nat (length (run_coords row col dr dc k)) = k.
Proof. intros Hk. unfold run_coords. rewrite length_fmap, length_seqZ. lia. Qed.

(** ** The loops over the four directions *)

Section Lines.
Variables (b : GomokuBoard) (stone : string) (row_idx col_idx : Z).
Hypothesis Hsq : square (board b) = true.
Hypothesis Hrow : 0 ≤ row_idx < size.
Hypothesis Hcol : 0 ≤ col_idx < size.

(** Both scans along a direction return, with the runs on the two sides. *)
Lemma line_counts (d : Z * Z) :
  unit_dir d.1 d.2 →
  ∃ kp kn,
    _count_consecutive b row_idx col_idx d.1 d.2 stone = Ok kp ∧
    _count_consecutive b row_idx col_idx (- d.1) (- d.2) stone = Ok kn ∧
    is_run (board b) row_idx col_idx d.1 d.2 stone kp ∧
    is_run (board b) row_idx col_idx (- d.1) (- d.2) stone kn.
Proof.
  intros Hd.
  destruct (count_consecutive_run (board b) stone row_idx col_idx d.1 d.2
              Hsq Hd b eq_refl Hrow Hcol) as (kp & Hkp & Hrp).
  destruct (count_consecutive_run (board b) stone row_idx col_idx (- d.1) (- d.2)
              Hsq (unit_dir_opp _ _ Hd) b eq_refl Hrow Hcol) as (kn & Hkn & Hrn).
  by exists kp, kn.
Qed.

Lemma line_total_unique (d : Z * Z) (n1 n2 : Z) :
  line_total (board b) row_idx col_idx d stone n1 →
  line_total (board b) row_idx col_idx d stone n2 → n1 = n2.
Proof.
  intros (kp1 & kn1 & Hp1 & Hn1 & ->) (kp2 & kn2 & Hp2 & Hn2 & ->).
  rewrite (is_run_unique _ _ _ _ _ _ _ _ Hp1 Hp2).
  by rewrite (is_run_unique _ _ _ _ _ _ _ _ Hn1 Hn2).
Qed.

(** The loop of [check_win] returns, and returns [True] exactly when some
    direction of its list has a line of five or more. *)
Lemma check_win_loop_spec (ds : list (Z * Z)) :
  (∀ d, d ∈ ds → unit_dir d.1 d.2) →
  ∃ w, check_win_loop b row_idx col_idx stone ds = Ok w ∧
       (w = true ↔
        ∃ d n, d ∈ ds ∧ line_total (board b) row_idx col_idx d stone n ∧ 5 ≤ n).
Proof.
  induction ds as [| d ds IH]; intros Hds.
  - exists false. split; [done |]. split; [done |].
    intros (d & n & Hd & _). by apply elem_of_nil in Hd.
  - destruct d as [dr dc]. simpl.
    destruct (line_counts (dr, dc)) as (kp & kn & Hkp & Hkn & Hrp & Hrn).
    { apply (Hds (dr, dc)). left. }
    simpl in Hkp, Hkn. rewrite Hkp. simpl. rewrite Hkn.
    simpl. destruct (Z.geb_spec (1 + kp + kn) 5) as [Hge | Hlt].
    + exists true. split; [done |]. split; [| done]. intros _.
      exists (dr, dc), (1 + kp + kn). split; [left |]. split; [| lia].
      by exists kp, kn.
    + destruct IH as (w & Hw & Hiff).
      { intros d Hd. apply Hds. by right. }
      exists w. split; [done |]. rewrite Hiff. split.
      * intros (d & n & Hd & Hn). exists d, n. split; [by right | done].
      * intros (d & n & [-> | Hd]%elem_of_cons & Htot & Hn); [| by eauto].
        assert (n = 1 + kp + kn); [| lia].
        eapply line_total_unique; [done |]. by exists kp, kn.
Qed.

Lemma line_of_length (col : string) (row : Z) (d : Z * Z) (kp kn : Z) :
  0 ≤ kp → 0 ≤ kn →
  Z.of_nat (length (line_of col row row_idx col_idx d kp kn)) = 1 + kp + kn.
Proof.
  intros Hp Hn. unfold line_of. simpl length.
  rewrite length_app, Nat2Z.inj_succ, Nat2Z.inj_add, !run_coords_length by done. lia.
Qed.
(** One round of the loop of [get_winning_line]. *)
Lemma get_winning_line_loop_cons (col : string) (row : Z) (d : Z * Z)
    (ds : list (Z * Z)) (kp kn : Z) :
  unit_dir d.1 d.2 →
  is_run (board b) row_idx col_idx d.1 d.2 stone kp →
  is_run (board b) row_idx col_idx (- d.1) (- d.2) stone kn →
  get_winning_line_loop b col row row_idx col_idx stone (d :: ds) =
  if 1 + kp + kn >=? 5 then Ok (Some (take 5 (line_of col row row_idx col_idx d kp kn)))
  else get_winning_line_loop b col row row_idx col_idx stone ds.
Proof.
  intros Hd Hp Hn.
  destruct (line_counts d Hd) as (kp' & kn' & Hkp & Hkn & Hrp & Hrn).
  rewrite (is_run_unique _ _ _ _ _ _ _ _ Hp Hrp), (is_run_unique _ _ _ _ _ _ _ _ Hn Hrn).
  destruct d as [dr dc]. simpl in Hkp, Hkn. cbn [get_winning_line_loop].
  rewrite (collect_line_count _ _ _ _ _ _ _ _ Hkp), ret_bind.
  rewrite (collect_line_count _ _ _ _ _ _ _ _ Hkn), ret_bind.
  unfold Py.slice_to. cbn [app].
  change ((col, row) :: run_coords row_idx col_idx dr dc kp' ++
          run_coords row_idx col_idx (- dr) (- dc) kn')
    with (line_of col row row_idx col_idx (dr, dc) kp' kn').
  by rewrite line_of_length by (by destruct Hrp, Hrn).
Qed.

(** The loop of [get_winning_line] passes over the directions whose line is
    shorter than five and stops at the first one whose line is not. *)
Lemma get_winning_line_loop_first (col : string) (row : Z)
    (l1 l2 : list (Z * Z)) (d : Z * Z) (kp kn : Z) :
  (∀ d', d' ∈ l1 ++ [d] → unit_dir d'.1 d'.2) →
  (∀ d' n, d' ∈ l1 → line_total (board b) row_idx col_idx d' stone n → n < 5) →
  is_run (board b) row_idx col_idx d.1 d.2 stone kp →
  is_run (board b) row_idx col_idx (- d.1) (- d.2) stone kn →
  5 ≤ 1 + kp + kn →
  get_winning_line_loop b col row row_idx col_idx stone (l1 ++ d :: l2) =
  Ok (Some (take 5 (line_of col row row_idx col_idx d kp kn))).
Proof.
  intros Hunit Hl1 Hp Hn H5. induction l1 as [| d1 l1 IH]; simpl app.
  - rewrite (get_winning_line_loop_cons col row d l2 kp kn); [| | done | done].
    + by destruct (Z.geb_spec (1 + kp + kn) 5); [| lia].
    + apply Hunit. set_solver.
  - assert (unit_dir d1.1 d1.2) as Hd1 by (apply Hunit; set_solver).
    destruct (line_counts d1 Hd1) as (kp1 & kn1 & _ & _ & Hrp & Hrn).
    rewrite (get_winning_line_loop_cons col row d1 _ kp1 kn1) by done.
    assert (1 + kp1 + kn1 < 5) as Hlt.
    { apply (Hl1 d1); [set_solver |]. by exists kp1, kn1. }
    destruct (Z.geb_spec (1 + kp1 + kn1) 5); [lia |].
    apply IH.
    + intros d' Hd'. apply Hunit. set_solver.
    + intros d' n Hd'. apply Hl1. set_solver.
Qed.

(** The loop of [get_winning_line] returns: [None] when no direction of its
    list has a line of five or more, and otherwise the first five
    coordinates of the line of the first direction that has one. *)
Lemma get_winning_line_loop_spec (col : string) (row : Z) (ds : list (Z * Z)) :
  (∀ d, d ∈ ds → unit_dir d.1 d.2) →
  (get_winning_line_loop b col row row_idx col_idx stone ds = Ok None ∧
   ∀ d n, d ∈ ds → line_total (board b) row_idx col_idx d stone n → n < 5)
  ∨
  (∃ l1 d l2 kp kn,
      ds = l1 ++ d :: l2 ∧
      (∀ d' n, d' ∈ l1 → line_total (board b) row_idx col_idx d' stone n → n < 5) ∧
      is_run (board b) row_idx col_idx d.1 d.2 stone kp ∧
      is_run (board b) row_idx col_idx (- d.1) (- d.2) stone kn ∧
      5 ≤ 1 + kp + kn ∧
      get_winning_line_loop b col row row_idx col_idx stone ds =
      Ok (Some (take 5 (line_of col row row_idx col_idx d kp kn)))).
Proof.
  induction ds as [| d ds IH]; intros Hds.
  - left. split; [done |]. intros d n Hd. by apply elem_of_nil in Hd.
  - assert (unit_dir d.1 d.2) as Hd by (apply Hds; left).
    destruct (line_counts d Hd) as (kp & kn & _ & _ & Hrp & Hrn).
    rewrite (get_winning_line_loop_cons col row d ds kp kn) by done.
    destruct (Z.geb_spec (1 + kp + kn) 5) as [Hge | Hlt].
    + right. exists [], d, ds, kp, kn.
      split; [done |]. split; [| done].
      intros d' n Hd'. by apply elem_of_nil in Hd'.
    + assert (∀ n, line_total (board b) row_idx col_idx d stone n → n < 5)
        as Hhead.
      { intros n Htot. assert (n = 1 + kp + kn); [| lia].
        eapply line_total_unique; [done |]. by exists kp, kn. }
      destruct IH as [[Hnone Hall] | (l1 & d0 & l2 & kp' & kn' & -> & Hl1 & Hp & Hn & H5 & Hres)].
      { intros d' Hd'. apply Hds. by right. }
      * left. split; [done |].
        intros d' n [-> | Hd']%elem_of_cons; [apply Hhead | by apply Hall].
      * right. exists (d :: l1), d0, l2, kp', kn'.
        split; [done |]. split; [| done].
        intros d' n [-> | Hd']%elem_of_cons; [apply Hhead | by apply Hl1].
Qed.
End Lines.

(** ** Coordinates *)

Lemma validate_valid (col : string) (row : Z) :
  _validate_coordinates col row = true ↔ valid_coord col row.
Proof.
  rewrite validate_true. unfold valid_coord.
  assert ((∃ i, col_to_idx !! col = Some i) ↔ col ∈ cols) as ->; [| done].
  rewrite list_elem_of_lookup. split.
  - intros [i [_ Hi]%col_to_idx_lookup]. eauto.
  - intros [n Hn]. exists (Z.of_nat n). apply col_to_idx_lookup.
    rewrite Nat2Z.id. split; [lia | done].
Qed.

Lemma validate_invalid (col : string) (row : Z) :
  _validate_coordinates col row = false ↔ ¬ valid_coord col row.
Proof. rewrite <- validate_valid. by destruct (_validate_coordinates col row). Qed.

(** The array indices of a coordinate of the board. *)
Lemma valid_indices (col : string) (row : Z) :
  valid_coord col row →
  ∃ col_idx,
    _coord_to_indices col row = Ok (size - row, col_idx) ∧
    0 ≤ size - row < size ∧ 0 ≤ col_idx < size ∧
    cols !! Z.to_nat col_idx = Some col.
Proof.
  intros Hv. pose proof Hv as [_ Hrow].
  apply validate_valid, validate_true in Hv as [[i Hi] _].
  exists i. split; [by apply coord_to_indices_Ok |].
  split; [lia |]. split; [by eapply col_to_idx_range |].
  by apply col_to_idx_lookup in Hi as [_ ?].
Qed.

(** * The coordinate mapping *)

(** C7. For every coordinate of the board, [_coord_to_indices] sends row [r]
    to the array row [size - r] and the column letter to its 0-based position
    in [cols], and converting these indices back, as [_collect_line] does,
    gives the coordinate again. *)
Theorem coord_indices_roundtrip (col : string) (row : Z) :
  valid_coord col row →
  ∃ row_idx col_idx,
    _coord_to_indices col row = Ok (row_idx, col_idx) ∧
    row_idx = size - row ∧
    0 ≤ col_idx ∧ cols !! Z.to_nat col_idx = Some col ∧
    indices_to_coord row_idx col_idx = Ok (col, row).
Proof.
  intros Hv. destruct (valid_indices col row Hv) as (ci & Hidx & Hr & Hc & Hcol).
  exists (size - row), ci. split; [done |]. split; [done |].
  split; [lia |]. split; [done |].
  rewrite indices_to_coord_Ok by done. unfold coord_at.
  rewrite (list_lookup_total_correct _ _ _ Hcol). do 2 f_equal. lia.
Qed.

Lemma coord_indices_roundtrip_witness :
  valid_coord "H" 8 ∧
  ∃ row_idx col_idx,
    _coord_to_indices "H" 8 = Ok (row_idx, col_idx) ∧
    row_idx = size - 8 ∧
    0 ≤ col_idx ∧ cols !! Z.to_nat col_idx = Some "H" ∧
    indices_to_coord row_idx col_idx = Ok ("H", 8).
Proof.
  assert (valid_coord "H" 8) as Hv by (apply validate_valid; reflexivity).
  split; [exact Hv | exact (coord_indices_roundtrip "H" 8 Hv)].
Defined.

(** * Win detection *)

(** On a coordinate of the board [check_win] returns, and returns [True]
    exactly when some direction has a line of five or more. *)
Lemma check_win_on_board (b : GomokuBoard) (col : string) (row : Z) (stone : string)
    (row_idx col_idx : Z) :
  square (board b) = true →
  valid_coord col row →
  _coord_to_indices col row = Ok (row_idx, col_idx) →
  ∃ w, check_win b col row stone = Ok w ∧
       (w = true ↔
        ∃ d n, d ∈ directions ∧ line_total (board b) row_idx col_idx d stone n ∧ 5 ≤ n).
Proof.
  intros Hsq Hv Hidx.
  destruct (valid_indices col row Hv) as (ci & Hidx' & Hr & Hc & _).
  rewrite Hidx in Hidx'. injection Hidx' as -> ->.
  destruct (check_win_loop_spec b stone (size - row) ci Hsq Hr Hc directions)
    as (w & Hw & Hiff); [apply directions_unit |].
  exists w. split; [| done].
  unfold check_win. apply validate_valid in Hv. by rewrite Hv, Hidx.
Qed.

(** C1. [check_win] returns [False] for a coordinate off the board.  For a
    coordinate of the board it returns [True] exactly when, along one of the
    four directions, 1 plus the run of [stone] beside the cell one way plus
    the run the other way is at least 5; a longer line counts as well. *)
Theorem check_win_correct (b : GomokuBoard) (col : string) (row : Z) (stone : string) :
  square (board b) = true →
  (¬ valid_coord col row → check_win b col row stone = Ok false) ∧
  (valid_coord col row →
   ∃ row_idx col_idx w,
     _coord_to_indices col row = Ok (row_idx, col_idx) ∧
     check_win b col row stone = Ok w ∧
     (w = true ↔
      ∃ d kp kn, d ∈ directions ∧
        is_run (board b) row_idx col_idx d.1 d.2 stone kp ∧
        is_run (board b) row_idx col_idx (- d.1) (- d.2) stone kn ∧
        5 ≤ 1 + kp + kn)).
Proof.
  intros Hsq. split.
  - intros Hv%validate_invalid. unfold check_win. by rewrite Hv.
  - intros Hv. destruct (valid_indices col row Hv) as (ci & Hidx & _).
    destruct (check_win_on_board b col row stone _ _ Hsq Hv Hidx) as (w & Hcw & Hiff).
    exists (size - row), ci, w. do 2 (split; [done |]).
    rewrite Hiff. split.
    + intros (d & n & Hd & (kp & kn & Hp & Hn & ->) & H5). by exists d, kp, kn.
    + intros (d & kp & kn & Hd & Hp & Hn & H5).
      exists d, (1 + kp + kn). split; [done |]. split; [| done]. by exists kp, kn.
Qed.

Lemma check_win_correct_witness :
  square (board five_in_column) = true ∧
  (valid_coord "H" 12 →
   ∃ row_idx col_idx w,
     _coord_to_indices "H" 12 = Ok (row_idx, col_idx) ∧
     check_win five_in_column "H" 12 "B" = Ok w ∧
     (w = true ↔
      ∃ d kp kn, d ∈ directions ∧
        is_run (board five_in_column) row_idx col_idx d.1 d.2 "B" kp ∧
        is_run (board five_in_column) row_idx col_idx (- d.1) (- d.2) "B" kn ∧
        5 ≤ 1 + kp + kn)).
Proof.
  split; [reflexivity |].
  exact (proj2 (check_win_correct five_in_column "H" 12 "B" eq_refl)).
Defined.

(** Six in a row win as five do, and the line reported is cut to five: the
    stone played, its neighbour to the right, then those to the left, D8 left
    out. *)
Example overline_wins :
  check_win six_in_row "H" 8 "B" = Ok true ∧
  get_winning_line six_in_row "H" 8 "B"
  = Ok (Some [("H", 8); ("I", 8); ("G", 8); ("F", 8); ("E", 8)]).
Proof. split; reflexivity. Qed.

(** Before the fifth stone the column of [five_in_column] is no win. *)
Example four_do_not_win :
  check_win (played [("H", 8, "B"); ("A", 1, "W"); ("H", 9, "B"); ("A", 2, "W");
                     ("H", 10, "B"); ("A", 3, "W"); ("H", 11, "B")]) "H" 11 "B"
  = Ok false ∧
  get_winning_line (played [("H", 8, "B"); ("A", 1, "W"); ("H", 9, "B"); ("A", 2, "W");
                            ("H", 10, "B"); ("A", 3, "W"); ("H", 11, "B")]) "H" 11 "B"
  = Ok None.
Proof. split; reflexivity. Qed.

(** C2. [get_winning_line] returns [None] exactly when [check_win] returns
    [False].  When [check_win] returns [True] it returns exactly five
    coordinates: the first five of the line made of the queried coordinate,
    then the run of [stone] in the positive direction, nearest first, then
    the run in the negative direction, nearest first. *)
Theorem get_winning_line_correct (b : GomokuBoard) (col : string) (row : Z)
    (stone : string) :
  square (board b) = true →
  ∃ w, check_win b col row stone = Ok w ∧
    (get_winning_line b col row stone = Ok None ↔ w = false) ∧
    (w = true →
     ∃ row_idx col_idx d kp kn l,
       _coord_to_indices col row = Ok (row_idx, col_idx) ∧
       d ∈ directions ∧
       is_run (board b) row_idx col_idx d.1 d.2 stone kp ∧
       is_run (board b) row_idx col_idx (- d.1) (- d.2) stone kn ∧
       get_winning_line b col row stone = Ok (Some l) ∧
       l = take 5 (line_of col row row_idx col_idx d kp kn) ∧
       length l = 5%nat).
Proof.
  intros Hsq. destruct (decide (valid_coord col row)) as [Hv | Hnv].
  - destruct (valid_indices col row Hv) as (ci & Hidx & Hr & Hc & _).
    destruct (check_win_loop_spec b stone (size - row) ci Hsq Hr Hc directions)
      as (w & Hw & Hiff); [apply directions_unit |].
    assert (check_win b col row stone = Ok w) as Hcw.
    { unfold check_win. apply validate_valid in Hv. by rewrite Hv, Hidx. }
    exists w. split; [done |]. unfold get_winning_line. rewrite Hcw, ret_bind.
    destruct w; simpl negb; cbv iota; [| by split].
    rewrite Hidx, ret_bind.
    destruct (get_winning_line_loop_spec b stone (size - row) ci Hsq Hr Hc col row directions)
      as [[_ Hall] | (l1 & d & l2 & kp & kn & Hds & _ & Hp & Hn & H5 & Hres)];
      [apply directions_unit | |].
    + exfalso. destruct (proj1 Hiff eq_refl) as (d & n & Hd & Htot & H5).
      specialize (Hall d n Hd Htot). lia.
    + rewrite Hres. split; [done |]. intros _.
      exists (size - row), ci, d, kp, kn, (take 5 (line_of col row (size - row) ci d kp kn)).
      split; [done |]. split; [rewrite Hds; set_solver |].
      do 4 (split; [done |]).
      rewrite length_take.
      pose proof (line_of_length (size - row) ci col row d kp kn
                    (proj1 Hp) (proj1 Hn)). lia.
  - exists false. assert (check_win b col row stone = Ok false) as Hcw.
    { apply validate_invalid in Hnv. unfold check_win. by rewrite Hnv. }
    split; [done |]. unfold get_winning_line. rewrite Hcw. by split.
Qed.

Lemma get_winning_line_correct_witness :
  square (board five_in_column) = true ∧
  get_winning_line five_in_column "H" 12 "B"
  = Ok (Some [("H", 12); ("H", 11); ("H", 10); ("H", 9); ("H", 8)]) ∧
  ∃ w, check_win five_in_column "H" 12 "B" = Ok w ∧
    (get_winning_line five_in_column "H" 12 "B" = Ok None ↔ w = false) ∧
    (w = true →
     ∃ row_idx col_idx d kp kn l,
       _coord_to_indices "H" 12 = Ok (row_idx, col_idx) ∧
       d ∈ directions ∧
       is_run (board five_in_column) row_idx col_idx d.1 d.2 "B" kp ∧
       is_run (board five_in_column) row_idx col_idx (- d.1) (- d.2) "B" kn ∧
       get_winning_line five_in_column "H" 12 "B" = Ok (Some l) ∧
       l = take 5 (line_of "H" 12 row_idx col_idx d kp kn) ∧
       length l = 5%nat).
Proof.
  split; [reflexivity |]. split; [reflexivity |].
  exact (get_winning_line_correct five_in_column "H" 12 "B" eq_refl).
Defined.

(** What the scans compute on a given board settles the runs. *)
Lemma count_is_run (b : GomokuBoard) (row_idx col_idx dr dc : Z) (stone : string) (k : Z) :
  square (board b) = true → 0 ≤ row_idx < size → 0 ≤ col_idx < size →
  unit_dir dr dc →
  _count_consecutive b row_idx col_idx dr dc stone = Ok k →
  is_run (board b) row_idx col_idx dr dc stone k.
Proof.
  intros Hsq Hr Hc Hd Hk.
  destruct (count_consecutive_run (board b) stone row_idx col_idx dr dc
              Hsq Hd b eq_refl Hr Hc) as (k' & Hk' & Hrun).
  congruence.
Qed.

Lemma count_line_total (b : GomokuBoard) (row_idx col_idx : Z) (d : Z * Z)
    (stone : string) (kp kn n : Z) :
  square (board b) = true → 0 ≤ row_idx < size → 0 ≤ col_idx < size →
  unit_dir d.1 d.2 →
  _count_consecutive b row_idx col_idx d.1 d.2 stone = Ok kp →
  _count_consecutive b row_idx col_idx (- d.1) (- d.2) stone = Ok kn →
  line_total (board b) row_idx col_idx d stone n → n = 1 + kp + kn.
Proof.
  intros Hsq Hr Hc Hd Hkp Hkn Htot.
  eapply line_total_unique; [done |].
  exists kp, kn. split; [by apply count_is_run |].
  split; [apply count_is_run; [done .. | by apply unit_dir_opp | done] |]. done.
Qed.

(** C3. When several directions have a line of five or more through the
    queried cell, [get_winning_line] reports the line of the first of them in
    the order of [directions]: horizontal, vertical, diagonal [\], diagonal
    [/].  Whatever comes after that direction in the list has no influence. *)
Theorem get_winning_line_first_direction (b : GomokuBoard) (col : string) (row : Z)
    (stone : string) (row_idx col_idx : Z) (l1 l2 : list (Z * Z)) (d : Z * Z)
    (kp kn : Z) :
  square (board b) = true →
  valid_coord col row →
  _coord_to_indices col row = Ok (row_idx, col_idx) →
  directions = l1 ++ d :: l2 →
  (∀ d' n, d' ∈ l1 → line_total (board b) row_idx col_idx d' stone n → n < 5) →
  is_run (board b) row_idx col_idx d.1 d.2 stone kp →
  is_run (board b) row_idx col_idx (- d.1) (- d.2) stone kn →
  5 ≤ 1 + kp + kn →
  directions = [(0, 1); (1, 0); (1, 1); (1, -1)] ∧
  get_winning_line b col row stone =
  Ok (Some (take 5 (line_of col row row_idx col_idx d kp kn))).
Proof.
  intros Hsq Hv Hidx Hds Hl1 Hp Hn H5. split; [done |].
  destruct (valid_indices col row Hv) as (ci & Hidx' & Hr & Hc & _).
  rewrite Hidx in Hidx'. injection Hidx' as -> ->.
  assert (d ∈ directions) as Hd by (rewrite Hds; set_solver).
  destruct (check_win_on_board b col row stone _ _ Hsq Hv Hidx) as (w & Hcw & Hiff).
  assert (w = true) as ->.
  { apply Hiff. exists d, (1 + kp + kn). split; [done |]. split; [| done].
    by exists kp, kn. }
  unfold get_winning_line. rewrite Hcw, ret_bind. simpl negb. cbv iota.
  rewrite Hidx, ret_bind, Hds.
  apply get_winning_line_loop_first; try done.
  intros d' Hd'. apply directions_unit. rewrite Hds. set_solver.
Qed.

Lemma get_winning_line_first_direction_witness :
  get_winning_line column_and_diagonal "H" 8 "B"
  = Ok (Some [("H", 8); ("H", 7); ("H", 6); ("H", 5); ("H", 4)]) ∧
  (∃ kp kn,
      is_run (board column_and_diagonal) 7 7 1 (-1) "B" kp ∧
      is_run (board column_and_diagonal) 7 7 (-1) 1 "B" kn ∧ 5 ≤ 1 + kp + kn) ∧
  directions = [(0, 1); (1, 0); (1, 1); (1, -1)] ∧
  get_winning_line column_and_diagonal "H" 8 "B" =
  Ok (Some (take 5 (line_of "H" 8 7 7 (1, 0) 4 0))).
Proof.
  assert (square (board column_and_diagonal) = true) as Hsq by reflexivity.
  assert (valid_coord "H" 8) as Hv by (apply validate_valid; reflexivity).
  assert (∀ dr dc k, unit_dir dr dc →
            _count_consecutive column_and_diagonal 7 7 dr dc "B" = Ok k →
            is_run (board column_and_diagonal) 7 7 dr dc "B" k) as Hrun.
  { intros dr dc k Hd Hk.
    apply count_is_run; [exact Hsq | unfold size, BOARD_SIZE; lia
                        | unfold size, BOARD_SIZE; lia | exact Hd | exact Hk]. }
  split; [reflexivity |]. split.
  { exists 4, 0. split; [| split; [| lia]].
    - apply Hrun; [unfold unit_dir; lia | reflexivity].
    - apply Hrun; [unfold unit_dir; lia | reflexivity]. }
  apply (get_winning_line_first_direction column_and_diagonal "H" 8 "B" 7 7
           [(0, 1)] [(1, 1); (1, -1)] (1, 0) 4 0).
  - exact Hsq.
  - exact Hv.
  - reflexivity.
  - reflexivity.
  - intros d' n Hd' Htot. apply list_elem_of_singleton in Hd'. subst d'.
    assert (n = 1 + 0 + 0) as ->; [| lia].
    apply (count_line_total column_and_diagonal 7 7 (0, 1) "B" 0 0 n);
      [exact Hsq | unfold size, BOARD_SIZE; lia | unfold size, BOARD_SIZE; lia
      | unfold unit_dir; simpl; lia | reflexivity | reflexivity | exact Htot].
  - apply Hrun; [unfold unit_dir; simpl; lia | reflexivity].
  - apply Hrun; [unfold unit_dir; simpl; lia | reflexivity].
  - lia.
Defined.

(** The cells a scan looks at are never the cell it starts beside. *)
Lemma is_run_grid_set (g : list (list string)) (row col dr dc : Z)
    (stone v : string) (k : Z) :
  unit_dir dr dc → 0 ≤ row → 0 ≤ col →
  is_run (grid_set g row col v) row col dr dc stone k ↔ is_run g row col dr dc stone k.
Proof.
  intros (Hdr & Hdc & Hnz) Hr Hc.
  assert (∀ i, 1 ≤ i →
            cell_at (grid_set g row col v) (row + i * dr) (col + i * dc)
            = cell_at g (row + i * dr) (col + i * dc)) as Hsame.
  { intros i Hi. apply cell_at_grid_set_ne; [done | done |].
    intros [= Hrow Hcol]. destruct Hnz as [Hnz | Hnz]; apply Hnz; nia. }
  unfold is_run. split; intros (Hk & Hcells & Hnext); (split; [done |]); split.
  - intros i Hi. rewrite <- Hsame by lia. by apply Hcells.
  - by rewrite <- Hsame by lia.
  - intros i Hi. rewrite Hsame by lia. by apply Hcells.
  - by rewrite Hsame by lia.
Qed.

(** C10. [check_win] does not read the queried cell: its result is the same
    whatever that cell holds, and it returns [True] as soon as the runs of
    [stone] on the two sides of the cell along some direction add up to 4,
    be the cell itself empty or held by the other player. *)
Theorem check_win_ignores_queried_cell (b : GomokuBoard) (col : string) (row : Z)
    (stone : string) :
  square (board b) = true →
  valid_coord col row →
  ∃ row_idx col_idx,
    _coord_to_indices col row = Ok (row_idx, col_idx) ∧
    (∀ v,
       check_win {| board := grid_set (board b) row_idx col_idx v;
                    move_history := move_history b |} col row stone
       = check_win b col row stone) ∧
    (∀ d kp kn,
       d ∈ directions →
       is_run (board b) row_idx col_idx d.1 d.2 stone kp →
       is_run (board b) row_idx col_idx (- d.1) (- d.2) stone kn →
       4 ≤ kp + kn →
       check_win b col row stone = Ok true).
Proof.
  intros Hsq Hv.
  destruct (valid_indices col row Hv) as (ci & Hidx & Hr & Hc & _).
  destruct (check_win_on_board b col row stone _ _ Hsq Hv Hidx) as (w & Hcw & Hiff).
  exists (size - row), ci. split; [done |]. split.
  - intros v. set (b' := {| board := grid_set (board b) (size - row) ci v;
                            move_history := move_history b |}).
    assert (square (board b') = true) as Hsq' by (by apply grid_set_square).
    destruct (check_win_on_board b' col row stone _ _ Hsq' Hv Hidx)
      as (w' & Hcw' & Hiff').
    rewrite Hcw, Hcw'. f_equal.
    assert (w' = true ↔ w = true) as Hww; [| destruct w, w'; naive_solver].
    rewrite Hiff, Hiff'. simpl board.
    split; intros (d & n & Hd & (kp & kn & Hp & Hn & ->) & H5);
      exists d, (1 + kp + kn); (split; [done |]); (split; [| done]);
      exists kp, kn; pose proof (directions_unit d Hd) as Hu;
      pose proof (unit_dir_opp _ _ Hu) as Hu'.
    + rewrite is_run_grid_set in Hp, Hn by (done || lia). done.
    + rewrite !is_run_grid_set by (done || lia). done.
  - intros d kp kn Hd Hp Hn H4. rewrite Hcw. f_equal. apply Hiff.
    exists d, (1 + kp + kn). split; [done |]. split; [by exists kp, kn | lia].
Qed.

Lemma check_win_ignores_queried_cell_witness :
  get_stone four_in_row "H" 8 = Ok None ∧
  check_win four_in_row "H" 8 "B" = Ok true ∧
  ∃ row_idx col_idx,
    _coord_to_indices "H" 8 = Ok (row_idx, col_idx) ∧
    (∀ v,
       check_win {| board := grid_set (board four_in_row) row_idx col_idx v;
                    move_history := move_history four_in_row |} "H" 8 "B"
       = check_win four_in_row "H" 8 "B") ∧
    (∀ d kp kn,
       d ∈ directions →
       is_run (board four_in_row) row_idx col_idx d.1 d.2 "B" kp →
       is_run (board four_in_row) row_idx col_idx (- d.1) (- d.2) "B" kn →
       4 ≤ kp + kn →
       check_win four_in_row "H" 8 "B" = Ok true).
Proof.
  split; [reflexivity |]. split; [reflexivity |].
  apply (check_win_ignores_queried_cell four_in_row "H" 8 "B").
  - reflexivity.
  - apply validate_valid. reflexivity.
Defined.

(** * The board *)

Lemma is_stone_spec (stone : string) :
  is_stone stone = true ↔ stone = BLACK ∨ stone = WHITE.
Proof. unfold is_stone. by rewrite orb_true_iff, !String.eqb_eq. Qed.

Lemma is_stone_not_empty (stone : string) : is_stone stone = true → stone ≠ EMPTY.
Proof. intros [-> | ->]%is_stone_spec; done. Qed.

(** What [is_valid_move] returns on a coordinate of the board. *)
Lemma is_valid_move_cell (b : GomokuBoard) (col : string) (row row_idx col_idx : Z)
    (s : string) :
  valid_coord col row →
  _coord_to_indices col row = Ok (row_idx, col_idx) →
  cell_at (board b) row_idx col_idx = Some s →
  is_valid_move b col row =
  if String.eqb s EMPTY then Ok (true, MsgNone) else Ok (false, MsgOccupied col row).
Proof.
  intros Hv%validate_valid Hidx Hcell. unfold is_valid_move.
  rewrite Hv, Hidx. simpl negb. cbv iota. rewrite ret_bind.
  rewrite (board_at_cell _ _ _ _ Hcell), ret_bind.
  by destruct (String.eqb s EMPTY).
Qed.

(** What [place_stone] returns and does, case by case. *)
Lemma place_stone_spec (b : GomokuBoard) (col : string) (row : Z) (stone : string) :
  square (board b) = true →
  (¬ valid_coord col row → place_stone b col row stone = Ok (false, b)) ∧
  (valid_coord col row →
   ∃ row_idx col_idx s,
     _coord_to_indices col row = Ok (row_idx, col_idx) ∧
     0 ≤ row_idx < size ∧ 0 ≤ col_idx < size ∧
     cell_at (board b) row_idx col_idx = Some s ∧
     place_stone b col row stone =
     if String.eqb s EMPTY && is_stone stone then
       Ok (true, {| board := grid_set (board b) row_idx col_idx stone;
                    move_history := move_history b ++ [(col, row, stone)] |})
     else Ok (false, b)).
Proof.
  intros Hsq. split.
  - intros Hv%validate_invalid. unfold place_stone, is_valid_move. by rewrite Hv.
  - intros Hv. destruct (valid_indices col row Hv) as (ci & Hidx & Hr & Hc & _).
    destruct (cell_at_total (board b) _ _ Hsq Hr Hc) as [s Hs].
    exists (size - row), ci, s. do 4 (split; [done |]).
    unfold place_stone.
    rewrite (is_valid_move_cell b col row _ _ s Hv Hidx Hs).
    destruct (String.eqb s EMPTY); [| done]. rewrite ret_bind. simpl negb. cbv iota.
    destruct (is_stone stone); [| done]. simpl negb. cbv iota.
    rewrite Hidx, ret_bind, (board_at_cell _ _ _ _ Hs), ret_bind.
    by rewrite board_set_Ok by done.
Qed.

(** C5. A call of [place_stone] that fails (coordinate off the board, cell
    taken, or a stone other than ['B'] and ['W']) returns [False], raises
    nothing and leaves the grid and the move history as they were.  A call
    that succeeds sets that one cell to the stone and appends the one record
    [(col, row, stone)] to the history. *)
Theorem place_stone_correct (b : GomokuBoard) (col : string) (row : Z) (stone : string) :
  square (board b) = true →
  (¬ valid_coord col row → place_stone b col row stone = Ok (false, b)) ∧
  (valid_coord col row →
   ∃ row_idx col_idx s,
     _coord_to_indices col row = Ok (row_idx, col_idx) ∧
     cell_at (board b) row_idx col_idx = Some s ∧
     (s ≠ EMPTY ∨ ¬ (stone = BLACK ∨ stone = WHITE) →
      place_stone b col row stone = Ok (false, b)) ∧
     (s = EMPTY → stone = BLACK ∨ stone = WHITE →
      ∃ b', place_stone b col row stone = Ok (true, b') ∧
        cell_at (board b') row_idx col_idx = Some stone ∧
        (∀ r c, (r, c) ≠ (row_idx, col_idx) →
                cell_at (board b') r c = cell_at (board b) r c) ∧
        move_history b' = move_history b ++ [(col, row, stone)])).
Proof.
  intros Hsq. destruct (place_stone_spec b col row stone Hsq) as [Hout Hin].
  split; [done |]. intros Hv.
  destruct (Hin Hv) as (ri & ci & s & Hidx & Hr & Hc & Hs & Hplace).
  exists ri, ci, s. do 2 (split; [done |]). split.
  - intros Hfail. rewrite Hplace.
    destruct (String.eqb_spec s EMPTY) as [-> | Hne]; [| done].
    destruct (is_stone stone) eqn:Hst; [| done].
    apply is_stone_spec in Hst. naive_solver.
  - intros -> Hst%is_stone_spec. rewrite Hplace, Hst. simpl.
    eexists. split; [done |]. simpl. split; [by apply cell_at_grid_set_eq |].
    split; [| done].
    intros r c Hne. apply cell_at_grid_set_ne; [lia | lia | done].
Qed.

Lemma place_stone_correct_witness :
  place_stone init "H" 8 "B" = Ok (true, played [("H", 8, "B")]) ∧
  place_stone (played [("H", 8, "B")]) "H" 8 "W" = Ok (false, played [("H", 8, "B")]) ∧
  (¬ valid_coord "P" 8 → place_stone init "P" 8 "B" = Ok (false, init)) ∧
  (valid_coord "P" 8 →
   ∃ row_idx col_idx s,
     _coord_to_indices "P" 8 = Ok (row_idx, col_idx) ∧
     cell_at (board init) row_idx col_idx = Some s ∧
     (s ≠ EMPTY ∨ ¬ ("B" = BLACK ∨ "B" = WHITE) →
      place_stone init "P" 8 "B" = Ok (false, init)) ∧
     (s = EMPTY → "B" = BLACK ∨ "B" = WHITE →
      ∃ b', place_stone init "P" 8 "B" = Ok (true, b') ∧
        cell_at (board b') row_idx col_idx = Some "B" ∧
        (∀ r c, (r, c) ≠ (row_idx, col_idx) →
                cell_at (board b') r c = cell_at (board init) r c) ∧
        move_history b' = move_history init ++ [("P", 8, "B")])).
Proof.
  split; [reflexivity |]. split; [reflexivity |].
  apply (place_stone_correct init "P" 8 "B"). reflexivity.
Defined.

(** What [get_stone] returns on a coordinate of the board. *)
Lemma get_stone_cell (b : GomokuBoard) (col : string) (row row_idx col_idx : Z)
    (s : string) :
  valid_coord col row →
  _coord_to_indices col row = Ok (row_idx, col_idx) →
  cell_at (board b) row_idx col_idx = Some s →
  get_stone b col row = Ok (if String.eqb s EMPTY then None else Some s).
Proof.
  intros Hv%validate_valid Hidx Hcell. unfold get_stone.
  rewrite Hv, Hidx. simpl negb. cbv iota. rewrite ret_bind.
  rewrite (board_at_cell _ _ _ _ Hcell), ret_bind.
  by destruct (String.eqb s EMPTY).
Qed.

(** C4, as the code has it.  [get_stone] returns the stone of an occupied
    cell, and [None] both for an empty cell of the board and for a coordinate
    off the board: the two are not told apart by the value returned. *)
Theorem get_stone_correct (b : GomokuBoard) (col : string) (row : Z) :
  square (board b) = true →
  (¬ valid_coord col row → get_stone b col row = Ok None) ∧
  (valid_coord col row →
   ∃ row_idx col_idx s,
     _coord_to_indices col row = Ok (row_idx, col_idx) ∧
     cell_at (board b) row_idx col_idx = Some s ∧
     (s = EMPTY → get_stone b col row = Ok None) ∧
     (s ≠ EMPTY → get_stone b col row = Ok (Some s))).
Proof.
  intros Hsq. split.
  - intros Hv%validate_invalid. unfold get_stone. by rewrite Hv.
  - intros Hv. destruct (valid_indices col row Hv) as (ci & Hidx & Hr & Hc & _).
    destruct (cell_at_total (board b) _ _ Hsq Hr Hc) as [s Hs].
    exists (size - row), ci, s. do 2 (split; [done |]).
    rewrite (get_stone_cell b col row _ _ s Hv Hidx Hs).
    destruct (String.eqb_spec s EMPTY); split; done.
Qed.

Lemma get_stone_correct_witness :
  get_stone five_in_column "H" 8 = Ok (Some "B") ∧
  (¬ valid_coord "H" 8 → get_stone five_in_column "H" 8 = Ok None) ∧
  (valid_coord "H" 8 →
   ∃ row_idx col_idx s,
     _coord_to_indices "H" 8 = Ok (row_idx, col_idx) ∧
     cell_at (board five_in_column) row_idx col_idx = Some s ∧
     (s = EMPTY → get_stone five_in_column "H" 8 = Ok None) ∧
     (s ≠ EMPTY → get_stone five_in_column "H" 8 = Ok (Some s))).
Proof.
  split; [reflexivity |].
  apply (get_stone_correct five_in_column "H" 8). reflexivity.
Defined.

(** C4, as the claim has it, fails: on a new board A1 is an empty cell of the
    board and P1 is off the board, and [get_stone] returns the same value,
    [None], for both. *)
Lemma get_stone_empty_like_invalid :
  valid_coord "A" 1 ∧ cell_at (board init) 14 0 = Some EMPTY ∧
  ¬ valid_coord "P" 1 ∧
  ¬ (get_stone init "A" 1 ≠ get_stone init "P" 1).
Proof.
  split; [apply validate_valid; reflexivity |]. split; [reflexivity |].
  split; [apply validate_invalid; reflexivity |].
  intros Hne. by apply Hne.
Qed.

(** C8. On a coordinate of the board whose cell is empty, and with one of the
    two stones, [place_stone] succeeds and [get_stone] then returns that
    stone for the same coordinate. *)
Theorem place_then_get (b : GomokuBoard) (col : string) (row : Z) (stone : string)
    (row_idx col_idx : Z) :
  square (board b) = true →
  valid_coord col row →
  _coord_to_indices col row = Ok (row_idx, col_idx) →
  cell_at (board b) row_idx col_idx = Some EMPTY →
  stone = BLACK ∨ stone = WHITE →
  ∃ b', place_stone b col row stone = Ok (true, b') ∧
        get_stone b' col row = Ok (Some stone).
Proof.
  intros Hsq Hv Hidx Hcell Hst.
  destruct (proj2 (place_stone_spec b col row stone Hsq) Hv)
    as (ri & ci & s & Hidx' & Hr & Hc & Hs & Hplace).
  rewrite Hidx in Hidx'. injection Hidx' as <- <-.
  rewrite Hcell in Hs. injection Hs as <-.
  apply is_stone_spec in Hst. rewrite Hplace, Hst. simpl.
  eexists. split; [done |].
  set (b' := {| board := grid_set (board b) row_idx col_idx stone;
                move_history := move_history b ++ [(col, row, stone)] |}).
  rewrite (get_stone_cell b' col row row_idx col_idx stone Hv Hidx)
    by (by apply cell_at_grid_set_eq).
  destruct (String.eqb_spec stone EMPTY) as [Hempty | _]; [| done].
  by apply is_stone_not_empty in Hst.
Qed.

Lemma place_then_get_witness :
  ∃ b', place_stone four_in_row "H" 8 "W" = Ok (true, b') ∧
        get_stone b' "H" 8 = Ok (Some "W").
Proof.
  apply (place_then_get four_in_row "H" 8 "W" 7 7).
  - reflexivity.
  - apply validate_valid. reflexivity.
  - reflexivity.
  - reflexivity.
  - right. reflexivity.
Defined.

(** ** A full board *)

Lemma is_board_full_row_spec (row : list string) :
  is_board_full_row row = true ↔ ∀ j s, row !! j = Some s → s ≠ EMPTY.
Proof.
  induction row as [| cell row IH]; simpl.
  - split; [| done]. intros _ j s Hj. by rewrite lookup_nil in Hj.
  - destruct (String.eqb_spec cell EMPTY) as [-> | Hne].
    + split; [done |]. intros H. exfalso. by apply (H 0%nat EMPTY).
    + rewrite IH. split.
      * intros H [| j] s Hj; simpl in Hj; [by injection Hj as <- | by eapply H].
      * intros H j s Hj. by apply (H (S j)).
Qed.

Lemma is_board_full_rows_spec (g : list (list string)) :
  is_board_full_rows g = true ↔
  ∀ i r j s, g !! i = Some r → r !! j = Some s → s ≠ EMPTY.
Proof.
  induction g as [| row g IH]; simpl.
  - split; [| done]. intros _ i r j s Hi. by rewrite lookup_nil in Hi.
  - destruct (is_board_full_row row) eqn:Hrow.
    + rewrite IH. rewrite is_board_full_row_spec in Hrow. split.
      * intros H [| i] r j s Hi Hj; simpl in Hi; [| by eapply H].
        injection Hi as <-. by eapply Hrow.
      * intros H i r j s Hi Hj. by apply (H (S i) r j s).
    + split; [done |]. intros H.
      assert (is_board_full_row row = true); [| congruence].
      apply is_board_full_row_spec. intros j s Hj. by apply (H 0%nat row j s).
Qed.

(** C9. [is_board_full] returns [True] exactly when each of the [size] by
    [size] cells holds something other than the empty mark, and so [False] as
    soon as one cell is empty. *)
Theorem is_board_full_correct (b : GomokuBoard) :
  square (board b) = true →
  (is_board_full b = true ↔
   ∀ row_idx col_idx, 0 ≤ row_idx < size → 0 ≤ col_idx < size →
     ∃ s, cell_at (board b) row_idx col_idx = Some s ∧ s ≠ EMPTY) ∧
  ((∃ row_idx col_idx, cell_at (board b) row_idx col_idx = Some EMPTY) →
   is_board_full b = false).
Proof.
  intros Hsq.
  assert (is_board_full b = true ↔
          ∀ row_idx col_idx, 0 ≤ row_idx < size → 0 ≤ col_idx < size →
            ∃ s, cell_at (board b) row_idx col_idx = Some s ∧ s ≠ EMPTY) as Hiff.
  { unfold is_board_full. rewrite is_board_full_rows_spec. split.
    - intros H ri ci Hr Hc.
      destruct (cell_at_total (board b) ri ci Hsq Hr Hc) as [s Hs].
      exists s. split; [done |].
      apply cell_at_Some in Hs as (_ & _ & r & Hgr & Hrc). by eapply H.
    - intros H i r j s Hi Hj.
      pose proof Hsq as [Hlen Hrows]%square_spec.
      pose proof (lookup_lt_Some _ _ _ Hi) as Hilt.
      pose proof (lookup_lt_Some _ _ _ Hj) as Hjlt.
      rewrite (Hrows _ _ Hi) in Hjlt.
      destruct (H (Z.of_nat i) (Z.of_nat j)) as (s' & Hs' & Hne); [lia | lia |].
      apply cell_at_Some in Hs' as (_ & _ & r' & Hgr & Hrc).
      rewrite Nat2Z.id in Hgr, Hrc. congruence. }
  split; [done |].
  intros (ri & ci & Hcell). destruct (is_board_full b) eqn:Hfull; [| done].
  exfalso. pose proof (cell_at_in_range _ _ _ _ Hcell) as [Hr Hc].
  destruct (proj1 Hiff eq_refl ri ci Hr Hc) as (s & Hs & Hne). congruence.
Qed.

Lemma is_board_full_correct_witness :
  is_board_full all_black = true ∧ is_board_full four_in_row = false ∧
  (is_board_full all_black = true ↔
   ∀ row_idx col_idx, 0 ≤ row_idx < size → 0 ≤ col_idx < size →
     ∃ s, cell_at (board all_black) row_idx col_idx = Some s ∧ s ≠ EMPTY) ∧
  ((∃ row_idx col_idx, cell_at (board all_black) row_idx col_idx = Some EMPTY) →
   is_board_full all_black = false).
Proof.
  split; [reflexivity |]. split; [reflexivity |].
  apply (is_board_full_correct all_black). reflexivity.
Defined.

(** ** Sequences of moves *)

Lemma length_filter_insert {A : Type} (P : A → Prop) `{∀ x, Decision (P x)}
    (l : list A) (i : nat) (x y : A) :
  l !! i = Some y → ¬ P y → P x →
  length (filter P (<[i := x]> l)) = S (length (filter P l)).
Proof.
  intros Hl Hy Hx. pose proof (take_drop_middle l i y Hl) as Hsplit.
  rewrite insert_take_drop by (by eapply lookup_lt_Some).
  set (pre := take i l) in *. set (post := drop (S i) l) in *.
  rewrite <- Hsplit, !filter_app, !length_app.
  rewrite filter_cons_True, filter_cons_False by done. simpl. lia.
Qed.

(** A stone put on an empty cell is one more stone on the board. *)
Lemma count_stones_grid_set (g : list (list string)) (row col : Z) (stone : string) :
  cell_at g row col = Some EMPTY → stone ≠ EMPTY →
  count_stones (grid_set g row col stone) = S (count_stones g).
Proof.
  intros (_ & _ & r & Hg & Hr)%cell_at_Some Hst.
  unfold grid_set, count_stones. rewrite Hg.
  pose proof (take_drop_middle g _ r Hg) as Hsplit.
  rewrite insert_take_drop by (by eapply lookup_lt_Some).
  set (pre := take (Z.to_nat row) g) in *.
  set (post := drop (S (Z.to_nat row)) g) in *.
  rewrite <- Hsplit, !concat_app, !concat_cons, !filter_app, !length_app.
  rewrite (length_filter_insert _ r _ stone EMPTY) by (done || by intros []).
  lia.
Qed.

(** One call of [place_stone] on a well-shaped board: it returns, the board
    keeps its shape, no stone is lost or changed, the history only grows at
    its end, and the number of stones stays equal to the length of the
    history. *)
Lemma place_stone_step (b : GomokuBoard) (col : string) (row : Z) (stone : string) :
  square (board b) = true →
  ∃ ok b', place_stone b col row stone = Ok (ok, b') ∧
    square (board b') = true ∧
    (∀ r c s, cell_at (board b) r c = Some s → s ≠ EMPTY →
              cell_at (board b') r c = Some s) ∧
    move_history b `prefix_of` move_history b' ∧
    (count_stones (board b) = length (move_history b) →
     count_stones (board b') = length (move_history b')).
Proof.
  intros Hsq. destruct (place_stone_spec b col row stone Hsq) as [Hout Hin].
  destruct (decide (valid_coord col row)) as [Hv | Hnv].
  - destruct (Hin Hv) as (ri & ci & s & Hidx & Hr & Hc & Hs & Hplace).
    destruct (String.eqb_spec s EMPTY) as [-> | Hne];
      [destruct (is_stone stone) eqn:Hst |]; simpl in Hplace.
    + eexists true, _. split; [done |]. simpl.
      split; [by apply grid_set_square |]. split; [| split].
      * intros r c s Hcell Hs'.
        rewrite cell_at_grid_set_ne; [done | lia | lia |].
        intros [= -> ->]. congruence.
      * by apply prefix_app_r.
      * intros Hcount. rewrite length_app. simpl.
        rewrite count_stones_grid_set; [lia | done | by apply is_stone_not_empty].
    + exists false, b. by repeat split.
    + exists false, b. by repeat split.
  - exists false, b. split; [by apply Hout |]. by repeat split.
Qed.

Lemma play_steps (ms : list move) (b : GomokuBoard) :
  square (board b) = true →
  ∃ b', play b ms = Ok b' ∧
    square (board b') = true ∧
    (∀ r c s, cell_at (board b) r c = Some s → s ≠ EMPTY →
              cell_at (board b') r c = Some s) ∧
    move_history b `prefix_of` move_history b' ∧
    (count_stones (board b) = length (move_history b) →
     count_stones (board b') = length (move_history b')).
Proof.
  revert b. induction ms as [| [[col row] stone] ms IH]; intros b Hsq.
  - exists b. by repeat split.
  - destruct (place_stone_step b col row stone Hsq)
      as (ok & b1 & Hplace & Hsq1 & Hcells1 & Hpre1 & Hcount1).
    destruct (IH b1 Hsq1) as (b2 & Hplay & Hsq2 & Hcells2 & Hpre2 & Hcount2).
    exists b2. simpl. rewrite Hplace, ret_bind. split; [done |].
    split; [done |]. split; [| split].
    + intros r c s Hcell Hs. apply Hcells2; [| done]. by apply Hcells1.
    + by etrans.
    + auto.
Qed.

Lemma play_app (ms1 ms2 : list move) (b b1 : GomokuBoard) :
  play b ms1 = Ok b1 → play b (ms1 ++ ms2) = play b1 ms2.
Proof.
  revert b. induction ms1 as [| [[col row] stone] ms1 IH]; intros b; simpl.
  - by intros [= ->].
  - destruct (place_stone b col row stone) as [[ok b'] | |]; simpl; [| done | done].
    apply IH.
Qed.

Lemma init_count : count_stones (board init) = length (move_history init).
Proof. reflexivity. Qed.

(** C6. Take any calls of [place_stone] made on a new board, and any further
    calls after them.  All the calls return.  A cell that held a stone after
    the first calls holds the same stone after the further ones; the history
    after the first calls is a prefix of the history after the further ones;
    and the number of cells that hold a stone is the length of the history. *)
Theorem play_invariants (ms1 ms2 : list move) :
  ∃ b1 b2,
    play init ms1 = Ok b1 ∧ play b1 ms2 = Ok b2 ∧
    play init (ms1 ++ ms2) = Ok b2 ∧
    (∀ r c s, cell_at (board b1) r c = Some s → s ≠ EMPTY →
              cell_at (board b2) r c = Some s) ∧
    move_history b1 `prefix_of` move_history b2 ∧
    count_stones (board b1) = length (move_history b1) ∧
    count_stones (board b2) = length (move_history b2).
Proof.
  destruct (play_steps ms1 init eq_refl) as (b1 & Hplay1 & Hsq1 & _ & _ & Hcount1).
  destruct (play_steps ms2 b1 Hsq1) as (b2 & Hplay2 & _ & Hcells & Hpre & Hcount2).
  exists b1, b2. split; [done |]. split; [done |].
  split; [by rewrite (play_app _ _ _ _ Hplay1) |].
  split; [done |]. split; [done |].
  pose proof (Hcount1 init_count). auto.
Qed.

(** * More on the board *)

(** A call of [place_stone] that returns either changed nothing or put a
    legal stone on an empty cell of the board. *)
Lemma place_stone_inv (b b' : GomokuBoard) (col : string) (row : Z) (stone : string)
    (ok : bool) :
  square (board b) = true →
  place_stone b col row stone = Ok (ok, b') →
  (ok = false ∧ b' = b) ∨
  (ok = true ∧ valid_coord col row ∧ is_stone stone = true ∧
   ∃ row_idx col_idx,
     _coord_to_indices col row = Ok (row_idx, col_idx) ∧
     0 ≤ row_idx < size ∧ 0 ≤ col_idx < size ∧
     cell_at (board b) row_idx col_idx = Some EMPTY ∧
     b' = {| board := grid_set (board b) row_idx col_idx stone;
             move_history := move_history b ++ [(col, row, stone)] |}).
Proof.
  intros Hsq Hplace. destruct (place_stone_spec b col row stone Hsq) as [Hout Hin].
  destruct (decide (valid_coord col row)) as [Hv | Hnv].
  - destruct (Hin Hv) as (ri & ci & s & Hidx & Hr & Hc & Hs & Heq).
    rewrite Heq in Hplace.
    destruct (String.eqb_spec s EMPTY) as [Hempty | Hne];
      [destruct (is_stone stone) eqn:Hst |]; simpl in Hplace;
      injection Hplace as <- <-; [right | by left | by left].
    subst s. split; [done |]. split; [done |]. split; [done |]. by exists ri, ci.
  - rewrite (Hout Hnv) in Hplace. injection Hplace as <- <-. by left.
Qed.

(** A property of the new board that every call of [place_stone] on a
    well-shaped board keeps holds after any sequence of calls. *)
Lemma play_preserves (P : GomokuBoard → Prop) :
  (∀ b col row stone ok b',
     square (board b) = true → P b →
     place_stone b col row stone = Ok (ok, b') → P b') →
  ∀ ms b b', square (board b) = true → P b → play b ms = Ok b' → P b'.
Proof.
  intros Hstep ms. induction ms as [| [[col row] stone] ms IH]; intros b b' Hsq HP; simpl.
  - by intros [= <-].
  - destruct (place_stone_step b col row stone Hsq) as (ok & b1 & Hplace & Hsq1 & _).
    rewrite Hplace, ret_bind. intros Hplay.
    apply (IH b1 b' Hsq1); [| done]. exact (Hstep b col row stone ok b1 Hsq HP Hplace).
Qed.

Lemma play_square (ms : list move) (b : GomokuBoard) :
  play init ms = Ok b → square (board b) = true.
Proof.
  intros Hplay. destruct (play_steps ms init eq_refl) as (b' & Hplay' & Hsq & _).
  congruence.
Qed.

(** X1. [is_valid_move] never raises on a well-shaped board.  It answers
    [False] with the message about coordinates for a coordinate off the
    board, [False] with the message about an occupied position for a cell
    that is not empty, and [True] with no message for an empty cell. *)
Theorem is_valid_move_correct (b : GomokuBoard) (col : string) (row : Z) :
  square (board b) = true →
  (¬ valid_coord col row →
   is_valid_move b col row = Ok (false, MsgInvalidCoordinates col row)) ∧
  (valid_coord col row →
   ∃ row_idx col_idx s,
     _coord_to_indices col row = Ok (row_idx, col_idx) ∧
     cell_at (board b) row_idx col_idx = Some s ∧
     (s = EMPTY → is_valid_move b col row = Ok (true, MsgNone)) ∧
     (s ≠ EMPTY → is_valid_move b col row = Ok (false, MsgOccupied col row))).
Proof.
  intros Hsq. split.
  - intros Hv%validate_invalid. unfold is_valid_move. by rewrite Hv.
  - intros Hv. destruct (valid_indices col row Hv) as (ci & Hidx & Hr & Hc & _).
    destruct (cell_at_total (board b) _ _ Hsq Hr Hc) as [s Hs].
    exists (size - row), ci, s. do 2 (split; [done |]).
    rewrite (is_valid_move_cell b col row _ _ s Hv Hidx Hs).
    destruct (String.eqb_spec s EMPTY); split; done.
Qed.

Lemma is_valid_move_correct_witness :
  is_valid_move four_in_row "G" 8 = Ok (false, MsgOccupied "G" 8) ∧
  is_valid_move four_in_row "H" 0 = Ok (false, MsgInvalidCoordinates "H" 0) ∧
  (valid_coord "H" 8 →
   ∃ row_idx col_idx s,
     _coord_to_indices "H" 8 = Ok (row_idx, col_idx) ∧
     cell_at (board four_in_row) row_idx col_idx = Some s ∧
     (s = EMPTY → is_valid_move four_in_row "H" 8 = Ok (true, MsgNone)) ∧
     (s ≠ EMPTY → is_valid_move four_in_row "H" 8 = Ok (false, MsgOccupied "H" 8))).
Proof.
  split; [reflexivity |]. split; [reflexivity |].
  apply (is_valid_move_correct four_in_row "H" 8). reflexivity.
Defined.

(** X2. With a black or a white stone, [place_stone] accepts exactly the
    moves that [is_valid_move] accepts: the two calls return the same flag. *)
Theorem place_stone_agrees_with_is_valid_move (b : GomokuBoard) (col : string)
    (row : Z) (stone : string) :
  square (board b) = true →
  stone = BLACK ∨ stone = WHITE →
  ∃ ok msg b',
    is_valid_move b col row = Ok (ok, msg) ∧
    place_stone b col row stone = Ok (ok, b').
Proof.
  intros Hsq Hst%is_stone_spec. unfold place_stone.
  destruct (is_valid_move_correct b col row Hsq) as [Hout Hin].
  destruct (decide (valid_coord col row)) as [Hv | Hnv].
  - destruct (Hin Hv) as (ri & ci & s & Hidx & Hs & Hempty & Hocc).
    destruct (decide (s = EMPTY)) as [-> | Hne].
    + pose proof (cell_at_in_range _ _ _ _ Hs) as [Hr Hc].
      rewrite (Hempty eq_refl), ret_bind, Hst. simpl negb. cbv iota.
      rewrite Hidx, ret_bind, (board_at_cell _ _ _ _ Hs), ret_bind.
      rewrite board_set_Ok by done. rewrite ret_bind. by eexists true, _, _.
    + rewrite (Hocc Hne), ret_bind. by eexists false, _, _.
  - rewrite (Hout Hnv), ret_bind. by eexists false, _, _.
Qed.

Lemma place_stone_agrees_with_is_valid_move_witness :
  ∃ ok msg b',
    is_valid_move four_in_row "G" 8 = Ok (ok, msg) ∧
    place_stone four_in_row "G" 8 "W" = Ok (ok, b').
Proof.
  apply (place_stone_agrees_with_is_valid_move four_in_row "G" 8 "W").
  - reflexivity.
  - right. reflexivity.
Defined.

(** X3. After a call of [place_stone] that succeeds, [get_last_move] is the
    move just made; after one that fails it is what it was before. *)
Theorem get_last_move_after_place (b b' : GomokuBoard) (col : string) (row : Z)
    (stone : string) (ok : bool) :
  square (board b) = true →
  place_stone b col row stone = Ok (ok, b') →
  get_last_move b' = if ok then Some (col, row, stone) else get_last_move b.
Proof.
  intros Hsq [[-> ->] | (-> & _ & _ & ri & ci & _ & _ & _ & _ & ->)]%place_stone_inv;
    [done | | done].
  unfold get_last_move. simpl. by rewrite last_snoc.
Qed.

Lemma get_last_move_after_place_witness :
  get_last_move init = None ∧
  get_last_move (played [("H", 8, "B")]) = Some ("H", 8, "B").
Proof.
  split; [reflexivity |].
  apply (get_last_move_after_place init (played [("H", 8, "B")]) "H" 8 "B" true);
    reflexivity.
Defined.

(** ** History and grid *)

Lemma coord_to_indices_inj (col col' : string) (row row' row_idx col_idx : Z) :
  valid_coord col row → valid_coord col' row' →
  _coord_to_indices col row = Ok (row_idx, col_idx) →
  _coord_to_indices col' row' = Ok (row_idx, col_idx) →
  (col, row) = (col', row').
Proof.
  intros Hv Hv' Hidx Hidx'.
  destruct (valid_indices col row Hv) as (ci & Hi & _ & _ & Hcol).
  destruct (valid_indices col' row' Hv') as (ci' & Hi' & _ & _ & Hcol').
  rewrite Hidx in Hi. rewrite Hidx' in Hi'.
  injection Hi as -> ->. injection Hi' as Hrow <-.
  f_equal; [congruence | lia].
Qed.

Lemma cell_at_init (row_idx col_idx : Z) :
  0 ≤ row_idx < size → 0 ≤ col_idx < size →
  cell_at (board init) row_idx col_idx = Some EMPTY.
Proof.
  intros Hr Hc. apply cell_at_Some. do 2 (split; [done |]).
  exists (replicate (Z.to_nat size) EMPTY). unfold init, board.
  split; apply lookup_replicate_2; lia.
Qed.

Lemma get_stone_init (col : string) (row : Z) : get_stone init col row = Ok None.
Proof.
  destruct (decide (valid_coord col row)) as [Hv | Hnv].
  - destruct (valid_indices col row Hv) as (ci & Hidx & Hr & Hc & _).
    by rewrite (get_stone_cell init col row _ _ EMPTY Hv Hidx (cell_at_init _ _ Hr Hc)).
  - apply validate_invalid in Hnv. unfold get_stone. by rewrite Hnv.
Qed.

(** What [get_stone] returns after a stone is put on a cell: the stone on
    that coordinate, and what it returned before on any other. *)
Lemma get_stone_after_set (b : GomokuBoard) (col0 col : string) (row0 row : Z)
    (row_idx col_idx : Z) (stone : string) (h : list (string * Z * string)) :
  square (board b) = true →
  valid_coord col0 row0 →
  _coord_to_indices col0 row0 = Ok (row_idx, col_idx) →
  stone ≠ EMPTY →
  get_stone {| board := grid_set (board b) row_idx col_idx stone; move_history := h |}
    col row
  = if decide ((col, row) = (col0, row0)) then Ok (Some stone) else get_stone b col row.
Proof.
  intros Hsq Hv0 Hidx0 Hst.
  destruct (valid_indices col0 row0 Hv0) as (ci0 & Hi0 & Hr0 & Hc0 & _).
  rewrite Hidx0 in Hi0. injection Hi0 as -> ->.
  set (b' := {| board := _; move_history := _ |}).
  case_decide as Heq.
  - injection Heq as -> ->.
    rewrite (get_stone_cell b' col0 row0 _ _ stone Hv0 Hidx0)
      by (by apply cell_at_grid_set_eq).
    by destruct (String.eqb_spec stone EMPTY).
  - destruct (decide (valid_coord col row)) as [Hv | Hnv].
    + destruct (valid_indices col row Hv) as (ci & Hidx & Hr & Hc & _).
      destruct (cell_at_total (board b) _ _ Hsq Hr Hc) as [s Hs].
      rewrite (get_stone_cell b col row _ _ s Hv Hidx Hs).
      apply (get_stone_cell b' col row _ _ s Hv Hidx). simpl.
      rewrite cell_at_grid_set_ne; [done | lia | lia |].
      intros [= Hrow ->]. apply Heq.
      apply (coord_to_indices_inj col col0 row row0 (size - row) ci0); try done.
      by rewrite Hidx0, Hrow.
    + apply validate_invalid in Hnv. unfold get_stone. by rewrite Hnv.
Qed.

(** X4. The move history is enough to rebuild the board: after any calls of
    [place_stone] on a new board, making the recorded moves again on a new
    board gives the same grid and the same history. *)
Theorem play_history_rebuilds (ms : list move) :
  ∃ b, play init ms = Ok b ∧ play init (move_history b) = Ok b.
Proof.
  destruct (play_steps ms init eq_refl) as (b & Hplay & _).
  exists b. split; [done |].
  apply (play_preserves (fun b => play init (move_history b) = Ok b))
    with (ms := ms) (b := init); [| done | done | done].
  clear. intros b col row stone ok b' Hsq IH Hplace.
  destruct (place_stone_inv _ _ _ _ _ _ Hsq Hplace)
    as [[-> ->] | (-> & _ & _ & ri & ci & _ & _ & _ & _ & Hb')]; [done |].
  rewrite Hb' at 1. simpl move_history.
  rewrite (play_app _ _ _ _ IH). simpl. by rewrite Hplace.
Qed.

(** X5. After any calls of [place_stone] on a new board, the grid and the
    history say the same: [get_stone] returns a stone for a coordinate
    exactly when the history records that stone on that coordinate. *)
Theorem history_matches_grid (ms : list move) :
  ∃ b, play init ms = Ok b ∧
    ∀ col row stone,
      get_stone b col row = Ok (Some stone) ↔ (col, row, stone) ∈ move_history b.
Proof.
  destruct (play_steps ms init eq_refl) as (b & Hplay & _).
  exists b. split; [done |].
  apply (play_preserves
           (fun b => ∀ col row stone,
              get_stone b col row = Ok (Some stone) ↔ (col, row, stone) ∈ move_history b))
    with (ms := ms) (b := init); [| done | | done].
  - clear. intros b col0 row0 stone0 ok b' Hsq IH Hplace col row stone.
    destruct (place_stone_inv _ _ _ _ _ _ Hsq Hplace)
      as [[-> ->] | (-> & Hv0 & Hst & ri & ci & Hidx & Hr & Hc & Hcell & ->)]; [done |].
    rewrite (get_stone_after_set b col0 col row0 row ri ci stone0)
      by (done || by apply is_stone_not_empty).
    simpl move_history. rewrite elem_of_app, list_elem_of_singleton, <- IH.
    pose proof (get_stone_cell b col0 row0 ri ci EMPTY Hv0 Hidx Hcell) as Hnone.
    simpl in Hnone. case_decide as Heq.
    + injection Heq as -> ->. rewrite Hnone. split.
      * intros [= ->]. by right.
      * intros [? | [= ->]]; done.
    + split; [by left |]. intros [? | [= -> -> ->]]; done.
  - intros col row stone. rewrite get_stone_init. simpl.
    split; [done |]. intros H. by apply elem_of_nil in H.
Qed.

(** X6. After any calls of [place_stone] on a new board, no coordinate is
    recorded twice in the history, every recorded coordinate is on the board
    and every recorded stone is ['B'] or ['W']. *)
Theorem history_moves_distinct (ms : list move) :
  ∃ b, play init ms = Ok b ∧
    NoDup (fst <$> move_history b) ∧
    ∀ col row stone, (col, row, stone) ∈ move_history b →
      valid_coord col row ∧ (stone = BLACK ∨ stone = WHITE).
Proof.
  destruct (play_steps ms init eq_refl) as (b & Hplay & _).
  exists b. split; [done |].
  apply (play_preserves
           (fun b =>
              (∀ col row stone,
                 (col, row, stone) ∈ move_history b →
                 get_stone b col row = Ok (Some stone)) ∧
              NoDup (fst <$> move_history b) ∧
              ∀ col row stone, (col, row, stone) ∈ move_history b →
                valid_coord col row ∧ (stone = BLACK ∨ stone = WHITE)))
    with (ms := ms) (b := init); [| done | | done].
  - clear. intros b col0 row0 stone0 ok b' Hsq (Hget & Hnd & Hlegal) Hplace.
    destruct (place_stone_inv _ _ _ _ _ _ Hsq Hplace)
      as [[-> ->] | (-> & Hv0 & Hst & ri & ci & Hidx & Hr & Hc & Hcell & ->)]; [done |].
    pose proof (get_stone_cell b col0 row0 ri ci EMPTY Hv0 Hidx Hcell) as Hnone.
    simpl in Hnone. simpl move_history. split; [| split].
    + intros col row stone [Hin | [= -> -> ->]%list_elem_of_singleton]%elem_of_app.
      * rewrite (get_stone_after_set b col0 col row0 row ri ci stone0)
          by (done || by apply is_stone_not_empty).
        case_decide as Heq; [| by apply Hget].
        injection Heq as -> ->. apply Hget in Hin. congruence.
      * rewrite (get_stone_after_set b col0 col0 row0 row0 ri ci stone0)
          by (done || by apply is_stone_not_empty).
        by rewrite decide_True.
    + rewrite fmap_app. apply NoDup_app. split; [done |]. split; [| apply NoDup_singleton].
      intros [col row] [[[c r] s] [[= <- <-] Hin]]%list_elem_of_fmap.
      simpl. intros [= -> ->]%list_elem_of_singleton.
      apply Hget in Hin. congruence.
    + intros col row stone [Hin | [= -> -> ->]%list_elem_of_singleton]%elem_of_app.
      * by apply Hlegal.
      * split; [done |]. by apply is_stone_spec.
  - split; [| split].
    + intros col row stone H. by apply elem_of_nil in H.
    + apply NoDup_nil_2.
    + intros col row stone H. by apply elem_of_nil in H.
Qed.

(** ** Full boards *)

Lemma length_concat_square (g : list (list string)) (n : nat) :
  (∀ i r, g !! i = Some r → length r = n) → length (concat g) = (length g * n)%nat.
Proof.
  induction g as [| r g IH]; intros Hrows; [done |].
  simpl. rewrite length_app, (Hrows 0%nat r eq_refl), IH; [done |].
  intros i r' Hr'. by apply (Hrows (S i)).
Qed.

Lemma length_filter_all {A : Type} (P : A → Prop) `{∀ x, Decision (P x)} (l : list A) :
  length (filter P l) = length l ↔ ∀ x, x ∈ l → P x.
Proof.
  induction l as [| x l IH].
  - split; [| done]. intros _ x Hx. by apply elem_of_nil in Hx.
  - destruct (decide (P x)) as [HP | HP].
    + rewrite filter_cons_True by done. simpl.
      split.
      * intros Hlen y [-> | Hy]%elem_of_cons; [done |]. apply IH; [lia | done].
      * intros Hall. f_equal. apply IH. intros y Hy. apply Hall. by right.
    + rewrite filter_cons_False by done. simpl. split.
      * intros Hlen. pose proof (length_filter P l). lia.
      * intros Hall. exfalso. apply HP, Hall. by left.
Qed.

Lemma elem_of_concat {A : Type} (x : A) (ls : list (list A)) :
  x ∈ concat ls ↔ ∃ l, x ∈ l ∧ l ∈ ls.
Proof.
  rewrite list_elem_of_In, in_concat. split.
  - intros (l & Hl & Hx). exists l. by rewrite !list_elem_of_In.
  - intros (l & Hx & Hl). exists l. by rewrite <- !list_elem_of_In.
Qed.

(** A well-shaped board is full exactly when it holds [size * size] stones. *)
Lemma is_board_full_count (b : GomokuBoard) :
  square (board b) = true →
  is_board_full b = true ↔ Z.of_nat (count_stones (board b)) = size * size.
Proof.
  intros [Hlen Hrows]%square_spec.
  pose proof (length_concat_square _ _ Hrows) as Hcat. rewrite Hlen in Hcat.
  unfold is_board_full, count_stones. rewrite is_board_full_rows_spec.
  assert (Z.of_nat (length (filter (λ cell, cell ≠ EMPTY) (concat (board b)))) = size * size
          ↔ length (filter (λ cell, cell ≠ EMPTY) (concat (board b)))
            = length (concat (board b))) as ->.
  { rewrite Hcat. unfold size, BOARD_SIZE. lia. }
  rewrite length_filter_all. split.
  - intros H s (r & Hs & [i Hr]%list_elem_of_lookup)%elem_of_concat.
    apply list_elem_of_lookup in Hs as [j Hs]. by eapply H.
  - intros H i r j s Hr Hs. apply H. apply elem_of_concat.
    exists r. split; apply list_elem_of_lookup; eauto.
Qed.

(** X7. After any calls of [place_stone] on a new board, at most
    [size * size] moves are recorded, and [is_board_full] returns [True]
    exactly when that many are. *)
Theorem is_board_full_after_play (ms : list move) :
  ∃ b, play init ms = Ok b ∧
    Z.of_nat (length (move_history b)) ≤ size * size ∧
    (is_board_full b = true ↔ Z.of_nat (length (move_history b)) = size * size).
Proof.
  destruct (play_steps ms init eq_refl) as (b & Hplay & Hsq & _ & _ & Hcount).
  specialize (Hcount init_count).
  exists b. split; [done |]. rewrite <- Hcount. split; [| by apply is_board_full_count].
  pose proof Hsq as [Hlen Hrows]%square_spec.
  pose proof (length_concat_square _ _ Hrows) as Hcat. rewrite Hlen in Hcat.
  unfold count_stones.
  pose proof (length_filter (λ cell, cell ≠ EMPTY) (concat (board b))).
  unfold size, BOARD_SIZE in *. lia.
Qed.

(** X8. On a full board every call of [place_stone] fails and changes
    nothing. *)
Theorem place_stone_on_full_board (b : GomokuBoard) (col : string) (row : Z)
    (stone : string) :
  square (board b) = true →
  is_board_full b = true →
  place_stone b col row stone = Ok (false, b).
Proof.
  intros Hsq Hfull. destruct (place_stone_spec b col row stone Hsq) as [Hout Hin].
  destruct (decide (valid_coord col row)) as [Hv | Hnv]; [| by apply Hout].
  destruct (Hin Hv) as (ri & ci & s & _ & _ & _ & Hs & ->).
  destruct (String.eqb_spec s EMPTY) as [Hempty | Hne]; [| done].
  exfalso. unfold is_board_full in Hfull.
  apply cell_at_Some in Hs as (_ & _ & r & Hr & Hrs).
  by apply (proj1 (is_board_full_rows_spec _) Hfull _ _ _ _ Hr Hrs).
Qed.

Lemma place_stone_on_full_board_witness :
  place_stone all_black "H" 8 "W" = Ok (false, all_black).
Proof.
  apply (place_stone_on_full_board all_black "H" 8 "W"); reflexivity.
Defined.

(** * More on win detection *)

(** The coordinate named by array indices of the board is on the board and
    has these indices. *)
Lemma coord_at_valid (row_idx col_idx : Z) :
  0 ≤ row_idx < size → 0 ≤ col_idx < size →
  valid_coord (coord_at row_idx col_idx).1 (coord_at row_idx col_idx).2 ∧
  _coord_to_indices (coord_at row_idx col_idx).1 (coord_at row_idx col_idx).2
  = Ok (row_idx, col_idx).
Proof.
  intros Hr Hc. unfold coord_at. simpl.
  assert (cols !! Z.to_nat col_idx = Some (cols !!! Z.to_nat col_idx)) as Hcol.
  { apply list_lookup_lookup_total_lt. pose proof cols_length. lia. }
  split.
  - split; [| lia]. apply list_elem_of_lookup. eauto.
  - rewrite (coord_to_indices_Ok _ _ col_idx).
    + do 2 f_equal. lia.
    + apply col_to_idx_lookup. split; [lia | done].
Qed.

(** X9. For array indices of the board, the conversion back to a coordinate
    made in [_collect_line] gives a coordinate of the board, and
    [_coord_to_indices] maps it to the same indices again. *)
Theorem indices_coord_roundtrip (row_idx col_idx : Z) :
  0 ≤ row_idx < size → 0 ≤ col_idx < size →
  ∃ col row,
    indices_to_coord row_idx col_idx = Ok (col, row) ∧
    valid_coord col row ∧
    _coord_to_indices col row = Ok (row_idx, col_idx).
Proof.
  intros Hr Hc. exists (coord_at row_idx col_idx).1, (coord_at row_idx col_idx).2.
  split; [| by apply coord_at_valid].
  rewrite indices_to_coord_Ok by done. by destruct (coord_at row_idx col_idx).
Qed.

Lemma indices_coord_roundtrip_witness :
  ∃ col row,
    indices_to_coord 0 14 = Ok (col, row) ∧
    valid_coord col row ∧
    _coord_to_indices col row = Ok (0, 14).
Proof.
  apply (indices_coord_roundtrip 0 14); unfold size, BOARD_SIZE; lia.
Defined.

(** [get_stone] on the coordinate named by array indices reads that cell. *)
Lemma get_stone_coord_at (b : GomokuBoard) (row_idx col_idx : Z) (s : string) :
  cell_at (board b) row_idx col_idx = Some s → s ≠ EMPTY →
  get_stone b (coord_at row_idx col_idx).1 (coord_at row_idx col_idx).2 = Ok (Some s).
Proof.
  intros Hcell Hs. pose proof (cell_at_in_range _ _ _ _ Hcell) as [Hr Hc].
  destruct (coord_at_valid row_idx col_idx Hr Hc) as [Hv Hidx].
  rewrite (get_stone_cell b _ _ _ _ s Hv Hidx Hcell).
  by destruct (String.eqb_spec s EMPTY).
Qed.

(** The members of a run. *)
Lemma elem_of_run_coords (p : string * Z) (row col dr dc k : Z) :
  p ∈ run_coords row col dr dc k ↔
  ∃ i, 1 ≤ i ≤ k ∧ p = coord_at (row + i * dr) (col + i * dc).
Proof.
  unfold run_coords. rewrite list_elem_of_fmap. split.
  - intros (i & -> & Hi%elem_of_seqZ). exists i. split; [lia | done].
  - intros (i & Hi & ->). exists i. split; [done |]. apply elem_of_seqZ. lia.
Qed.

(** What [get_winning_line] returns when it returns a line. *)
Lemma get_winning_line_Some (b : GomokuBoard) (col : string) (row : Z)
    (stone : string) (l : list (string * Z)) :
  square (board b) = true →
  get_winning_line b col row stone = Ok (Some l) →
  valid_coord col row ∧
  ∃ row_idx col_idx d kp kn,
    _coord_to_indices col row = Ok (row_idx, col_idx) ∧
    0 ≤ row_idx < size ∧ 0 ≤ col_idx < size ∧
    d ∈ directions ∧
    is_run (board b) row_idx col_idx d.1 d.2 stone kp ∧
    is_run (board b) row_idx col_idx (- d.1) (- d.2) stone kn ∧
    5 ≤ 1 + kp + kn ∧
    l = take 5 (line_of col row row_idx col_idx d kp kn).
Proof.
  intros Hsq Hget. unfold get_winning_line in Hget.
  destruct (decide (valid_coord col row)) as [Hv | Hnv].
  - split; [done |].
    destruct (valid_indices col row Hv) as (ci & Hidx & Hr & Hc & _).
    destruct (check_win_on_board b col row stone _ _ Hsq Hv Hidx) as (w & Hcw & _).
    rewrite Hcw, ret_bind in Hget.
    destruct w; simpl negb in Hget; cbv iota in Hget; [| done].
    rewrite Hidx, ret_bind in Hget.
    destruct (get_winning_line_loop_spec b stone (size - row) ci Hsq Hr Hc col row directions)
      as [[Hnone _] | (l1 & d & l2 & kp & kn & Hds & _ & Hp & Hn & H5 & Hres)];
      [apply directions_unit | congruence |].
    rewrite Hres in Hget. injection Hget as <-.
    exists (size - row), ci, d, kp, kn. do 3 (split; [done |]).
    split; [rewrite Hds; set_solver | done].
  - apply validate_invalid in Hnv. unfold check_win in Hget.
    rewrite Hnv in Hget. simpl in Hget. done.
Qed.

(** X10. Where no cell of the board holds [stone], [check_win] returns
    [False] and [get_winning_line] returns [None] for every coordinate; so it
    is on a new board for the two players' stones. *)
Theorem no_stone_no_win (b : GomokuBoard) (col : string) (row : Z) (stone : string) :
  square (board b) = true →
  (∀ row_idx col_idx, cell_at (board b) row_idx col_idx ≠ Some stone) →
  check_win b col row stone = Ok false ∧ get_winning_line b col row stone = Ok None.
Proof.
  intros Hsq Hnone.
  assert (check_win b col row stone = Ok false) as Hcw.
  { destruct (decide (valid_coord col row)) as [Hv | Hnv].
    - destruct (valid_indices col row Hv) as (ci & Hidx & _).
      destruct (check_win_on_board b col row stone _ _ Hsq Hv Hidx) as (w & Hcw & Hiff).
      rewrite Hcw. f_equal. destruct w; [| done]. exfalso.
      destruct (proj1 Hiff eq_refl) as (d & n & _ & (kp & kn & Hp & Hn & ->) & H5).
      destruct Hp as (Hkp & Hcp & _), Hn as (Hkn & Hcn & _).
      destruct (decide (1 ≤ kp)) as [H1 | H1].
      + apply (Hnone _ _ (Hcp 1 ltac:(lia))).
      + apply (Hnone _ _ (Hcn 1 ltac:(lia))).
    - apply validate_invalid in Hnv. unfold check_win. by rewrite Hnv. }
  split; [done |]. unfold get_winning_line. by rewrite Hcw.
Qed.

Lemma no_stone_no_win_witness :
  check_win init "H" 8 "B" = Ok false ∧ get_winning_line init "H" 8 "B" = Ok None.
Proof.
  apply (no_stone_no_win init "H" 8 "B"); [reflexivity |].
  intros ri ci Hcell. pose proof (cell_at_in_range _ _ _ _ Hcell) as [Hr Hc].
  rewrite (cell_at_init ri ci Hr Hc) in Hcell. discriminate Hcell.
Defined.

(** X11. Every coordinate that [get_winning_line] reports after the first
    one is a coordinate of the board on which [get_stone] returns [stone];
    the first one is the queried coordinate, whatever its cell holds. *)
Theorem winning_line_holds_stone (b : GomokuBoard) (col : string) (row : Z)
    (stone : string) (l : list (string * Z)) :
  square (board b) = true →
  stone ≠ EMPTY →
  get_winning_line b col row stone = Ok (Some l) →
  ∃ l', l = (col, row) :: l' ∧
    ∀ c r, (c, r) ∈ l' → valid_coord c r ∧ get_stone b c r = Ok (Some stone).
Proof.
  intros Hsq Hst Hget.
  destruct (get_winning_line_Some b col row stone l Hsq Hget)
    as (Hv & ri & ci & d & kp & kn & Hidx & Hr & Hc & Hd & Hp & Hn & H5 & ->).
  unfold line_of. change 5%nat with (S 4) at 1. rewrite firstn_cons.
  eexists. split; [done |].
  intros c r Hin%(subseteq_take 4).
  assert (∃ dr dc k i, is_run (board b) ri ci dr dc stone k ∧ 1 ≤ i ≤ k ∧
                       (c, r) = coord_at (ri + i * dr) (ci + i * dc))
    as (dr & dc & k & i & (_ & Hcells & _) & Hi & Heq).
  { apply elem_of_app in Hin as [(i & Hi & Heq)%elem_of_run_coords
                               | (i & Hi & Heq)%elem_of_run_coords]; eauto 10. }
  specialize (Hcells i Hi).
  pose proof (cell_at_in_range _ _ _ _ Hcells) as [Hri Hci].
  pose proof (coord_at_valid _ _ Hri Hci) as [Hvalid _].
  pose proof (get_stone_coord_at b _ _ stone Hcells Hst) as Hgs.
  rewrite <- Heq in Hvalid, Hgs. done.
Qed.

Lemma winning_line_holds_stone_witness :
  ∃ l', [("H", 8); ("I", 8); ("G", 8); ("F", 8); ("E", 8)] = ("H", 8) :: l' ∧
    ∀ c r, (c, r) ∈ l' → valid_coord c r ∧ get_stone six_in_row c r = Ok (Some "B").
Proof.
  apply (winning_line_holds_stone six_in_row "H" 8 "B"); [reflexivity | | reflexivity].
  intros Heq. discriminate Heq.
Defined.

Lemma coord_at_indices (col : string) (row row_idx col_idx : Z) :
  valid_coord col row →
  _coord_to_indices col row = Ok (row_idx, col_idx) →
  coord_at row_idx col_idx = (col, row).
Proof.
  intros Hv Hidx. destruct (valid_indices col row Hv) as (ci & Hi & _ & _ & Hcol).
  rewrite Hidx in Hi. injection Hi as -> ->. unfold coord_at.
  rewrite (list_lookup_total_correct _ _ _ Hcol). f_equal. lia.
Qed.

(** The line of [get_winning_line], cell by cell. *)
Lemma line_of_offsets (col : string) (row row_idx col_idx : Z) (d : Z * Z) (kp kn : Z) :
  valid_coord col row →
  _coord_to_indices col row = Ok (row_idx, col_idx) →
  line_of col row row_idx col_idx d kp kn =
  (fun j => coord_at (row_idx + j * d.1) (col_idx + j * d.2)) <$> line_offsets kp kn.
Proof.
  intros Hv Hidx. unfold line_of, line_offsets, run_coords.
  rewrite fmap_cons, fmap_app, <- list_fmap_compose. f_equal.
  - rewrite <- (coord_at_indices col row row_idx col_idx Hv Hidx). f_equal; lia.
  - f_equal. apply list_fmap_ext. intros _ i _. simpl. f_equal; lia.
Qed.

Lemma elem_of_line_offsets (kp kn j : Z) :
  0 ≤ kp → 0 ≤ kn → j ∈ line_offsets kp kn ↔ - kn ≤ j ≤ kp.
Proof.
  intros Hp Hn. unfold line_offsets.
  rewrite elem_of_cons, elem_of_app, elem_of_seqZ, list_elem_of_fmap.
  setoid_rewrite elem_of_seqZ. split.
  - intros [-> | [? | (i & -> & ?)]]; lia.
  - intros Hj. destruct (Z.lt_trichotomy j 0) as [Hlt | [-> | Hgt]].
    + right. right. exists (- j). lia.
    + by left.
    + right. left. lia.
Qed.

Lemma line_offsets_NoDup (kp kn : Z) : NoDup (line_offsets kp kn).
Proof.
  unfold line_offsets. apply NoDup_cons. split.
  - rewrite elem_of_app, elem_of_seqZ, list_elem_of_fmap.
    setoid_rewrite elem_of_seqZ. intros [? | (i & ? & ?)]; lia.
  - apply NoDup_app. split; [apply NoDup_seqZ |]. split.
    + intros j Hj%elem_of_seqZ (i & -> & Hi%elem_of_seqZ)%list_elem_of_fmap. lia.
    + apply NoDup_fmap_2; [| apply NoDup_seqZ]. intros x y. lia.
Qed.

(** The cells between the ends of the two runs, the queried one apart, hold
    the stone. *)
Lemma line_cells (g : list (list string)) (row col dr dc : Z) (stone : string)
    (kp kn j : Z) :
  is_run g row col dr dc stone kp →
  is_run g row col (- dr) (- dc) stone kn →
  - kn ≤ j ≤ kp → j ≠ 0 →
  cell_at g (row + j * dr) (col + j * dc) = Some stone.
Proof.
  intros (_ & Hcp & _) (_ & Hcn & _) Hj Hj0.
  destruct (decide (0 < j)) as [Hpos | Hneg]; [apply Hcp; lia |].
  specialize (Hcn (- j) ltac:(lia)).
  by replace (row + - j * - dr) with (row + j * dr) in Hcn by lia;
     replace (col + - j * - dc) with (col + j * dc) in Hcn by lia.
Qed.

(** Seen from another stone of the same line, the run one way is what is
    left of the line on that side. *)
Lemma is_run_shift (g : list (list string)) (row col dr dc : Z) (stone : string)
    (kp kn j : Z) :
  is_run g row col dr dc stone kp →
  is_run g row col (- dr) (- dc) stone kn →
  cell_at g row col = Some stone →
  - kn ≤ j ≤ kp →
  is_run g (row + j * dr) (col + j * dc) dr dc stone (kp - j).
Proof.
  intros Hp Hn Hcell Hj. split; [lia |]. split.
  - intros i Hi.
    replace (row + j * dr + i * dr) with (row + (j + i) * dr) by lia.
    replace (col + j * dc + i * dc) with (col + (j + i) * dc) by lia.
    destruct (decide (j + i = 0)) as [-> | Hne].
    + by rewrite !Z.mul_0_l, !Z.add_0_r.
    + apply (line_cells g row col dr dc stone kp kn); [done | done | lia | done].
  - replace (row + j * dr + (kp - j + 1) * dr) with (row + (kp + 1) * dr) by lia.
    replace (col + j * dc + (kp - j + 1) * dc) with (col + (kp + 1) * dc) by lia.
    by destruct Hp as (_ & _ & Hnext).
Qed.

(** X12. The coordinates of a line reported by [get_winning_line] are
    pairwise distinct. *)
Theorem winning_line_distinct (b : GomokuBoard) (col : string) (row : Z)
    (stone : string) (l : list (string * Z)) :
  square (board b) = true →
  get_winning_line b col row stone = Ok (Some l) →
  NoDup l.
Proof.
  intros Hsq Hget.
  destruct (get_winning_line_Some b col row stone l Hsq Hget)
    as (Hv & ri & ci & d & kp & kn & Hidx & Hr & Hc & Hd & Hp & Hn & H5 & ->).
  eapply sublist_NoDup; [| apply sublist_take].
  rewrite (line_of_offsets col row ri ci d kp kn Hv Hidx).
  apply NoDup_fmap_2_strong; [| apply line_offsets_NoDup].
  pose proof (directions_unit d Hd) as (Hdr & Hdc & Hnz).
  assert (∀ j, j ∈ line_offsets kp kn →
               0 ≤ ri + j * d.1 < size ∧ 0 ≤ ci + j * d.2 < size) as Hin.
  { intros j Hj%elem_of_line_offsets; [| by destruct Hp | by destruct Hn].
    destruct (decide (j = 0)) as [-> | Hj0]; [lia |].
    eapply cell_at_in_range, (line_cells _ ri ci d.1 d.2 stone kp kn); done. }
  intros x y Hx Hy Heq.
  destruct (Hin x Hx) as [Hxr Hxc], (Hin y Hy) as [Hyr Hyc].
  pose proof (coord_at_valid _ _ Hxr Hxc) as [_ Hix].
  pose proof (coord_at_valid _ _ Hyr Hyc) as [_ Hiy].
  rewrite Heq, Hiy in Hix. injection Hix as Hrow Hcol.
  destruct Hnz as [Hnz | Hnz]; nia.
Qed.

Lemma winning_line_distinct_witness :
  NoDup [("H", 8); ("I", 8); ("G", 8); ("F", 8); ("E", 8)].
Proof.
  apply (winning_line_distinct six_in_row "H" 8 "B"); reflexivity.
Defined.

(** X13. When the queried cell holds [stone] and [get_winning_line] reports
    a line, [check_win] returns [True] on every coordinate of that line: the
    win does not depend on which stone of the line is asked about. *)
Theorem winning_line_all_win (b : GomokuBoard) (col : string) (row : Z)
    (stone : string) (l : list (string * Z)) :
  square (board b) = true →
  get_stone b col row = Ok (Some stone) →
  get_winning_line b col row stone = Ok (Some l) →
  ∀ c r, (c, r) ∈ l → check_win b c r stone = Ok true.
Proof.
  intros Hsq Hstone Hget c r Hin.
  destruct (get_winning_line_Some b col row stone l Hsq Hget)
    as (Hv & ri & ci & d & kp & kn & Hidx & Hr & Hc & Hd & Hp & Hn & H5 & ->).
  assert (cell_at (board b) ri ci = Some stone) as Hcell.
  { destruct (cell_at_total (board b) ri ci Hsq Hr Hc) as [s Hs].
    rewrite (get_stone_cell b col row ri ci s Hv Hidx Hs) in Hstone.
    destruct (String.eqb s EMPTY); congruence. }
  apply (subseteq_take 5) in Hin.
  rewrite (line_of_offsets col row ri ci d kp kn Hv Hidx) in Hin.
  apply list_elem_of_fmap in Hin as (j & Heq & Hj).
  apply elem_of_line_offsets in Hj; [| by destruct Hp | by destruct Hn].
  pose proof (is_run_shift _ _ _ _ _ _ kp kn j Hp Hn Hcell Hj) as Hp'.
  assert (is_run (board b) (ri + j * d.1) (ci + j * d.2) (- d.1) (- d.2) stone (kn + j))
    as Hn'.
  { pose proof (is_run_shift (board b) ri ci (- d.1) (- d.2) stone kn kp (- j)) as H.
    rewrite !Z.opp_involutive in H.
    replace (ri + - j * - d.1) with (ri + j * d.1) in H by lia.
    replace (ci + - j * - d.2) with (ci + j * d.2) in H by lia.
    replace (kn - - j) with (kn + j) in H by lia.
    apply H; [done | done | done | lia]. }
  assert (0 ≤ ri + j * d.1 < size ∧ 0 ≤ ci + j * d.2 < size) as [Hqr Hqc].
  { destruct (decide (j = 0)) as [-> | Hj0]; [lia |].
    eapply cell_at_in_range, (line_cells _ ri ci d.1 d.2 stone kp kn); done. }
  destruct (coord_at_valid _ _ Hqr Hqc) as [Hvq Hiq]. rewrite <- Heq in Hvq, Hiq.
  destruct (check_win_on_board b c r stone _ _ Hsq Hvq Hiq) as (w & Hcw & Hiff).
  rewrite Hcw. f_equal. apply Hiff.
  exists d, (1 + (kp - j) + (kn + j)). split; [done |]. split; [| lia].
  by exists (kp - j), (kn + j).
Qed.

Lemma winning_line_all_win_witness :
  check_win five_in_column "H" 9 "B" = Ok true.
Proof.
  apply (winning_line_all_win five_in_column "H" 12 "B"
           [("H", 12); ("H", 11); ("H", 10); ("H", 9); ("H", 8)]);
    [reflexivity | reflexivity | reflexivity |].
  do 3 apply list_elem_of_further. apply list_elem_of_here.
Defined.

(** Overwriting the queried cell does not change what [check_win] returns,
    and neither does the history. *)
Lemma check_win_grid_set (b : GomokuBoard) (col : string) (row : Z) (stone v : string)
    (row_idx col_idx : Z) (h : list (string * Z * string)) :
  square (board b) = true →
  valid_coord col row →
  _coord_to_indices col row = Ok (row_idx, col_idx) →
  check_win {| board := grid_set (board b) row_idx col_idx v; move_history := h |}
    col row stone
  = check_win b col row stone.
Proof.
  intros Hsq Hv Hidx.
  destruct (valid_indices col row Hv) as (ci & Hi & Hr & Hc & _).
  rewrite Hidx in Hi. injection Hi as -> ->.
  set (b' := {| board := _; move_history := _ |}).
  assert (square (board b') = true) as Hsq' by (by apply grid_set_square).
  destruct (check_win_on_board b col row stone _ _ Hsq Hv Hidx) as (w & Hcw & Hiff).
  destruct (check_win_on_board b' col row stone _ _ Hsq' Hv Hidx) as (w' & Hcw' & Hiff').
  rewrite Hcw, Hcw'. f_equal.
  assert (w' = true ↔ w = true) as Hww; [| destruct w, w'; naive_solver].
  rewrite Hiff, Hiff'. simpl board.
  split; intros (d & n & Hd & (kp & kn & Hp & Hn & ->) & H5);
    exists d, (1 + kp + kn); (split; [done |]); (split; [| done]);
    exists kp, kn; pose proof (directions_unit d Hd) as Hu;
    pose proof (unit_dir_opp _ _ Hu) as Hu'.
  - rewrite is_run_grid_set in Hp, Hn by (done || lia). done.
  - rewrite !is_run_grid_set by (done || lia). done.
Qed.

(** X14. Whether a move wins can be asked before it is made: after a call
    of [place_stone] that succeeds, [check_win] for that coordinate and stone
    returns what it returned before the call. *)
Theorem check_win_before_place (b b' : GomokuBoard) (col : string) (row : Z)
    (stone : string) :
  square (board b) = true →
  place_stone b col row stone = Ok (true, b') →
  check_win b' col row stone = check_win b col row stone.
Proof.
  intros Hsq Hplace. apply place_stone_inv in Hplace; [| exact Hsq].
  destruct Hplace as [[Hf _] | (_ & Hv & _ & ri & ci & Hidx & _ & _ & _ & ->)];
    [discriminate Hf |].
  apply check_win_grid_set; assumption.
Qed.

Lemma check_win_before_place_witness :
  check_win (played [("D", 8, "B"); ("A", 1, "W"); ("E", 8, "B"); ("A", 2, "W");
                     ("F", 8, "B"); ("A", 3, "W"); ("G", 8, "B"); ("A", 4, "W");
                     ("H", 8, "B")]) "H" 8 "B"
  = check_win (played [("D", 8, "B"); ("A", 1, "W"); ("E", 8, "B"); ("A", 2, "W");
                       ("F", 8, "B"); ("A", 3, "W"); ("G", 8, "B"); ("A", 4, "W")])
      "H" 8 "B".
Proof.
  apply check_win_before_place; reflexivity.
Defined.

(** * The player's turn *)

(** On a coordinate of the board, [get_stone] finds no stone exactly when
    the cell is empty. *)
Lemma get_stone_None_cell (b : GomokuBoard) (col : string) (row row_idx col_idx : Z)
    (s : string) :
  valid_coord col row →
  _coord_to_indices col row = Ok (row_idx, col_idx) →
  cell_at (board b) row_idx col_idx = Some s →
  get_stone b col row = Ok None ↔ s = EMPTY.
Proof.
  intros Hv Hidx Hs. rewrite (get_stone_cell b col row _ _ s Hv Hidx Hs).
  destruct (String.eqb_spec s EMPTY); split; congruence.
Qed.

(** What [validate_and_execute_move] does with a playable answer and with
    any other, for a player with a black or a white stone. *)
Lemma validate_and_execute_move_spec (self : LLMPlayer.t) (b : GomokuBoard)
    (column : string) (row : Z) :
  square (board b) = true →
  is_stone (LLMPlayer.stone_color self) = true →
  (playable b (Some (column, row)) ∧
   ∃ b', place_stone b column row (LLMPlayer.stone_color self) = Ok (true, b') ∧
         LLMPlayer.validate_and_execute_move self b column row =
         Ok (true,
             LLMPlayer.Plays (LLMPlayer.color_name (LLMPlayer.stone_color self))
               (LLMPlayer.display_name self) column row, b'))
  ∨
  (¬ playable b (Some (column, row)) ∧
   ∃ e, LLMPlayer.validate_and_execute_move self b column row =
        Ok (false, LLMPlayer.InvalidMove column row e, b)).
Proof.
  intros Hsq Hst. unfold LLMPlayer.validate_and_execute_move.
  destruct (decide (valid_coord column row)) as [Hv | Hnv].
  - destruct (valid_indices column row Hv) as (ci & Hidx & Hr & Hc & _).
    destruct (cell_at_total (board b) _ _ Hsq Hr Hc) as [s Hs].
    pose proof (get_stone_None_cell b column row _ _ s Hv Hidx Hs) as Hnone.
    rewrite (get_stone_cell b column row _ _ s Hv Hidx Hs), ret_bind.
    rewrite (is_valid_move_cell b column row _ _ s Hv Hidx Hs).
    destruct (proj2 (place_stone_spec b column row (LLMPlayer.stone_color self) Hsq) Hv)
      as (ri & ci' & s' & Hidx' & _ & _ & Hs' & Hplace).
    rewrite Hidx in Hidx'. injection Hidx' as <- <-.
    rewrite Hs in Hs'. injection Hs' as <-.
    destruct (String.eqb_spec s EMPTY) as [Hempty | Hne].
    + left. split.
      * exists column, row. by rewrite Hnone.
      * rewrite ret_bind. simpl negb. cbv iota. rewrite Hplace, Hst. simpl andb.
        cbv iota. rewrite ret_bind. by eexists.
    + right. split.
      * intros (c & r & [= <- <-] & _ & Hget). by apply Hnone in Hget.
      * rewrite ret_bind. by eexists.
  - right. split.
    + by intros (c & r & [= <- <-] & Hv & _).
    + apply validate_invalid in Hnv. unfold get_stone, is_valid_move. rewrite Hnv.
      simpl negb. cbv iota. rewrite !ret_bind. by eexists.
Qed.

(** X15. For a player with a black or a white stone,
    [validate_and_execute_move] succeeds exactly on a coordinate of the
    board whose cell is empty, and then leaves the board as [place_stone]
    does; on any other coordinate it reports an invalid move and leaves the
    board as it was.  It never reports a failure to place the stone. *)
Theorem validate_and_execute_move_correct (self : LLMPlayer.t) (b : GomokuBoard)
    (column : string) (row : Z) :
  square (board b) = true →
  LLMPlayer.stone_color self = BLACK ∨ LLMPlayer.stone_color self = WHITE →
  ∃ ok msg b',
    LLMPlayer.validate_and_execute_move self b column row = Ok (ok, msg, b') ∧
    (ok = true ↔ valid_coord column row ∧ get_stone b column row = Ok None) ∧
    (ok = true → place_stone b column row (LLMPlayer.stone_color self) = Ok (true, b')) ∧
    (ok = false → b' = b ∧ ∃ e, msg = LLMPlayer.InvalidMove column row e).
Proof.
  intros Hsq Hst%is_stone_spec.
  destruct (validate_and_execute_move_spec self b column row Hsq Hst)
    as [[(c & r & [= <- <-] & Hv & Hget) (b' & Hplace & ->)] | [Hnp (e & ->)]].
  - eexists true, _, b'. split; [done |]. split; [done |]. split; [done |].
    intros Hf. discriminate Hf.
  - eexists false, _, b. split; [done |]. split; [| split].
    + split; [intros Hf; discriminate Hf |].
      intros [Hv Hget]. exfalso. apply Hnp. by exists column, row.
    + intros Hf. discriminate Hf.
    + intros _. split; [done |]. by exists e.
Qed.

Lemma validate_and_execute_move_correct_witness :
  ∃ ok msg b',
    LLMPlayer.validate_and_execute_move (LLMPlayer.mk "W" "model") four_in_row "H" 8
    = Ok (ok, msg, b') ∧
    (ok = true ↔ valid_coord "H" 8 ∧ get_stone four_in_row "H" 8 = Ok None) ∧
    (ok = true → place_stone four_in_row "H" 8 "W" = Ok (true, b')) ∧
    (ok = false → b' = four_in_row ∧ ∃ e, msg = LLMPlayer.InvalidMove "H" 8 e).
Proof.
  apply (validate_and_execute_move_correct (LLMPlayer.mk "W" "model") four_in_row "H" 8).
  - reflexivity.
  - right. reflexivity.
Defined.

(** The loop of [play_turn] from attempt [i] on: it stops at the first
    playable answer, and runs to the last attempt when there is none. *)
Lemma play_turn_loop_spec (self : LLMPlayer.t) (b : GomokuBoard) (max_retries : Z)
    (get_move : Z → option (string * Z)) (n : nat) (i : Z) :
  square (board b) = true →
  is_stone (LLMPlayer.stone_color self) = true →
  i + Z.of_nat n = max_retries + 1 →
  (∃ k column row b',
      i ≤ k ≤ max_retries ∧
      (∀ j, i ≤ j < k → ¬ playable b (get_move j)) ∧
      get_move k = Some (column, row) ∧ playable b (get_move k) ∧
      place_stone b column row (LLMPlayer.stone_color self) = Ok (true, b') ∧
      LLMPlayer.play_turn_loop self b max_retries get_move (seqZ i (Z.of_nat n)) =
      Ok (true,
          LLMPlayer.WithAttempt
            (LLMPlayer.Plays (LLMPlayer.color_name (LLMPlayer.stone_color self))
               (LLMPlayer.display_name self) column row)
            (attempt_msg_of k),
          Some (column, row), b'))
  ∨
  ((∀ j, i ≤ j ≤ max_retries → ¬ playable b (get_move j)) ∧
   LLMPlayer.play_turn_loop self b max_retries get_move (seqZ i (Z.of_nat n)) =
   Ok (false,
       match n with
       | O => LLMPlayer.UnexpectedError (LLMPlayer.color_name (LLMPlayer.stone_color self))
       | S _ =>
           match get_move max_retries with
           | None => LLMPlayer.FailedToGetMove (attempt_msg_of max_retries)
           | Some _ =>
               LLMPlayer.Loses (LLMPlayer.color_name (LLMPlayer.stone_color self))
                 (LLMPlayer.display_name self) (max_retries + 1)
           end
       end,
       None, b)).
Proof.
  intros Hsq Hst. revert i. induction n as [| n IH]; intros i Hi.
  - right. split; [intros j Hj; lia | done].
  - rewrite seqZ_cons by lia. cbn [LLMPlayer.play_turn_loop].
    replace (Z.pred (Z.of_nat (S n))) with (Z.of_nat n) by lia.
    fold (attempt_msg_of i).
    assert (¬ playable b (get_move i) →
            (∀ j, Z.succ i ≤ j ≤ max_retries → ¬ playable b (get_move j)) →
            ∀ j, i ≤ j ≤ max_retries → ¬ playable b (get_move j)) as Hall.
    { intros H0 H j Hj. destruct (decide (j = i)) as [-> | Hne]; [done |].
      apply H. lia. }
    assert (∀ k, (∀ j, Z.succ i ≤ j < k → ¬ playable b (get_move j)) →
                 ¬ playable b (get_move i) →
                 ∀ j, i ≤ j < k → ¬ playable b (get_move j)) as Hbefore.
    { intros k H H0 j Hj. destruct (decide (j = i)) as [-> | Hne]; [done |].
      apply H. lia. }
    destruct (get_move i) as [[column row] |] eqn:Hmove.
    + destruct (validate_and_execute_move_spec self b column row Hsq Hst)
        as [[Hplay (b' & Hplace & ->)] | [Hnp (e & ->)]]; rewrite ret_bind.
      * left. exists i, column, row, b'. rewrite Hmove.
        split; [lia |]. split; [intros j Hj; lia |]. done.
      * destruct (Z.eqb_spec i max_retries) as [-> | Hne].
        -- right. rewrite Hmove. split; [| done].
           intros j Hj. by replace j with max_retries by lia; rewrite Hmove.
        -- destruct (IH (Z.succ i) ltac:(lia))
             as [(k & c & r & b' & Hk & Hbef & Hget & Hpl & Hplace & ->) | [Hnone ->]].
           ++ left. exists k, c, r, b'. split; [lia |].
              split; [apply Hbefore; [done | first [done | by rewrite Hmove]] | done].
           ++ right. split; [apply Hall; [first [done | by rewrite Hmove] | done] |].
              destruct n as [| n']; [lia | done].
    + assert (¬ playable b None) as Hnp by (by intros (c & r & ? & _)).
      destruct (Z.eqb_spec i max_retries) as [-> | Hne].
      * right. rewrite Hmove. split; [| done].
        intros j Hj. by replace j with max_retries by lia; rewrite Hmove.
      * destruct (IH (Z.succ i) ltac:(lia))
          as [(k & c & r & b' & Hk & Hbef & Hget & Hpl & Hplace & ->) | [Hnone ->]].
        -- left. exists k, c, r, b'. split; [lia |].
           split; [apply Hbefore; [done | first [done | by rewrite Hmove]] | done].
        -- right. split; [apply Hall; [first [done | by rewrite Hmove] | done] |].
           destruct n as [| n']; [lia | done].
Qed.

(** X16. [play_turn] plays the first playable answer among the
    [max_retries + 1] it may ask for: when the answers before attempt [i]
    cannot be played and the answer at attempt [i] is an empty cell of the
    board, the turn succeeds with that coordinate and the board is the one
    [place_stone] gives for it. *)
Theorem play_turn_first_playable (self : LLMPlayer.t) (b : GomokuBoard)
    (max_retries : Z) (get_move : Z → option (string * Z)) (i : Z)
    (column : string) (row : Z) :
  square (board b) = true →
  LLMPlayer.stone_color self = BLACK ∨ LLMPlayer.stone_color self = WHITE →
  0 ≤ i ≤ max_retries →
  (∀ j, 0 ≤ j < i → ¬ playable b (get_move j)) →
  get_move i = Some (column, row) →
  valid_coord column row →
  get_stone b column row = Ok None →
  ∃ msg b',
    LLMPlayer.play_turn self b max_retries get_move
    = Ok (true, msg, Some (column, row), b') ∧
    place_stone b column row (LLMPlayer.stone_color self) = Ok (true, b').
Proof.
  intros Hsq Hst%is_stone_spec Hi Hbefore Hmove Hv Hget.
  assert (playable b (get_move i)) as Hplayable.
  { rewrite Hmove. by exists column, row. }
  unfold LLMPlayer.play_turn, LLMPlayer.range.
  destruct (play_turn_loop_spec self b max_retries get_move
              (Z.to_nat (max_retries + 1)) 0 Hsq Hst ltac:(lia))
    as [(k & c & r & b' & Hk & Hbef & Hgetk & _ & Hplace & Hloop) | [Hnone _]].
  - rewrite Z2Nat.id in Hloop by lia. rewrite Hloop.
    assert (k = i) as ->.
    { destruct (Z.lt_trichotomy k i) as [Hlt | [Heq | Hgt]]; [| done |].
      - exfalso. apply (Hbefore k); [lia |]. rewrite Hgetk.
        destruct (place_stone_inv _ _ _ _ _ _ Hsq Hplace)
          as [[Hf _] | (_ & Hvk & _ & ri & ci & Hidx & _ & _ & Hcell & _)];
          [discriminate Hf |].
        exists c, r. split; [done |]. split; [done |].
        by apply (get_stone_None_cell b c r ri ci EMPTY).
      - exfalso. by apply (Hbef i); [lia |]. }
    rewrite Hmove in Hgetk. injection Hgetk as <- <-. eauto.
  - exfalso. by apply (Hnone i); [lia |].
Qed.

Lemma play_turn_first_playable_witness :
  ∃ msg b',
    LLMPlayer.play_turn (LLMPlayer.mk "W" "model") four_in_row 3
      (fun attempt => if attempt =? 0 then Some ("G", 8)
                      else if attempt =? 1 then None else Some ("H", 8))
    = Ok (true, msg, Some ("H", 8), b') ∧
    place_stone four_in_row "H" 8 "W" = Ok (true, b').
Proof.
  apply (play_turn_first_playable (LLMPlayer.mk "W" "model") four_in_row 3 _ 2 "H" 8).
  - reflexivity.
  - right. reflexivity.
  - lia.
  - intros j Hj (c & r & Hmove & Hv & Hget).
    assert (j = 0 ∨ j = 1) as [-> | ->] by lia; simpl in Hmove.
    + injection Hmove as <- <-. discriminate Hget.
    + discriminate Hmove.
  - reflexivity.
  - apply validate_valid. reflexivity.
  - reflexivity.
Defined.

(** X17. When none of the answers of the attempts 0 to [max_retries] can be
    played, [play_turn] fails, returns no coordinate and leaves the board as
    it was; the message is the forfeit when the last answer was a
    coordinate, and the failure to get a move when there was no last
    answer. *)
Theorem play_turn_no_playable (self : LLMPlayer.t) (b : GomokuBoard)
    (max_retries : Z) (get_move : Z → option (string * Z)) :
  square (board b) = true →
  LLMPlayer.stone_color self = BLACK ∨ LLMPlayer.stone_color self = WHITE →
  0 ≤ max_retries →
  (∀ j, 0 ≤ j ≤ max_retries → ¬ playable b (get_move j)) →
  LLMPlayer.play_turn self b max_retries get_move =
  Ok (false,
      match get_move max_retries with
      | None => LLMPlayer.FailedToGetMove (attempt_msg_of max_retries)
      | Some _ =>
          LLMPlayer.Loses (LLMPlayer.color_name (LLMPlayer.stone_color self))
            (LLMPlayer.display_name self) (max_retries + 1)
      end,
      None, b).
Proof.
  intros Hsq Hst%is_stone_spec Hmax Hnone.
  unfold LLMPlayer.play_turn, LLMPlayer.range.
  destruct (play_turn_loop_spec self b max_retries get_move
              (Z.to_nat (max_retries + 1)) 0 Hsq Hst ltac:(lia))
    as [(k & c & r & b' & Hk & _ & _ & Hpl & _) | [_ Hloop]].
  - exfalso. by apply (Hnone k).
  - rewrite Z2Nat.id in Hloop by lia. rewrite Hloop.
    destruct (Z.to_nat (max_retries + 1)) eqn:Hn; [lia | done].
Qed.

Lemma play_turn_no_playable_witness :
  LLMPlayer.play_turn (LLMPlayer.mk "W" "model") four_in_row 1
    (fun attempt => if attempt =? 0 then None else Some ("G", 8))
  = Ok (false, LLMPlayer.Loses "White" "model" 2, None, four_in_row).
Proof.
  apply (play_turn_no_playable (LLMPlayer.mk "W" "model") four_in_row 1
           (fun attempt => if attempt =? 0 then None else Some ("G", 8))).
  - reflexivity.
  - right. reflexivity.
  - lia.
  - intros j Hj (c & r & Hmove & Hv & Hget).
    assert (j = 0 ∨ j = 1) as [-> | ->] by lia; simpl in Hmove.
    + discriminate Hmove.
    + injection Hmove as <- <-. discriminate Hget.
Defined.

(** X18. With a negative [max_retries] the loop of [play_turn] has no
    round: the call asks for no move and returns the failure that the code
    marks as never reached, with the board as it was. *)
Theorem play_turn_negative_retries (self : LLMPlayer.t) (b : GomokuBoard)
    (max_retries : Z) (get_move : Z → option (string * Z)) :
  max_retries < 0 →
  LLMPlayer.play_turn self b max_retries get_move =
  Ok (false,
      LLMPlayer.UnexpectedError (LLMPlayer.color_name (LLMPlayer.stone_color self)),
      None, b).
Proof.
  intros Hneg. unfold LLMPlayer.play_turn, LLMPlayer.range, seqZ.
  by replace (Z.to_nat (max_retries + 1)) with 0%nat by lia.
Qed.

Lemma play_turn_negative_retries_witness :
  LLMPlayer.play_turn (LLMPlayer.mk "B" "model") init (-1) (fun _ => Some ("H", 8))
  = Ok (false, LLMPlayer.UnexpectedError "Black", None, init).
Proof.
  apply (play_turn_negative_retries (LLMPlayer.mk "B" "model") init (-1)). lia.
Defined.

(** * The text of the board *)

Lemma string_app_nil_l (a : string) : "" +:+ a = a.
Proof. reflexivity. Qed.

Lemma string_app_cons (x : ascii) (a b : string) :
  String x a +:+ b = String x (a +:+ b).
Proof. reflexivity. Qed.

Lemma string_app_assoc (a b c : string) : (a +:+ b) +:+ c = a +:+ (b +:+ c).
Proof.
  induction a as [| x a IH]; [done |].
  by rewrite !string_app_cons, IH.
Qed.

Lemma string_app_nil_r (a : string) : a +:+ "" = a.
Proof.
  induction a as [| x a IH]; [done |].
  by rewrite string_app_cons, IH.
Qed.

(** [rstrip] drops a space at the end. *)
Lemma rstrip_app_space (s : string) : PyStr.rstrip (s +:+ " ") = PyStr.rstrip s.
Proof.
  induction s as [| x s IH]; [done |].
  rewrite string_app_cons. simpl. by rewrite IH.
Qed.

(** [rstrip] keeps a text that ends with a visible character. *)
Lemma rstrip_app_visible (s : string) (c : ascii) :
  PyStr.isspace c = false →
  PyStr.rstrip (s +:+ String c "") = s +:+ String c "".
Proof.
  intros Hc. induction s as [| x s IH].
  - rewrite string_app_nil_l. simpl. by rewrite Hc.
  - rewrite string_app_cons. simpl. rewrite IH. by destruct s.
Qed.

Lemma cell_mark_visible (s : string) :
  cell_mark s → ∃ c, s = String c "" ∧ PyStr.isspace c = false.
Proof. intros [-> | [-> | ->]]; eexists; split; reflexivity. Qed.

(** The cells followed by spaces are the cells joined by spaces, and a
    space. *)
Lemma cells_text_join (cells : list string) :
  cells ≠ [] → cells_text cells = PyStr.join " " cells +:+ " ".
Proof.
  induction cells as [| c cells IH]; [done |]. intros _.
  destruct cells as [| c' cells]; [done |].
  change (cells_text (c :: c' :: cells)) with (c +:+ " " +:+ cells_text (c' :: cells)).
  rewrite IH by done.
  change (PyStr.join " " (c :: c' :: cells))
    with (c +:+ " " +:+ PyStr.join " " (c' :: cells)).
  by rewrite !string_app_assoc.
Qed.

(** A text that ends with the cells of a row, joined by spaces, ends with a
    visible character when the cells are marks. *)
Lemma join_marks_visible (cells : list string) :
  cells ≠ [] → Forall cell_mark cells →
  ∃ s c, PyStr.join " " cells = s +:+ String c "" ∧ PyStr.isspace c = false.
Proof.
  induction cells as [| x cells IH]; [done |]. intros _ Hall.
  apply Forall_cons in Hall as [Hx Hall].
  destruct cells as [| x' cells].
  - destruct (cell_mark_visible x Hx) as (c & -> & Hc). by exists "", c.
  - destruct (IH ltac:(done) Hall) as (s & c & Hs & Hc).
    exists (x +:+ " " +:+ s), c. split; [| done].
    change (PyStr.join " " (x :: x' :: cells))
      with (x +:+ " " +:+ PyStr.join " " (x' :: cells)).
    by rewrite Hs, !string_app_assoc.
Qed.

(** The loop over the columns appends the cells of the row, in order. *)
Lemma display_cols_row (g : list (list string)) (row_idx : Z) (r : list string)
    (n : nat) (j : Z) (line : string) :
  g !! Z.to_nat row_idx = Some r → 0 ≤ row_idx →
  0 ≤ j → j + Z.of_nat n = Z.of_nat (length r) →
  display_cols g row_idx (seqZ j (Z.of_nat n)) line
  = Ok (line +:+ cells_text (drop (Z.to_nat j) r)).
Proof.
  intros Hr Hrow. revert j line. induction n as [| n IH]; intros j line Hj Hlen.
  - rewrite drop_ge by lia. simpl. by rewrite string_app_nil_r.
  - rewrite seqZ_cons by lia. cbn [display_cols].
    destruct (lookup_lt_is_Some_2 r (Z.to_nat j)) as [cell Hcell]; [lia |].
    assert (board_at g row_idx j = Ok cell) as ->.
    { unfold board_at. rewrite (getitem_nonneg g row_idx r) by done.
      rewrite ret_bind. by apply getitem_nonneg. }
    rewrite ret_bind. replace (Z.pred (Z.of_nat (S n))) with (Z.of_nat n) by lia.
    rewrite IH by lia. f_equal.
    rewrite (drop_S r cell (Z.to_nat j)) by done.
    replace (Z.to_nat (Z.succ j)) with (S (Z.to_nat j)) by lia.
    simpl. by rewrite !string_app_assoc.
Qed.

(** The line that [display] makes for a row of marks. *)
Lemma display_line_text (g : list (list string)) (row_num : Z) (r : list string) :
  g !! Z.to_nat (size - row_num) = Some r → row_num ≤ size →
  Z.of_nat (length r) = size → Forall cell_mark r →
  ∃ line,
    display_cols g (size - row_num) (PyStr.range size)
      (PyStr.format_d 2 row_num +:+ " ") = Ok line ∧
    PyStr.rstrip line = row_text g row_num.
Proof.
  intros Hr Hrow Hlen Hmarks. eexists. split.
  - unfold PyStr.range.
    replace size with (Z.of_nat (Z.to_nat size)) at 2 by (unfold size, BOARD_SIZE; lia).
    apply (display_cols_row g _ r); [done | lia | lia |].
    rewrite Hlen. unfold size, BOARD_SIZE. lia.
  - assert (r ≠ []) as Hne.
    { intros ->. simpl in Hlen. unfold size, BOARD_SIZE in Hlen. lia. }
    change (Z.to_nat 0) with 0%nat. rewrite drop_0, (cells_text_join r Hne).
    destruct (join_marks_visible r Hne Hmarks) as (s & c & Hs & Hc).
    unfold row_text. rewrite (list_lookup_total_correct _ _ _ Hr), Hs.
    rewrite <- !string_app_assoc, rstrip_app_space.
    by rewrite rstrip_app_visible.
Qed.

(** The rows of a well-shaped grid of marks, line by line. *)
Lemma display_rows_text (b : GomokuBoard) (row_nums : list Z) (lines : list string) :
  square (board b) = true →
  (∀ i r, board b !! i = Some r → Forall cell_mark r) →
  (∀ row_num, row_num ∈ row_nums → 1 ≤ row_num ≤ size) →
  display_rows b row_nums lines = Ok (lines ++ (row_text (board b) <$> row_nums)).
Proof.
  intros [Hlen Hrows]%square_spec Hmarks. revert lines.
  induction row_nums as [| row_num row_nums IH]; intros lines Hnums.
  - simpl. by rewrite app_nil_r.
  - assert (1 ≤ row_num ≤ size) as Hnum by (apply Hnums; left).
    destruct (lookup_lt_is_Some_2 (board b) (Z.to_nat (size - row_num))) as [r Hr]; [lia |].
    destruct (display_line_text (board b) row_num r Hr) as (line & Hline & Hstrip).
    { lia. } { rewrite (Hrows _ _ Hr). unfold size, BOARD_SIZE. lia. } { by eapply Hmarks. }
    cbn [display_rows]. rewrite Hline, ret_bind, Hstrip.
    rewrite IH by (intros n Hn; apply Hnums; by right).
    by rewrite <- app_assoc.
Qed.

(** After any calls of [place_stone] on a new board, every cell holds one of
    the three marks. *)
Lemma play_marks (ms : list move) (b : GomokuBoard) :
  play init ms = Ok b → ∀ i r, board b !! i = Some r → Forall cell_mark r.
Proof.
  apply (play_preserves (fun b => ∀ i r, board b !! i = Some r → Forall cell_mark r));
    [| done |].
  - clear. intros b col row stone ok b' Hsq IH Hplace i r Hr.
    destruct (place_stone_inv _ _ _ _ _ _ Hsq Hplace)
      as [[-> ->] | (-> & _ & Hst & ri & ci & _ & _ & _ & Hcell & ->)]; [by eapply IH |].
    simpl in Hr. unfold grid_set in Hr.
    apply cell_at_Some in Hcell as (_ & _ & r0 & Hr0 & _). rewrite Hr0 in Hr.
    apply list_lookup_insert_Some in Hr as [(Hi & Heq & _) | [_ Hr]]; [| by eapply IH].
    subst r. apply Forall_insert; [by eapply IH |].
    apply is_stone_spec in Hst as [-> | ->]; [right; by left | right; by right].
  - intros i r Hr. unfold init, board in Hr.
    apply lookup_replicate in Hr as [-> _].
    apply Forall_replicate. by left.
Qed.

(** On a well-shaped board [display] does not raise. *)
Lemma display_cols_Ok (g : list (list string)) (row_idx : Z) (r : list string)
    (line : string) :
  g !! Z.to_nat row_idx = Some r → 0 ≤ row_idx → Z.of_nat (length r) = size →
  ∃ line', display_cols g row_idx (PyStr.range size) line = Ok line'.
Proof.
  intros Hr Hrow Hlen. eexists. unfold PyStr.range.
  replace size with (Z.of_nat (Z.to_nat size)) at 1 by (unfold size, BOARD_SIZE; lia).
  apply (display_cols_row g _ r); [done | lia | lia |].
  rewrite Hlen. unfold size, BOARD_SIZE. lia.
Qed.

Lemma display_rows_Ok (b : GomokuBoard) (row_nums : list Z) (lines : list string) :
  square (board b) = true →
  (∀ row_num, row_num ∈ row_nums → 1 ≤ row_num ≤ size) →
  ∃ lines', display_rows b row_nums lines = Ok lines'.
Proof.
  intros [Hlen Hrows]%square_spec. revert lines.
  induction row_nums as [| row_num row_nums IH]; intros lines Hnums; [by eexists |].
  assert (1 ≤ row_num ≤ size) as Hnum by (apply Hnums; left).
  destruct (lookup_lt_is_Some_2 (board b) (Z.to_nat (size - row_num))) as [r Hr]; [lia |].
  destruct (display_cols_Ok (board b) (size - row_num) r
              (PyStr.format_d 2 row_num +:+ " ") Hr) as [line Hline].
  { lia. } { rewrite (Hrows _ _ Hr). unfold size, BOARD_SIZE. lia. }
  cbn [display_rows]. rewrite Hline, ret_bind.
  apply IH. intros n Hn. apply Hnums. by right.
Qed.

Lemma range_down_rows (row_num : Z) :
  row_num ∈ PyStr.range_down size 0 → 1 ≤ row_num ≤ size.
Proof.
  unfold PyStr.range_down. intros (i & -> & Hi%elem_of_seqZ)%list_elem_of_fmap. lia.
Qed.

Lemma display_Ok (b : GomokuBoard) :
  square (board b) = true → ∃ text, display b = Ok text.
Proof.
  intros Hsq. unfold display.
  destruct (display_rows_Ok b (PyStr.range_down size 0) [] Hsq range_down_rows)
    as [lines ->].
  by eexists.
Qed.

(** X19. After any calls of [place_stone] on a new board, [display] returns
    the rows from row [size] down to row 1, each as its number right-aligned
    in two columns, a space and its cells separated by single spaces with no
    space at the end, and then the line of the column letters. *)
Theorem display_after_play (ms : list move) :
  ∃ b, play init ms = Ok b ∧ display b = Ok (board_text (board b)).
Proof.
  destruct (play_steps ms init eq_refl) as (b & Hplay & Hsq & _).
  exists b. split; [done |]. unfold display, board_text.
  rewrite (display_rows_text b _ [] Hsq (play_marks ms b Hplay) range_down_rows).
  done.
Qed.

(** * The game *)

Lemma prefix_app (pat s : string) : String.prefix pat (pat +:+ s) = true.
Proof.
  induction pat as [| c pat IH]; [by destruct s |].
  rewrite string_app_cons. simpl. by destruct (ascii_dec c c).
Qed.

Lemma contains_prefix (pat s : string) :
  String.prefix pat s = true → PyStr.contains pat s = true.
Proof. intros H. destruct s; cbn [PyStr.contains]; by rewrite H. Qed.

Lemma contains_app_l (pat a s : string) :
  PyStr.contains pat s = true → PyStr.contains pat (a +:+ s) = true.
Proof.
  intros H. induction a as [| c a IH]; [done |].
  rewrite string_app_cons. cbn [PyStr.contains]. rewrite IH. apply orb_true_r.
Qed.

(** The message of a forfeit is recognised as one, whatever the name of the
    player. *)
Lemma forfeit_recognised (color_name display_name : string) (attempts : Z) :
  PyStr.contains GomokuGame.forfeit_pattern
    (message_text (LLMPlayer.Loses color_name display_name attempts)) = true.
Proof.
  unfold message_text.
  change (") loses - Failed to make valid move after ")
    with ((") " +:+ (GomokuGame.forfeit_pattern +:+ " after "))).
  do 3 apply contains_app_l. rewrite string_app_assoc.
  apply contains_app_l. rewrite string_app_assoc.
  apply contains_prefix, prefix_app.
Qed.

(** The message of a failure to get a move at the last attempt of a game
    turn is not. *)
Lemma no_move_not_forfeit :
  PyStr.contains GomokuGame.forfeit_pattern
    (message_text (LLMPlayer.FailedToGetMove (attempt_msg_of 3))) = false.
Proof. by vm_compute. Qed.

(** A win has a line to report. *)
Lemma win_has_line (b : GomokuBoard) (col : string) (row : Z) (stone : string) :
  square (board b) = true →
  check_win b col row stone = Ok true →
  ∃ p l, get_winning_line b col row stone = Ok (Some (p :: l)).
Proof.
  intros Hsq Hcw. unfold get_winning_line. rewrite Hcw, ret_bind.
  simpl negb. cbv iota.
  destruct (decide (valid_coord col row)) as [Hv | Hnv].
  - destruct (valid_indices col row Hv) as (ci & Hidx & Hr & Hc & _).
    destruct (check_win_on_board b col row stone _ _ Hsq Hv Hidx) as (w & Hcw' & Hiff).
    rewrite Hcw in Hcw'. injection Hcw' as <-.
    rewrite Hidx, ret_bind.
    destruct (get_winning_line_loop_spec b stone (size - row) ci Hsq Hr Hc col row directions)
      as [[_ Hall] | (l1 & d & l2 & kp & kn & _ & _ & Hp & Hn & H5 & ->)];
      [apply directions_unit | |].
    + exfalso. destruct (proj1 Hiff eq_refl) as (d & n & Hd & Htot & H5).
      specialize (Hall d n Hd Htot). lia.
    + unfold line_of. change 5%nat with (S 4). rewrite firstn_cons. by eexists _, _.
  - apply validate_invalid in Hnv. unfold check_win in Hcw. rewrite Hnv in Hcw.
    discriminate Hcw.
Qed.

(** On a well-shaped board [check_win] does not raise. *)
Lemma check_win_Ok (b : GomokuBoard) (col : string) (row : Z) (stone : string) :
  square (board b) = true → ∃ w, check_win b col row stone = Ok w.
Proof.
  intros Hsq. destruct (decide (valid_coord col row)) as [Hv | Hnv].
  - destruct (valid_indices col row Hv) as (ci & Hidx & _).
    destruct (check_win_on_board b col row stone _ _ Hsq Hv Hidx) as (w & Hcw & _).
    by exists w.
  - exists false. apply validate_invalid in Hnv. unfold check_win. by rewrite Hnv.
Qed.

Lemma side_to_play_S (n : nat) : side_to_play (S n) = other_side (side_to_play n).
Proof.
  unfold side_to_play. rewrite Nat.even_succ, <- Nat.negb_even.
  by destruct (Nat.even n).
Qed.

(** What a turn of [LLMPlayer.play_turn] with three retries gives: a stone
    of the player at the first playable answer, or the board as it was and
    a message that tells a forfeit from a move not got. *)
Lemma llm_play_turn_3 (self : LLMPlayer.t) (b : GomokuBoard)
    (get_move : Z → option (string * Z)) :
  square (board b) = true →
  is_stone (LLMPlayer.stone_color self) = true →
  (∃ msg k column row b',
      LLMPlayer.play_turn self b 3 get_move = Ok (true, msg, Some (column, row), b') ∧
      first_playable b get_move k column row ∧
      place_stone b column row (LLMPlayer.stone_color self) = Ok (true, b'))
  ∨
  (∃ msg,
      LLMPlayer.play_turn self b 3 get_move = Ok (false, msg, None, b) ∧
      none_playable b get_move ∧
      ((PyStr.contains GomokuGame.forfeit_pattern (message_text msg) = true ∧
        is_Some (get_move 3))
       ∨
       (PyStr.contains GomokuGame.forfeit_pattern (message_text msg) = false ∧
        msg = LLMPlayer.FailedToGetMove (LLMPlayer.Retry 3) ∧ get_move 3 = None))).
Proof.
  intros Hsq Hst. unfold LLMPlayer.play_turn, LLMPlayer.range.
  destruct (play_turn_loop_spec self b 3 get_move 4 0 Hsq Hst eq_refl)
    as [(k & c & r & b' & Hk & Hbefore & Hmove & Hplayable & Hplace & Hloop)
       | [Hnone Hloop]].
  - left. eexists _, k, c, r, b'. split; [exact Hloop |]. split; [| exact Hplace].
    split; [exact Hk |]. split; [exact Hmove |]. split; [exact Hplayable |].
    intros j Hj. apply Hbefore. lia.
  - right. eexists. split; [exact Hloop |]. split; [exact Hnone |].
    destruct (get_move 3) as [answer |].
    + left. split; [apply forfeit_recognised | by exists answer].
    + right. split; [apply no_move_not_forfeit | done].
Qed.

Ltac game_run :=
  cbv [GomokuGame.play_turn GomokuGame.try_except GomokuGame.play_turn_body
       GomokuGame.bind GomokuGame.get GomokuGame.lift GomokuGame.modify GomokuGame.ret
       GomokuGame.record_move GomokuGame.check_game_end GomokuGame.check_game_end_win
       GomokuGame.switch_player GomokuGame.display_game_state].

Ltac game_state :=
  cbn [GomokuGame.board GomokuGame.black_player GomokuGame.white_player
       GomokuGame.current_player GomokuGame.game_over GomokuGame.winner
       GomokuGame.black_info GomokuGame.white_info GomokuGame.moves GomokuGame.result
       GomokuGame.set_board GomokuGame.set_current_player GomokuGame.set_game_over
       GomokuGame.set_winner GomokuGame.set_moves GomokuGame.set_result
       GomokuGame.set_result_keys GomokuGame.current
       GomokuGame.winner_name GomokuGame.winner_color GomokuGame.total_moves
       GomokuGame.winning_line GomokuGame.game_end_reason].

Lemma current_set_board (b : GomokuBoard) (s : GomokuGame.t) :
  GomokuGame.current (GomokuGame.set_board b s) = GomokuGame.current s.
Proof. reflexivity. Qed.
Lemma current_set_moves (ms : list GomokuGame.move_record) (s : GomokuGame.t) :
  GomokuGame.current (GomokuGame.set_moves ms s) = GomokuGame.current s.
Proof. reflexivity. Qed.
Lemma current_set_game_over (v : bool) (s : GomokuGame.t) :
  GomokuGame.current (GomokuGame.set_game_over v s) = GomokuGame.current s.
Proof. reflexivity. Qed.
Lemma current_set_winner (w : option string) (s : GomokuGame.t) :
  GomokuGame.current (GomokuGame.set_winner w s) = GomokuGame.current s.
Proof. reflexivity. Qed.

Ltac game_step :=
  cbv beta iota zeta; game_state;
  repeat first [ rewrite current_set_board | rewrite current_set_moves
               | rewrite current_set_game_over | rewrite current_set_winner ].

(** The invariant after a move of the side to play. *)
Lemma game_inv_moved (black white : GomokuGame.player_info) (s s' : GomokuGame.t)
    (col : string) (row : Z) :
  game_inv black white s →
  GomokuGame.game_over s = false →
  place_stone (GomokuGame.board s) col row
    (side_stone (side_to_play (length (GomokuGame.moves s))))
  = Ok (true, GomokuGame.board s') →
  GomokuGame.black_player s' = GomokuGame.black_player s →
  GomokuGame.white_player s' = GomokuGame.white_player s →
  GomokuGame.black_info s' = GomokuGame.black_info s →
  GomokuGame.white_info s' = GomokuGame.white_info s →
  GomokuGame.moves s' =
    GomokuGame.moves s ++ [recorded_move black white (length (GomokuGame.moves s)) col row] →
  (GomokuGame.game_over s' = false →
   GomokuGame.current_player s' = side_to_play (length (GomokuGame.moves s')) ∧
   GomokuGame.winner s' = None ∧ GomokuGame.result s' = no_result ∧
   is_board_full (GomokuGame.board s') = false) →
  (GomokuGame.game_over s' = true → ended s') →
  game_inv black white s'.
Proof.
  intros [Hsq Hblack Hwhite Hbi Hwi Hhist Hrec Hrebuild Hrun _] Hover Hplace
    Hb' Hw' Hbi' Hwi' Hmoves Hrun' Hover'.
  destruct (place_stone_inv _ _ _ _ _ _ Hsq Hplace)
    as [[Hf _] | (_ & Hv & _ & ri & ci & Hidx & Hri & Hci & Hcell & Hboard)];
    [discriminate Hf |].
  split; try congruence.
  - rewrite Hboard. by apply grid_set_square.
  - rewrite Hboard, Hmoves, fmap_app. simpl. by rewrite Hhist.
  - intros i m. rewrite Hmoves. intros [Hm | [Hi Hm]]%lookup_app_Some.
    + by apply Hrec.
    + destruct (i - length (GomokuGame.moves s))%nat as [| k] eqn:Hk; [| done].
      injection Hm as <-. replace i with (length (GomokuGame.moves s)) by lia.
      unfold recorded_move. simpl. repeat split.
      by destruct (side_to_play (length (GomokuGame.moves s))).
  - rewrite Hboard at 1. simpl move_history.
    rewrite (play_app _ _ _ _ Hrebuild). simpl. by rewrite Hplace.
  - exact Hrun'.
  - exact Hover'.
Qed.

(** The invariant after a turn in which no move is made and the game ends. *)
Lemma game_inv_stopped (black white : GomokuGame.player_info) (s s' : GomokuGame.t) :
  game_inv black white s →
  GomokuGame.board s' = GomokuGame.board s →
  GomokuGame.black_player s' = GomokuGame.black_player s →
  GomokuGame.white_player s' = GomokuGame.white_player s →
  GomokuGame.black_info s' = GomokuGame.black_info s →
  GomokuGame.white_info s' = GomokuGame.white_info s →
  GomokuGame.moves s' = GomokuGame.moves s →
  GomokuGame.game_over s' = true →
  ended s' →
  game_inv black white s'.
Proof.
  intros [Hsq Hblack Hwhite Hbi Hwi Hhist Hrec Hrebuild Hrun _]
    Hb Hb' Hw' Hbi' Hwi' Hmoves Hover Hended.
  split; try congruence.
  intros i m. rewrite Hmoves. by apply Hrec.
Qed.

Ltac not_error H :=
  unfold ended_by_error; game_state; rewrite ?H; intros [m Hm]; discriminate Hm.

Ltac no_forfeit H :=
  unfold forfeit_turns; game_state; rewrite ?H; reflexivity.

(** A turn of a game that is not over: it ends without raising and keeps
    the invariant.  Either the first playable answer is played and
    recorded; or no answer can be played, nothing is changed but the result,
    and the game is over: by a forfeit when the last answer is a move, and
    then the turn returns [True], by an error when there is none, and then
    it returns [False]. *)
Lemma play_turn_step (black white : GomokuGame.player_info) (s : GomokuGame.t)
    (get_move : Z → option (string * Z)) :
  game_inv black white s →
  GomokuGame.game_over s = false →
  ∃ ok s',
    GomokuGame.play_turn get_move s = (GomokuGame.Done ok, s') ∧
    game_inv black white s' ∧
    ((ok = true ∧ forfeit_turns s' = 0 ∧ ¬ ended_by_error s' ∧
      ∃ k col row,
        first_playable (GomokuGame.board s) get_move k col row ∧
        GomokuGame.moves s' =
        GomokuGame.moves s ++
          [recorded_move black white (length (GomokuGame.moves s)) col row])
     ∨
     (GomokuGame.board s' = GomokuGame.board s ∧
      GomokuGame.moves s' = GomokuGame.moves s ∧
      GomokuGame.game_over s' = true ∧
      none_playable (GomokuGame.board s) get_move ∧
      ((ok = true ∧ forfeit_turns s' = 1 ∧ ¬ ended_by_error s' ∧ is_Some (get_move 3))
       ∨
       (ok = false ∧ forfeit_turns s' = 0 ∧ ended_by_error s' ∧ get_move 3 = None)))).
Proof.
  intros Hinv Hover.
  pose proof Hinv as [Hsq Hblack Hwhite Hbi Hwi Hhist Hrec Hrebuild Hrun _].
  destruct (Hrun Hover) as (Hcur & Hwin & Hres & Hfull).
  destruct (display_Ok _ Hsq) as [text Htext].
  set (n := length (GomokuGame.moves s)) in *.
  set (c := side_to_play n) in *.
  assert (LLMPlayer.stone_color (GomokuGame.current s) = side_stone c) as Hstone.
  { unfold GomokuGame.current. rewrite Hcur. destruct c; [by rewrite Hblack | by rewrite Hwhite]. }
  assert (is_stone (side_stone c) = true) as Hlegal by (by destruct c).
  destruct (llm_play_turn_3 (GomokuGame.current s) (GomokuGame.board s) get_move Hsq)
    as [(msg & k & col & row & b' & Hturn & Hfirst & Hplace)
       | (msg & Hturn & Hnone & Hmsg)];
    [by rewrite Hstone | |].
  - rewrite Hstone in Hplace.
    destruct (place_stone_inv _ _ _ _ _ _ Hsq Hplace)
      as [[Hf _] | (_ & Hv & _ & ri & ci & Hidx & Hri & Hci & Hcell & Hb')];
      [discriminate Hf |].
    assert (square (board b') = true) as Hsq' by (rewrite Hb'; by apply grid_set_square).
    assert (last (move_history b') = Some (col, row, side_stone c)) as Hlast.
    { rewrite Hb'. simpl. apply last_snoc. }
    assert ((if String.eqb (side_stone c) "B" then "Black" else "White") = side_name c)
      as Hname by (by destruct c).
    assert ((if String.eqb (side_stone c) "B"
             then GomokuGame.black_info s else GomokuGame.white_info s)
            = (if String.eqb (side_stone c) "B" then black else white)) as Hinfo
      by (by rewrite Hbi, Hwi).
    destruct (check_win_Ok b' col row (side_stone c) Hsq') as [w Hcw].
    destruct w; [| destruct (is_board_full b') eqn:Hfull'].
    + destruct (win_has_line b' col row (side_stone c) Hsq' Hcw) as (p & l & Hline).
      eexists true, _. split.
      { game_run. rewrite Htext. game_step. rewrite Hturn. game_step.
        rewrite ?Hstone, Hcw. game_step. rewrite ?Hstone, Hline. game_step.
        rewrite Hname, Hinfo. reflexivity. }
      split.
      2: { left. split; [reflexivity |]. split; [no_forfeit Hres |].
           split; [not_error Hres |]. exists k, col, row. by split. }
      apply (game_inv_moved black white s _ col row Hinv Hover); try reflexivity.
      * exact Hplace.
      * intros Hf. discriminate Hf.
      * intros _. apply (ended_win _ c col row (p :: l)); try done;
          try (game_state; by rewrite length_app, Nat.add_1_r).
    + eexists true, _. split.
      { game_run. rewrite Htext. game_step. rewrite Hturn. game_step.
        rewrite ?Hstone, Hcw. game_step. rewrite Hfull'. game_step.
        rewrite Hinfo. reflexivity. }
      split.
      2: { left. split; [reflexivity |]. split; [no_forfeit Hres |].
           split; [not_error Hres |]. exists k, col, row. by split. }
      apply (game_inv_moved black white s _ col row Hinv Hover); try reflexivity.
      * exact Hplace.
      * intros Hf. discriminate Hf.
      * intros _. apply ended_draw; [done | done |].
        game_state. by rewrite Hres.
    + eexists true, _. split.
      { game_run. rewrite Htext. game_step. rewrite Hturn. game_step.
        rewrite ?Hstone, Hcw. game_step. rewrite Hfull'. game_step.
        rewrite Hinfo, Hcur. reflexivity. }
      split.
      2: { left. split; [reflexivity |]. split; [no_forfeit Hres |].
           split; [not_error Hres |]. exists k, col, row. by split. }
      apply (game_inv_moved black white s _ col row Hinv Hover); try reflexivity.
      * exact Hplace.
      * intros _. game_state. rewrite length_app, Nat.add_1_r, side_to_play_S.
        repeat split; try done; by destruct c.
      * game_state. rewrite Hover. intros Hf. discriminate Hf.
  - destruct Hmsg as [[Hforfeit Hlast] | (Herror & -> & Hlast)].
    + eexists true, _. split.
      { game_run. rewrite Htext. game_step. rewrite Hturn. game_step.
        rewrite Hforfeit. game_step. rewrite ?Hstone. reflexivity. }
      split.
      2: { right. split; [reflexivity |]. split; [reflexivity |].
           split; [reflexivity |]. split; [exact Hnone |]. left.
           split; [reflexivity |]. split; [reflexivity |].
           split; [not_error Hres | exact Hlast]. }
      apply (game_inv_stopped black white s); try reflexivity; [done |].
      apply (ended_forfeit _ c); [done | done | by destruct c |].
      game_state. rewrite Hres. by destruct c.
    + eexists false, _. split.
      { game_run. rewrite Htext. game_step. rewrite Hturn. game_step.
        rewrite Herror. game_step. reflexivity. }
      split.
      2: { right. split; [reflexivity |]. split; [reflexivity |].
           split; [reflexivity |]. split; [exact Hnone |]. right.
           split; [reflexivity |]. split; [reflexivity |].
           split; [| exact Hlast]. eexists. reflexivity. }
      apply (game_inv_stopped black white s); try reflexivity; [done |].
      apply ended_error; [done | done |]. game_state. by rewrite Hres.
Qed.

Lemma new_game_inv (black white : GomokuGame.player_info) :
  game_inv black white (GomokuGame.new_game black white).
Proof.
  split; try reflexivity.
  - intros i m Hm. cbn in Hm. by rewrite lookup_nil in Hm.
  - intros _. by repeat split.
  - intros Hf. discriminate Hf.
Qed.

Lemma display_game_state_Ok (s : GomokuGame.t) :
  square (board (GomokuGame.board s)) = true →
  GomokuGame.display_game_state s = (GomokuGame.Done tt, s).
Proof.
  intros Hsq. destruct (display_Ok _ Hsq) as [text Htext].
  cbv [GomokuGame.display_game_state GomokuGame.bind GomokuGame.get GomokuGame.lift
       GomokuGame.ret].
  by rewrite Htext.
Qed.

(** The recorded moves still follow the answers after one more move. *)
Lemma moves_follow_moved (black white : GomokuGame.player_info)
    (answers : Z → Z → option (string * Z)) (s s' : GomokuGame.t)
    (k : Z) (col : string) (row : Z) :
  game_inv black white s → game_inv black white s' →
  moves_follow answers s →
  first_playable (GomokuGame.board s)
    (answers (Z.of_nat (length (GomokuGame.moves s)))) k col row →
  GomokuGame.moves s' =
    GomokuGame.moves s ++ [recorded_move black white (length (GomokuGame.moves s)) col row] →
  moves_follow answers s'.
Proof.
  intros Hinv Hinv' Hfollow Hfirst Hmoves i m.
  assert (move_history (GomokuGame.board s') =
          move_history (GomokuGame.board s) ++
            [(col, row, side_stone (side_to_play (length (GomokuGame.moves s))))]) as Hhist.
  { rewrite (inv_history _ _ _ Hinv'), (inv_history _ _ _ Hinv), Hmoves, fmap_app.
    reflexivity. }
  assert (length (move_history (GomokuGame.board s)) = length (GomokuGame.moves s)) as Hlen.
  { by rewrite (inv_history _ _ _ Hinv), length_fmap. }
  unfold board_after. rewrite Hmoves, Hhist.
  intros [Hm | [Hi Hm]]%lookup_app_Some.
  - apply lookup_lt_Some in Hm as Hlt.
    rewrite take_app_le by lia. by apply Hfollow.
  - destruct (i - length (GomokuGame.moves s))%nat as [| j] eqn:Hj; [| done].
    injection Hm as <-. replace i with (length (GomokuGame.moves s)) by lia.
    rewrite take_app_length' by done.
    exists (GomokuGame.board s), k. split; [apply (inv_rebuild _ _ _ Hinv) | exact Hfirst].
Qed.

(** The loop of [play_game] ends without raising and within its fuel, with
    the game over or [max_moves] turns counted; the count is the number of
    moves made, and one more after a forfeit. *)
Lemma play_game_loop_spec (black white : GomokuGame.player_info) (max_moves : Z)
    (answers : Z → Z → option (string * Z)) (fuel : nat) :
  ∀ (move_count : Z) (s : GomokuGame.t),
    game_inv black white s →
    moves_follow answers s →
    end_follows answers s →
    move_count = Z.of_nat (length (GomokuGame.moves s)) + forfeit_turns s →
    move_count ≤ Z.max 0 max_moves →
    (ended_by_error s → move_count < max_moves) →
    (Z.to_nat (max_moves - move_count) < fuel)%nat →
    ∃ n s',
      GomokuGame.play_game_loop fuel max_moves answers move_count s
      = (GomokuGame.Done n, s') ∧
      game_inv black white s' ∧
      moves_follow answers s' ∧
      end_follows answers s' ∧
      n = Z.of_nat (length (GomokuGame.moves s')) + forfeit_turns s' ∧
      n ≤ Z.max 0 max_moves ∧
      (GomokuGame.game_over s' = true ∨ max_moves ≤ n) ∧
      (ended_by_error s' → n < max_moves).
Proof.
  induction fuel as [| fuel IH];
    intros move_count s Hinv Hfollow Hend Hcount Hmax Herr Hfuel; [lia |].
  cbn [GomokuGame.play_game_loop]. unfold GomokuGame.bind at 1, GomokuGame.get.
  destruct (GomokuGame.game_over s) eqn:Hover; cbn [negb andb].
  { exists move_count, s. unfold GomokuGame.ret.
    split; [reflexivity |]. split; [exact Hinv |]. split; [exact Hfollow |].
    split; [exact Hend |]. split; [exact Hcount |]. split; [exact Hmax |].
    split; [by left | exact Herr]. }
  destruct (Z.ltb_spec move_count max_moves) as [Hlt | Hge].
  2: { exists move_count, s. unfold GomokuGame.ret.
       split; [reflexivity |]. split; [exact Hinv |]. split; [exact Hfollow |].
       split; [exact Hend |]. split; [exact Hcount |]. split; [exact Hmax |].
       split; [by right | exact Herr]. }
  unfold GomokuGame.bind at 1.
  rewrite (display_game_state_Ok s) by apply Hinv.
  assert (forfeit_turns s = 0) as Hbonus.
  { unfold forfeit_turns. destruct (inv_running _ _ _ Hinv Hover) as (_ & _ & -> & _).
    reflexivity. }
  assert (move_count = Z.of_nat (length (GomokuGame.moves s))) as Hturns by lia.
  destruct (play_turn_step black white s (answers move_count) Hinv Hover)
    as (ok & s1 & Hturn & Hinv1 &
        [(-> & Hno & Hnoerr & k & col & row & Hfirst & Hmoves)
        | (Hboard & Hmoves & Hover1 & Hnone &
           [(-> & Hone & Hnoerr & Hlast) | (-> & Hno & Herr1 & Hlast)])]).
  - unfold GomokuGame.bind at 1. rewrite Hturn. cbn [negb].
    apply IH; [exact Hinv1 | | | | lia | | lia].
    + apply (moves_follow_moved black white answers s s1 k col row); try done.
      by rewrite <- Hturns.
    + split; [intros Hf; rewrite Hno in Hf; discriminate Hf | intros Hf; by destruct Hnoerr].
    + rewrite Hmoves, length_app, Hno. simpl. lia.
    + intros Hf. by destruct Hnoerr.
  - unfold GomokuGame.bind at 1. rewrite Hturn. cbn [negb].
    apply IH; [exact Hinv1 | | | | lia | | lia].
    + intros i m. unfold board_after. rewrite Hmoves, Hboard. apply Hfollow.
    + unfold end_follows. rewrite Hmoves, Hboard, <- Hturns.
      split; [by intros _ | intros Hf; by destruct Hnoerr].
    + rewrite Hmoves, Hone. lia.
    + intros Hf. by destruct Hnoerr.
  - unfold GomokuGame.bind at 1. rewrite Hturn. cbn [negb].
    exists move_count, s1. unfold GomokuGame.ret.
    split; [reflexivity |]. split; [exact Hinv1 |].
    split; [intros i m; unfold board_after; rewrite Hmoves, Hboard; apply Hfollow |].
    split.
    { unfold end_follows. rewrite Hmoves, Hboard, <- Hturns.
      split; [intros Hf; rewrite Hno in Hf; discriminate Hf | by intros _]. }
    split; [rewrite Hmoves, Hno; lia |]. split; [lia |].
    split; [by left | by intros _].
Qed.

(** The text of a result that names a winner. *)
Lemma wins_text (c : GomokuGame.side) :
  (if negb (String.eqb (side_stone c) "")
   then GomokuGame.ret
          ((if String.eqb (side_stone c) "B" then "Black" else "White") +:+ " wins!")
   else GomokuGame.ret "") = GomokuGame.ret (side_name c +:+ " wins!").
Proof. by destruct c. Qed.

(** A game played from its creation: the loop leaves a state [s1] that
    keeps the invariant and follows the answers; [play_game] returns it, or
    when it is not over writes the draw by the maximum of moves into its
    result. *)
Lemma play_game_spec (black white : GomokuGame.player_info) (max_moves : Z)
    (answers : Z → Z → option (string * Z)) :
  ∃ text s' s1 n,
    GomokuGame.play_game max_moves answers (GomokuGame.new_game black white)
    = (GomokuGame.Done text, s') ∧
    game_inv black white s1 ∧
    moves_follow answers s1 ∧
    end_follows answers s1 ∧
    n = Z.of_nat (length (GomokuGame.moves s1)) + forfeit_turns s1 ∧
    n ≤ Z.max 0 max_moves ∧
    (ended_by_error s1 → n < max_moves) ∧
    ((GomokuGame.game_over s1 = true ∧ s' = s1 ∧
      text = match GomokuGame.winner s1 with
             | Some w => (if String.eqb w "B" then "Black" else "White") +:+ " wins!"
             | None => if n >=? max_moves then "Draw - Maximum moves reached"
                       else "Game ended due to error"
             end)
     ∨
     (GomokuGame.game_over s1 = false ∧ max_moves ≤ n ∧
      s' = GomokuGame.set_result_keys (Some "Draw") None GomokuGame.MaximumMoves s1 ∧
      text = "Draw - Maximum moves reached")).
Proof.
  destruct (play_game_loop_spec black white max_moves answers (S (Z.to_nat max_moves)) 0
              (GomokuGame.new_game black white))
    as (n & s1 & Hloop & Hinv & Hfollow & Hend & Hn & Hmax & Hstop & Herr).
  - apply new_game_inv.
  - intros i m Hm. cbn in Hm. by rewrite lookup_nil in Hm.
  - split; [intros Hf; discriminate Hf | intros [m Hm]; discriminate Hm].
  - reflexivity.
  - lia.
  - intros [m Hm]. discriminate Hm.
  - lia.
  - unfold GomokuGame.play_game. unfold GomokuGame.bind at 1. rewrite Hloop.
    unfold GomokuGame.bind at 1. rewrite (display_game_state_Ok s1) by apply Hinv.
    unfold GomokuGame.bind at 1, GomokuGame.get.
    destruct (GomokuGame.game_over s1) eqn:Hover.
    + destruct (inv_over _ _ _ Hinv Hover)
        as [c col row l _ _ _ Hw Hres | _ Hw Hres | c _ _ Hw Hres | _ Hw Hres];
        rewrite Hw.
      * eexists _, s1, s1, n. split; [by destruct c |].
        repeat (split; [done |]). left. split; [done |]. split; [done |]. by rewrite Hw.
      * rewrite Hres. cbn [GomokuGame.winner_name].
        destruct (n >=? max_moves) eqn:Hcmp.
        -- eexists _, s1, s1, n. split; [reflexivity |].
           repeat (split; [done |]). left. split; [done |]. split; [done |].
           by rewrite Hw, Hcmp.
        -- eexists _, s1, s1, n. split; [reflexivity |].
           repeat (split; [done |]). left. split; [done |]. split; [done |].
           by rewrite Hw, Hcmp.
      * eexists _, s1, s1, n. split; [by destruct c |].
        repeat (split; [done |]). left. split; [done |]. split; [done |]. by rewrite Hw.
      * rewrite Hres. cbn [GomokuGame.winner_name].
        destruct (n >=? max_moves) eqn:Hcmp.
        -- eexists _, s1, s1, n. split; [reflexivity |].
           repeat (split; [done |]). left. split; [done |]. split; [done |].
           by rewrite Hw, Hcmp.
        -- eexists _, s1, s1, n. split; [reflexivity |].
           repeat (split; [done |]). left. split; [done |]. split; [done |].
           by rewrite Hw, Hcmp.
    + destruct (inv_running _ _ _ Hinv Hover) as (_ & Hw & Hres & _).
      destruct Hstop as [Hf | Hge]; [discriminate Hf |].
      rewrite Hw, Hres. cbn [GomokuGame.winner_name no_result].
      assert ((n >=? max_moves) = true) as -> by lia.
      eexists _, _, s1, n. split; [reflexivity |].
      repeat (split; [done |]). right.
      split; [exact Hover |]. split; [exact Hge |]. split; reflexivity.
Qed.

(** ** A whole game *)

Lemma forfeit_turns_range (s : GomokuGame.t) : 0 ≤ forfeit_turns s ≤ 1.
Proof.
  unfold forfeit_turns.
  destruct (GomokuGame.game_end_reason (GomokuGame.result s)) as [[] |]; lia.
Qed.

Lemma count_stones_le (b : GomokuBoard) :
  square (board b) = true → Z.of_nat (count_stones (board b)) ≤ size * size.
Proof.
  intros [Hlen Hrows]%square_spec.
  pose proof (length_concat_square _ _ Hrows) as Hcat. rewrite Hlen in Hcat.
  pose proof (length_filter (λ cell, cell ≠ EMPTY) (concat (board b))) as Hle.
  unfold count_stones. rewrite Hcat in Hle. unfold size, BOARD_SIZE in *. lia.
Qed.

(** The stones on the board of a game are as many as its recorded moves. *)
Lemma game_stones (black white : GomokuGame.player_info) (s : GomokuGame.t) :
  game_inv black white s →
  count_stones (board (GomokuGame.board s)) = length (GomokuGame.moves s).
Proof.
  intros Hinv.
  destruct (play_steps (move_history (GomokuGame.board s)) init eq_refl)
    as (b' & Hplay & _ & _ & _ & Hcount).
  rewrite (inv_rebuild _ _ _ Hinv) in Hplay. injection Hplay as <-.
  rewrite (Hcount init_count), (inv_history _ _ _ Hinv), length_fmap. reflexivity.
Qed.

Lemma game_full (black white : GomokuGame.player_info) (s : GomokuGame.t) :
  game_inv black white s →
  (is_board_full (GomokuGame.board s) = true ↔
   Z.of_nat (length (GomokuGame.moves s)) = 225) ∧
  Z.of_nat (length (GomokuGame.moves s)) ≤ 225.
Proof.
  intros Hinv. pose proof (inv_square _ _ _ Hinv) as Hsq.
  rewrite <- (game_stones black white s Hinv). split.
  - apply (is_board_full_count _ Hsq).
  - apply (count_stones_le _ Hsq).
Qed.

Ltac play_game_cases black white max_moves answers Hplay :=
  destruct (play_game_spec black white max_moves answers)
    as (text0 & s0 & s1 & n & Hplay0 & Hinv & Hfollow & Hend & Hn & Hmax & Herr & Hcases);
  rewrite Hplay in Hplay0; injection Hplay0 as -> ->;
  pose proof (forfeit_turns_range s1) as Hrange;
  destruct Hcases as [(Hover & -> & ->) | (Hover & Hge & -> & ->)].

(** X20. A game played from its creation, whatever the bound on the moves
    and whatever the models answer (a column and a row, or nothing), runs to
    its end: no exception leaves [play_game].  At the end the history of the
    board is the recorded moves in their order, the calls of the history
    made on a new board give the board, the recorded moves are no more than
    [max_moves], and the result names a winner entry and a reason, which is
    never the one of an exception, and counts the recorded moves. *)
Theorem play_game_ends (black white : GomokuGame.player_info) (max_moves : Z)
    (answers : Z → Z → option (string * Z)) :
  ∃ text s',
    GomokuGame.play_game max_moves answers (GomokuGame.new_game black white)
    = (GomokuGame.Done text, s') ∧
    move_history (GomokuGame.board s') =
      (fun m => (GomokuGame.column m, GomokuGame.row m, GomokuGame.player m))
        <$> GomokuGame.moves s' ∧
    play init (move_history (GomokuGame.board s')) = Ok (GomokuGame.board s') ∧
    Z.of_nat (length (GomokuGame.moves s')) ≤ Z.max 0 max_moves ∧
    GomokuGame.total_moves (GomokuGame.result s') = Z.of_nat (length (GomokuGame.moves s')) ∧
    is_Some (GomokuGame.winner_name (GomokuGame.result s')) ∧
    ∃ reason, GomokuGame.game_end_reason (GomokuGame.result s') = Some reason ∧
              ∀ e, reason ≠ GomokuGame.EndedByException e.
Proof.
  destruct (play_game_spec black white max_moves answers)
    as (text & s' & s1 & n & Hplay & Hinv & _ & _ & Hn & Hmax & _ & Hcases).
  pose proof (forfeit_turns_range s1) as Hrange.
  exists text, s'. split; [exact Hplay |].
  destruct Hcases as [(Hover & -> & _) | (_ & _ & -> & _)].
  - split; [apply (inv_history _ _ _ Hinv) |]. split; [apply (inv_rebuild _ _ _ Hinv) |].
    split; [lia |].
    destruct (inv_over _ _ _ Hinv Hover)
      as [c col row l _ _ _ _ Hres | _ _ Hres | c _ _ _ Hres | _ _ Hres];
      rewrite Hres; cbn [GomokuGame.total_moves GomokuGame.winner_name
                         GomokuGame.game_end_reason];
      (split; [reflexivity |]); (split; [by eexists |]);
      eexists; (split; [reflexivity |]); intros e He; discriminate He.
  - split; [apply (inv_history _ _ _ Hinv) |]. split; [apply (inv_rebuild _ _ _ Hinv) |].
    split; [cbn [GomokuGame.set_result_keys GomokuGame.set_result GomokuGame.moves]; lia |].
    split; [reflexivity |]. split; [by eexists |].
    eexists. split; [reflexivity |]. intros e He. discriminate He.
Qed.

(** X21. The record of the move [i] (from 0) of a game that was played has
    the number [i + 1]; black made the moves of even [i] and white the
    others; the name is the display name of the model of that colour, and
    the coordinate is the column followed by the row in decimal. *)
Theorem play_game_records (black white : GomokuGame.player_info) (max_moves : Z)
    (answers : Z → Z → option (string * Z)) (text : string) (s' : GomokuGame.t)
    (i : nat) (m : GomokuGame.move_record) :
  GomokuGame.play_game max_moves answers (GomokuGame.new_game black white)
  = (GomokuGame.Done text, s') →
  GomokuGame.moves s' !! i = Some m →
  GomokuGame.move_number m = Z.of_nat i + 1 ∧
  GomokuGame.player m = (if Nat.even i then "B" else "W") ∧
  GomokuGame.player_name m = GomokuGame.display_name (if Nat.even i then black else white) ∧
  GomokuGame.coordinate m = GomokuGame.column m +:+ PyStr.str_of_int (GomokuGame.row m).
Proof.
  intros Hplay Hm.
  assert (∃ s1, game_inv black white s1 ∧ GomokuGame.moves s' = GomokuGame.moves s1)
    as (s1 & Hinv & Hmoves).
  { play_game_cases black white max_moves answers Hplay; by exists s1. }
  rewrite Hmoves in Hm.
  destruct (inv_records _ _ _ Hinv i m Hm) as (Hnum & Hplayer & Hname & Hcoord).
  unfold side_to_play in Hplayer, Hname.
  split; [exact Hnum |]. split; [| split; [| exact Hcoord]].
  - rewrite Hplayer. by destruct (Nat.even i).
  - rewrite Hname. by destruct (Nat.even i).
Qed.

Lemma play_game_records_witness :
  let m := GomokuGame.mk_move 3 "B" "Model B" "H" 9 "H9" in
  GomokuGame.move_number m = Z.of_nat 2 + 1 ∧
  GomokuGame.player m = (if Nat.even 2 then "B" else "W") ∧
  GomokuGame.player_name m =
    GomokuGame.display_name (if Nat.even 2 then black_model else white_model) ∧
  GomokuGame.coordinate m = GomokuGame.column m +:+ PyStr.str_of_int (GomokuGame.row m).
Proof.
  apply (play_game_records black_model white_model 225 (scripted line_script)
           "Black wins!" (snd line_game) 2).
  - vm_compute. reflexivity.
  - vm_compute. reflexivity.
Defined.

(** X22. Every recorded move of a game that was played is the first answer
    of its turn that could be played: on the board of the moves before it,
    the answer at some attempt from 0 to 3 is its column and row, a
    coordinate of the board whose cell holds no stone there, and no answer
    at an attempt before could be played. *)
Theorem play_game_moves_follow_answers (black white : GomokuGame.player_info)
    (max_moves : Z) (answers : Z → Z → option (string * Z)) (text : string)
    (s' : GomokuGame.t) (i : nat) (m : GomokuGame.move_record) :
  GomokuGame.play_game max_moves answers (GomokuGame.new_game black white)
  = (GomokuGame.Done text, s') →
  GomokuGame.moves s' !! i = Some m →
  ∃ b k,
    play init (take i (move_history (GomokuGame.board s'))) = Ok b ∧
    0 ≤ k ≤ 3 ∧
    answers (Z.of_nat i) k = Some (GomokuGame.column m, GomokuGame.row m) ∧
    valid_coord (GomokuGame.column m) (GomokuGame.row m) ∧
    get_stone b (GomokuGame.column m) (GomokuGame.row m) = Ok None ∧
    ∀ j, 0 ≤ j < k → ¬ playable b (answers (Z.of_nat i) j).
Proof.
  intros Hplay Hm.
  assert (∃ s1, moves_follow answers s1 ∧ GomokuGame.moves s' = GomokuGame.moves s1 ∧
                GomokuGame.board s' = GomokuGame.board s1)
    as (s1 & Hfollow1 & Hmoves & Hboard).
  { play_game_cases black white max_moves answers Hplay; by exists s1. }
  rewrite Hmoves in Hm. rewrite Hboard.
  destruct (Hfollow1 i m Hm) as (b & k & Hb & Hk & Hmove & Hplayable & Hbefore).
  exists b, k. split; [exact Hb |]. split; [exact Hk |]. split; [exact Hmove |].
  destruct Hplayable as (col & row & Heq & Hv & Hget).
  rewrite Hmove in Heq. injection Heq as <- <-.
  split; [exact Hv |]. split; [exact Hget | exact Hbefore].
Qed.

Lemma play_game_moves_follow_answers_witness :
  ∃ b k,
    play init (take 2 (move_history (GomokuGame.board (snd line_game)))) = Ok b ∧
    0 ≤ k ≤ 3 ∧
    scripted line_script (Z.of_nat 2) k = Some ("H", 9) ∧
    valid_coord "H" 9 ∧
    get_stone b "H" 9 = Ok None ∧
    ∀ j, 0 ≤ j < k → ¬ playable b (scripted line_script (Z.of_nat 2) j).
Proof.
  apply (play_game_moves_follow_answers black_model white_model 225 (scripted line_script)
           "Black wins!" (snd line_game) 2 (GomokuGame.mk_move 3 "B" "Model B" "H" 9 "H9")).
  - vm_compute. reflexivity.
  - vm_compute. reflexivity.
Defined.

(** X23. When the result of a game that was played gives five in a row as
    its reason, the colour named in it is the winner, the text returned is
    that colour and [wins!], the last stone of the history is of that colour
    and [check_win] holds of it on the final board, and the winning line of
    the result is the line that [get_winning_line] finds for it. *)
Theorem play_game_five_in_row (black white : GomokuGame.player_info) (max_moves : Z)
    (answers : Z → Z → option (string * Z)) (text : string) (s' : GomokuGame.t)
    (name : string) :
  GomokuGame.play_game max_moves answers (GomokuGame.new_game black white)
  = (GomokuGame.Done text, s') →
  GomokuGame.game_end_reason (GomokuGame.result s') = Some (GomokuGame.FiveInRow name) →
  ∃ stone col row l,
    (stone = "B" ∧ name = "Black" ∨ stone = "W" ∧ name = "White") ∧
    text = name +:+ " wins!" ∧
    GomokuGame.game_over s' = true ∧
    GomokuGame.winner s' = Some stone ∧
    last (move_history (GomokuGame.board s')) = Some (col, row, stone) ∧
    check_win (GomokuGame.board s') col row stone = Ok true ∧
    get_winning_line (GomokuGame.board s') col row stone = Ok (Some l) ∧
    GomokuGame.winning_line (GomokuGame.result s') =
      Some ((fun '(c, r) => GomokuGame.mk_position c r (c +:+ PyStr.str_of_int r)) <$> l).
Proof.
  intros Hplay Hreason.
  play_game_cases black white max_moves answers Hplay; [| discriminate Hreason].
  destruct (inv_over _ _ _ Hinv Hover)
    as [c col row l Hlast Hcw Hline Hw Hres | _ _ Hres | c _ _ _ Hres | _ _ Hres];
    rewrite Hres in Hreason; try discriminate Hreason.
  injection Hreason as <-.
  exists (side_stone c), col, row, l.
  split; [destruct c; [by left | by right] |].
  split; [rewrite Hw; by destruct c |]. split; [exact Hover |]. split; [exact Hw |].
  split; [exact Hlast |]. split; [exact Hcw |]. split; [exact Hline |].
  by rewrite Hres.
Qed.

Lemma play_game_five_in_row_witness :
  ∃ stone col row l,
    (stone = "B" ∧ "Black" = "Black" ∨ stone = "W" ∧ "Black" = "White") ∧
    "Black wins!" = "Black" +:+ " wins!" ∧
    GomokuGame.game_over (snd line_game) = true ∧
    GomokuGame.winner (snd line_game) = Some stone ∧
    last (move_history (GomokuGame.board (snd line_game))) = Some (col, row, stone) ∧
    check_win (GomokuGame.board (snd line_game)) col row stone = Ok true ∧
    get_winning_line (GomokuGame.board (snd line_game)) col row stone = Ok (Some l) ∧
    GomokuGame.winning_line (GomokuGame.result (snd line_game)) =
      Some ((fun '(c, r) => GomokuGame.mk_position c r (c +:+ PyStr.str_of_int r)) <$> l).
Proof.
  apply (play_game_five_in_row black_model white_model 225 (scripted line_script)
           "Black wins!" (snd line_game) "Black").
  - vm_compute. reflexivity.
  - vm_compute. reflexivity.
Defined.

(** X24. When a game that was played has a winner, the game is over, the
    winner is black or white, the text returned is its colour and [wins!],
    the result names that colour, and the reason is five in a row of that
    colour or the forfeit of the other. *)
Theorem play_game_winner (black white : GomokuGame.player_info) (max_moves : Z)
    (answers : Z → Z → option (string * Z)) (text : string) (s' : GomokuGame.t)
    (w : string) :
  GomokuGame.play_game max_moves answers (GomokuGame.new_game black white)
  = (GomokuGame.Done text, s') →
  GomokuGame.winner s' = Some w →
  ∃ name loser,
    (w = "B" ∧ name = "Black" ∧ loser = "White" ∨
     w = "W" ∧ name = "White" ∧ loser = "Black") ∧
    GomokuGame.game_over s' = true ∧
    text = name +:+ " wins!" ∧
    GomokuGame.winner_name (GomokuGame.result s') = Some name ∧
    GomokuGame.winner_color (GomokuGame.result s') = Some w ∧
    (GomokuGame.game_end_reason (GomokuGame.result s') = Some (GomokuGame.FiveInRow name) ∨
     GomokuGame.game_end_reason (GomokuGame.result s') = Some (GomokuGame.Forfeited loser)).
Proof.
  intros Hplay Hwinner.
  play_game_cases black white max_moves answers Hplay.
  2: { destruct (inv_running _ _ _ Hinv Hover) as (_ & Hw & _).
       cbn [GomokuGame.set_result_keys GomokuGame.set_result GomokuGame.winner] in Hwinner.
       rewrite Hw in Hwinner. discriminate Hwinner. }
  destruct (inv_over _ _ _ Hinv Hover)
    as [c col row l _ _ _ Hw Hres | _ Hw _ | c _ _ Hw Hres | _ Hw _];
    rewrite Hw in Hwinner |- *; try discriminate Hwinner; injection Hwinner as <-;
    rewrite Hres; cbn [GomokuGame.winner_name GomokuGame.winner_color
                       GomokuGame.game_end_reason].
  - exists (side_name c), (side_name (other_side c)).
    split; [destruct c; [left | right]; by repeat split |].
    split; [exact Hover |]. split; [by destruct c |]. split; [reflexivity |]. split; [reflexivity |]. by left.
  - exists (side_name (other_side c)), (side_name c).
    split; [destruct c; [right | left]; by repeat split |].
    split; [exact Hover |]. split; [by destruct c |]. split; [reflexivity |]. split; [reflexivity |]. by right.
Qed.

Lemma play_game_winner_witness :
  ∃ name loser,
    ("B" = "B" ∧ name = "Black" ∧ loser = "White" ∨
     "B" = "W" ∧ name = "White" ∧ loser = "Black") ∧
    GomokuGame.game_over (snd forfeit_game) = true ∧
    "Black wins!" = name +:+ " wins!" ∧
    GomokuGame.winner_name (GomokuGame.result (snd forfeit_game)) = Some name ∧
    GomokuGame.winner_color (GomokuGame.result (snd forfeit_game)) = Some "B" ∧
    (GomokuGame.game_end_reason (GomokuGame.result (snd forfeit_game))
     = Some (GomokuGame.FiveInRow name) ∨
     GomokuGame.game_end_reason (GomokuGame.result (snd forfeit_game))
     = Some (GomokuGame.Forfeited loser)).
Proof.
  apply (play_game_winner black_model white_model 225 (scripted [("H", 8); ("H", 8)])
           "Black wins!" (snd forfeit_game) "B").
  - vm_compute. reflexivity.
  - vm_compute. reflexivity.
Defined.

(** X25. When the result of a game that was played gives a forfeit as its
    reason, the colour named is the one to play after the recorded moves
    (black after an even number of them), the other colour is the winner,
    fewer than [max_moves] moves are recorded, and in that turn none of the
    answers at the attempts 0 to 3 could be played on the final board while
    the one at attempt 3 was a move. *)
Theorem play_game_forfeit (black white : GomokuGame.player_info) (max_moves : Z)
    (answers : Z → Z → option (string * Z)) (text : string) (s' : GomokuGame.t)
    (name : string) :
  GomokuGame.play_game max_moves answers (GomokuGame.new_game black white)
  = (GomokuGame.Done text, s') →
  GomokuGame.game_end_reason (GomokuGame.result s') = Some (GomokuGame.Forfeited name) →
  let turn := length (GomokuGame.moves s') in
  name = (if Nat.even turn then "Black" else "White") ∧
  GomokuGame.winner s' = Some (if Nat.even turn then "W" else "B") ∧
  Z.of_nat turn < max_moves ∧
  is_board_full (GomokuGame.board s') = false ∧
  (∀ j, 0 ≤ j ≤ 3 → ¬ playable (GomokuGame.board s') (answers (Z.of_nat turn) j)) ∧
  is_Some (answers (Z.of_nat turn) 3).
Proof.
  intros Hplay Hreason turn. subst turn.
  play_game_cases black white max_moves answers Hplay; [| discriminate Hreason].
  assert (forfeit_turns s1 = 1) as Hone by (unfold forfeit_turns; by rewrite Hreason).
  destruct (proj1 Hend Hone) as [Hnone Hlast].
  destruct (inv_over _ _ _ Hinv Hover)
    as [c col row l _ _ _ _ Hres | _ _ Hres | c Hc Hfull Hw Hres | _ _ Hres];
    rewrite Hres in Hreason; try discriminate Hreason.
  injection Hreason as <-. unfold side_to_play in Hc.
  split; [subst c; by destruct (Nat.even _) |].
  split; [rewrite Hw; subst c; by destruct (Nat.even _) |].
  split; [lia |]. split; [exact Hfull |]. split; [exact Hnone | exact Hlast].
Qed.

Lemma play_game_forfeit_witness :
  let turn := length (GomokuGame.moves (snd forfeit_game)) in
  "White" = (if Nat.even turn then "Black" else "White") ∧
  GomokuGame.winner (snd forfeit_game) = Some (if Nat.even turn then "W" else "B") ∧
  Z.of_nat turn < 225 ∧
  is_board_full (GomokuGame.board (snd forfeit_game)) = false ∧
  (∀ j, 0 ≤ j ≤ 3 →
        ¬ playable (GomokuGame.board (snd forfeit_game))
            (scripted [("H", 8); ("H", 8)] (Z.of_nat turn) j)) ∧
  is_Some (scripted [("H", 8); ("H", 8)] (Z.of_nat turn) 3).
Proof.
  apply (play_game_forfeit black_model white_model 225 (scripted [("H", 8); ("H", 8)])
           "Black wins!" (snd forfeit_game) "White").
  - vm_compute. reflexivity.
  - vm_compute. reflexivity.
Defined.

(** X26. When a game that was played returns the text of an error, there is
    no winner and the game is over, and either the model to play gave no
    answer at attempt 3 after no playable answer in that turn, and the
    result says [Error]; or the board is full, the result says [Draw] by a
    full board, and [max_moves] is more than 225. *)
Theorem play_game_error (black white : GomokuGame.player_info) (max_moves : Z)
    (answers : Z → Z → option (string * Z)) (text : string) (s' : GomokuGame.t) :
  GomokuGame.play_game max_moves answers (GomokuGame.new_game black white)
  = (GomokuGame.Done text, s') →
  text = "Game ended due to error" →
  let turn := length (GomokuGame.moves s') in
  GomokuGame.winner s' = None ∧
  GomokuGame.game_over s' = true ∧
  ((GomokuGame.winner_name (GomokuGame.result s') = Some "Error" ∧
    GomokuGame.game_end_reason (GomokuGame.result s') =
      Some (GomokuGame.EndedByError (LLMPlayer.FailedToGetMove (LLMPlayer.Retry 3))) ∧
    Z.of_nat turn < max_moves ∧
    (∀ j, 0 ≤ j ≤ 3 → ¬ playable (GomokuGame.board s') (answers (Z.of_nat turn) j)) ∧
    answers (Z.of_nat turn) 3 = None)
   ∨
   (GomokuGame.winner_name (GomokuGame.result s') = Some "Draw" ∧
    GomokuGame.game_end_reason (GomokuGame.result s') = Some GomokuGame.BoardFull ∧
    is_board_full (GomokuGame.board s') = true ∧
    Z.of_nat turn = 225 ∧ 225 < max_moves)).
Proof.
  intros Hplay Htext turn. subst turn.
  play_game_cases black white max_moves answers Hplay; [| discriminate Htext].
  destruct (game_full black white s1 Hinv) as [Hfull225 Hle].
  destruct (inv_over _ _ _ Hinv Hover)
    as [c col row l _ _ _ Hw Hres | Hfull Hw Hres | c _ _ Hw Hres | _ Hw Hres];
    rewrite Hw in Htext |- *.
  - destruct c; discriminate Htext.
  - split; [reflexivity |]. split; [exact Hover |]. right.
    destruct (Z.geb_spec n max_moves) as [Hcmp | Hcmp]; [discriminate Htext |].
    assert (forfeit_turns s1 = 0) as Hno by (unfold forfeit_turns; by rewrite Hres).
    apply Hfull225 in Hfull. rewrite Hres.
    split; [reflexivity |]. split; [reflexivity |]. split; [by apply Hfull225 |].
    split; [exact Hfull | lia].
  - destruct c; discriminate Htext.
  - split; [reflexivity |]. split; [exact Hover |]. left.
    assert (ended_by_error s1) as Hbad by (eexists; by rewrite Hres).
    assert (forfeit_turns s1 = 0) as Hno by (unfold forfeit_turns; by rewrite Hres).
    destruct (proj2 Hend Hbad) as [Hnone Hlast]. specialize (Herr Hbad).
    rewrite Hres. split; [reflexivity |]. split; [reflexivity |].
    split; [lia |]. split; [exact Hnone | exact Hlast].
Qed.

Lemma play_game_error_witness :
  let turn := length (GomokuGame.moves (snd silent_game)) in
  GomokuGame.winner (snd silent_game) = None ∧
  GomokuGame.game_over (snd silent_game) = true ∧
  ((GomokuGame.winner_name (GomokuGame.result (snd silent_game)) = Some "Error" ∧
    GomokuGame.game_end_reason (GomokuGame.result (snd silent_game)) =
      Some (GomokuGame.EndedByError (LLMPlayer.FailedToGetMove (LLMPlayer.Retry 3))) ∧
    Z.of_nat turn < 225 ∧
    (∀ j, 0 ≤ j ≤ 3 →
          ¬ playable (GomokuGame.board (snd silent_game))
              (scripted [("H", 8)] (Z.of_nat turn) j)) ∧
    scripted [("H", 8)] (Z.of_nat turn) 3 = None)
   ∨
   (GomokuGame.winner_name (GomokuGame.result (snd silent_game)) = Some "Draw" ∧
    GomokuGame.game_end_reason (GomokuGame.result (snd silent_game))
    = Some GomokuGame.BoardFull ∧
    is_board_full (GomokuGame.board (snd silent_game)) = true ∧
    Z.of_nat turn = 225 ∧ 225 < 225)).
Proof.
  apply (play_game_error black_model white_model 225 (scripted [("H", 8)])
           "Game ended due to error" (snd silent_game)).
  - vm_compute. reflexivity.
  - reflexivity.
Defined.

(** X27. When a game that was played returns the text of a draw, there is
    no winner, the result says [Draw], and the recorded moves are
    [max_moves] (none when it is negative).  Either the game is not over,
    the board is not full, [max_moves] is less than 225 and the reason is
    the maximum of moves; or the game is over, the board is full,
    [max_moves] is 225 and the reason is the full board. *)
Theorem play_game_draw (black white : GomokuGame.player_info) (max_moves : Z)
    (answers : Z → Z → option (string * Z)) (text : string) (s' : GomokuGame.t) :
  GomokuGame.play_game max_moves answers (GomokuGame.new_game black white)
  = (GomokuGame.Done text, s') →
  text = "Draw - Maximum moves reached" →
  GomokuGame.winner s' = None ∧
  GomokuGame.winner_name (GomokuGame.result s') = Some "Draw" ∧
  Z.of_nat (length (GomokuGame.moves s')) = Z.max 0 max_moves ∧
  ((GomokuGame.game_end_reason (GomokuGame.result s') = Some GomokuGame.MaximumMoves ∧
    GomokuGame.game_over s' = false ∧
    is_board_full (GomokuGame.board s') = false ∧ max_moves < 225)
   ∨
   (GomokuGame.game_end_reason (GomokuGame.result s') = Some GomokuGame.BoardFull ∧
    GomokuGame.game_over s' = true ∧
    is_board_full (GomokuGame.board s') = true ∧ max_moves = 225)).
Proof.
  intros Hplay Htext.
  play_game_cases black white max_moves answers Hplay.
  - destruct (game_full black white s1 Hinv) as [Hfull225 Hle].
    destruct (inv_over _ _ _ Hinv Hover)
      as [c col row l _ _ _ Hw Hres | Hfull Hw Hres | c _ _ Hw Hres | _ Hw Hres];
      rewrite Hw in Htext |- *.
    + destruct c; discriminate Htext.
    + destruct (Z.geb_spec n max_moves) as [Hcmp | Hcmp]; [| discriminate Htext].
      assert (forfeit_turns s1 = 0) as Hno by (unfold forfeit_turns; by rewrite Hres).
      pose proof (proj1 Hfull225 Hfull) as H225. rewrite Hres.
      split; [reflexivity |]. split; [reflexivity |]. split; [lia |]. right.
      split; [reflexivity |]. split; [exact Hover |]. split; [exact Hfull | lia].
    + destruct c; discriminate Htext.
    + assert (ended_by_error s1) as Hbad by (eexists; by rewrite Hres).
      specialize (Herr Hbad).
      destruct (Z.geb_spec n max_moves) as [Hcmp | Hcmp]; [lia | discriminate Htext].
  - destruct (game_full black white s1 Hinv) as [Hfull225 Hle].
    destruct (inv_running _ _ _ Hinv Hover) as (_ & Hw & Hres & Hfull).
    assert (forfeit_turns s1 = 0) as Hno by (unfold forfeit_turns; by rewrite Hres).
    cbn [GomokuGame.set_result_keys GomokuGame.set_result GomokuGame.moves
         GomokuGame.winner GomokuGame.result GomokuGame.winner_name GomokuGame.board
         GomokuGame.game_end_reason GomokuGame.game_over].
    split; [exact Hw |]. split; [reflexivity |]. split; [lia |]. left.
    split; [reflexivity |]. split; [exact Hover |]. split; [exact Hfull |].
    destruct (decide (Z.of_nat (length (GomokuGame.moves s1)) = 225)) as [H225 | Hne].
    + apply Hfull225 in H225. rewrite Hfull in H225. discriminate H225.
    + lia.
Qed.

Lemma play_game_draw_witness :
  GomokuGame.winner (snd short_game) = None ∧
  GomokuGame.winner_name (GomokuGame.result (snd short_game)) = Some "Draw" ∧
  Z.of_nat (length (GomokuGame.moves (snd short_game))) = Z.max 0 2 ∧
  ((GomokuGame.game_end_reason (GomokuGame.result (snd short_game))
    = Some GomokuGame.MaximumMoves ∧
    GomokuGame.game_over (snd short_game) = false ∧
    is_board_full (GomokuGame.board (snd short_game)) = false ∧ 2 < 225)
   ∨
   (GomokuGame.game_end_reason (GomokuGame.result (snd short_game))
    = Some GomokuGame.BoardFull ∧
    GomokuGame.game_over (snd short_game) = true ∧
    is_board_full (GomokuGame.board (snd short_game)) = true ∧ 2 = 225)).
Proof.
  apply (play_game_draw black_model white_model 2 (scripted line_script)
           "Draw - Maximum moves reached" (snd short_game)).
  - vm_compute. reflexivity.
  - reflexivity.
Defined.

(** * The replay *)

(** Each call adds at most one move to the history. *)
Lemma play_length (ms : list move) (b b' : GomokuBoard) :
  square (board b) = true → play b ms = Ok b' →
  (length (move_history b') ≤ length (move_history b) + length ms)%nat.
Proof.
  revert b. induction ms as [| [[col row] stone] ms IH]; intros b Hsq; simpl.
  - intros [= <-]. lia.
  - destruct (place_stone_step b col row stone Hsq) as (ok & b1 & Hplace & Hsq1 & _).
    rewrite Hplace, ret_bind. intros Hplay. apply (IH b1 Hsq1) in Hplay.
    destruct (place_stone_inv _ _ _ _ _ _ Hsq Hplace)
      as [[_ Hb1] | (_ & _ & _ & ri & ci & _ & _ & _ & _ & Hb1)]; subst b1.
    + lia.
    + simpl in Hplay. rewrite length_app in Hplay. simpl in Hplay. lia.
Qed.

(** Every move of the history of a board made by calls of [place_stone] was
    placed: the call succeeds on the board of the moves before it. *)
Lemma play_history_steps (b : GomokuBoard) (i : nat) (col : string) (row : Z)
    (stone : string) :
  play init (move_history b) = Ok b →
  move_history b !! i = Some (col, row, stone) →
  ∃ bi bi',
    play init (take i (move_history b)) = Ok bi ∧
    square (board bi) = true ∧
    place_stone bi col row stone = Ok (true, bi') ∧
    play init (take (S i) (move_history b)) = Ok bi'.
Proof.
  intros Hplay Hi. pose proof (lookup_lt_Some _ _ _ Hi) as Hlt.
  destruct (play_steps (take i (move_history b)) init eq_refl)
    as (bi & Hbi & Hsqi & _ & _ & _).
  destruct (place_stone_step bi col row stone Hsqi) as (ok & bi' & Hplace & Hsq' & _).
  assert (play init (take (S i) (move_history b)) = Ok bi') as Hbi'.
  { rewrite (take_S_r _ _ _ Hi), (play_app _ _ _ _ Hbi). simpl. by rewrite Hplace. }
  assert (play bi' (drop (S i) (move_history b)) = Ok b) as Hrest.
  { rewrite <- (play_app _ _ _ _ Hbi'), take_drop. exact Hplay. }
  exists bi, bi'. split; [exact Hbi |]. split; [exact Hsqi |]. split; [| exact Hbi'].
  pose proof (play_length _ init bi eq_refl Hbi) as Hlen1.
  pose proof (play_length _ _ _ Hsq' Hrest) as Hlen2.
  rewrite length_take in Hlen1. rewrite length_drop in Hlen2.
  change (length (move_history init)) with 0%nat in Hlen1.
  destruct (place_stone_inv _ _ _ _ _ _ Hsqi Hplace) as [[Hok Hsame] | [Hok _]];
    subst ok; [| exact Hplace].
  subst bi'. exfalso. unfold move in *. lia.
Qed.

Lemma list_index_lookup (l : list string) (x : string) (i : nat) :
  NoDup l → l !! i = Some x → GomokuVisualizer.list_index l x = Some (Z.of_nat i).
Proof.
  revert i. induction l as [| y l IH]; intros i Hnd Hl; [done |].
  apply NoDup_cons in Hnd as [Hy Hnd]. simpl.
  destruct i as [| i]; simpl in Hl.
  - injection Hl as ->. by rewrite String.eqb_refl.
  - destruct (String.eqb_spec y x) as [-> | Hne].
    + exfalso. apply Hy. apply list_elem_of_lookup. by exists i.
    + rewrite (IH i Hnd Hl). simpl. f_equal. lia.
Qed.

Lemma list_index_None (l : list string) (x : string) :
  x ∉ l → GomokuVisualizer.list_index l x = None.
Proof.
  induction l as [| y l IH]; intros Hx; [done |].
  apply not_elem_of_cons in Hx as [Hne Hx]. simpl.
  destruct (String.eqb_spec y x) as [-> | _]; [done |]. by rewrite (IH Hx).
Qed.

Lemma visualizer_cols : GomokuVisualizer.cols = cols.
Proof. reflexivity. Qed.

Lemma for_each_app (l1 l2 : list Z) (body : Z → GomokuVisualizer.M unit)
    (s : GomokuVisualizer.t) :
  GomokuVisualizer.for_each (l1 ++ l2) body s =
  GomokuVisualizer.bind (GomokuVisualizer.for_each l1 body)
    (fun _ => GomokuVisualizer.for_each l2 body) s.
Proof.
  revert s. induction l1 as [| i l1 IH]; intros s; [reflexivity |].
  cbn [app GomokuVisualizer.for_each]. unfold GomokuVisualizer.bind.
  destruct (body i s) as [[[] | e |] s1]; [| reflexivity | reflexivity].
  rewrite IH. reflexivity.
Qed.

Lemma fresh_grid_shape {A : Type} (x : A) : grid_shape (GomokuVisualizer.fresh_grid 15 x).
Proof.
  split; [apply length_replicate |].
  intros i r [-> _]%lookup_replicate. apply length_replicate.
Qed.

(** Writing an entry of a grid of the shape of the board does not raise. *)
Lemma assign_shape {A : Type} (g : list (list A)) (row col : Z) (x : A) :
  grid_shape g → 0 ≤ row < size → 0 ≤ col < size →
  ∃ g', GomokuVisualizer.assign g row col x = Ok g' ∧ grid_shape g'.
Proof.
  intros [Hlen Hrows] Hr Hc.
  destruct (lookup_lt_is_Some_2 g (Z.to_nat row)) as [r Hgr]; [lia |].
  unfold GomokuVisualizer.assign.
  rewrite (getitem_nonneg g row r) by (done || lia). rewrite ret_bind.
  rewrite setitem_nonneg by (rewrite (Hrows _ _ Hgr); lia). rewrite ret_bind.
  rewrite setitem_nonneg by lia. eexists. split; [reflexivity |].
  split; [by rewrite length_insert |].
  intros i r' Hr'. destruct (decide (i = Z.to_nat row)) as [-> | Hne].
  - rewrite list_lookup_insert_eq in Hr' by (by eapply lookup_lt_Some).
    injection Hr' as <-. rewrite length_insert. eauto.
  - rewrite list_lookup_insert_ne in Hr' by done. eauto.
Qed.

Ltac viewer_run :=
  cbv [GomokuVisualizer.bind GomokuVisualizer.get GomokuVisualizer.lift
       GomokuVisualizer.modify GomokuVisualizer.ret GomokuVisualizer.raise
       GomokuVisualizer.coord_to_indices GomokuVisualizer.reset_board].

Ltac viewer_state :=
  cbn [GomokuVisualizer.game_data GomokuVisualizer.current_move_index
       GomokuVisualizer.board_size GomokuVisualizer.board_state
       GomokuVisualizer.move_numbers GomokuVisualizer.winning_positions
       GomokuVisualizer.set_game_data GomokuVisualizer.set_current_move_index
       GomokuVisualizer.set_board_state GomokuVisualizer.set_move_numbers
       GomokuVisualizer.set_winning_positions].

(** The replay of a move that [place_stone] accepted writes the cell that
    [place_stone] wrote. *)
Lemma apply_move_placed (records : list GomokuGame.move_record) (i : nat)
    (m : GomokuGame.move_record) (bi bi' : GomokuBoard) (v : GomokuVisualizer.t) :
  records !! i = Some m →
  square (board bi) = true →
  place_stone bi (GomokuGame.column m) (GomokuGame.row m) (GomokuGame.player m)
  = Ok (true, bi') →
  GomokuVisualizer.board_size v = 15 →
  GomokuVisualizer.board_state v = board bi →
  grid_shape (GomokuVisualizer.move_numbers v) →
  ∃ v',
    GomokuVisualizer.apply_move records (Z.of_nat i) v = (GomokuVisualizer.Done tt, v') ∧
    GomokuVisualizer.board_state v' = board bi' ∧
    grid_shape (GomokuVisualizer.move_numbers v') ∧
    GomokuVisualizer.game_data v' = GomokuVisualizer.game_data v ∧
    GomokuVisualizer.board_size v' = 15 ∧
    GomokuVisualizer.current_move_index v' = GomokuVisualizer.current_move_index v ∧
    GomokuVisualizer.winning_positions v' = GomokuVisualizer.winning_positions v.
Proof.
  intros Hm Hsq Hplace Hsize Hstate Hnums.
  pose proof (lookup_lt_Some _ _ _ Hm) as Hlt.
  destruct (place_stone_inv _ _ _ _ _ _ Hsq Hplace)
    as [[Hf _] | (_ & Hv & _ & ri & ci & Hidx & Hri & Hci & _ & Hb')];
    [discriminate Hf |].
  destruct (valid_indices _ _ Hv) as (ci' & Hidx' & _ & _ & Hcol).
  rewrite Hidx in Hidx'. injection Hidx' as -> <-.
  assert (GomokuVisualizer.list_index GomokuVisualizer.cols (GomokuGame.column m) = Some ci)
    as Hindex.
  { rewrite visualizer_cols, (list_index_lookup _ _ _ cols_NoDup Hcol). f_equal. lia. }
  destruct (assign_shape (GomokuVisualizer.move_numbers v) (size - GomokuGame.row m) ci
              (GomokuGame.move_number m) Hnums Hri Hci) as (n' & Hassign & Hshape).
  unfold GomokuVisualizer.apply_move.
  destruct (Z.ltb_spec (Z.of_nat i) (Z.of_nat (length records))) as [_ | Hge]; [| lia].
  viewer_run. rewrite (getitem_nonneg records (Z.of_nat i) m) by (lia || by rewrite Nat2Z.id).
  rewrite Hindex. viewer_state. rewrite Hsize, Hstate.
  change (GomokuVisualizer.assign (board bi) (15 - GomokuGame.row m) ci (GomokuGame.player m))
    with (board_set (board bi) (size - GomokuGame.row m) ci (GomokuGame.player m)).
  rewrite (board_set_Ok _ _ _ _ Hsq Hri Hci).
  change (15 - GomokuGame.row m) with (size - GomokuGame.row m). rewrite Hassign.
  eexists. split; [reflexivity |]. viewer_state. by rewrite Hb'.
Qed.

(** The loop of [update_board_to_move] over the first [k] records of a game
    that was played, from the empty board. *)
Lemma replay_loop (records : list GomokuGame.move_record) (b : GomokuBoard) (k : nat) :
  play init (recorded_calls records) = Ok b →
  move_history b = recorded_calls records →
  (k ≤ length records)%nat →
  ∀ v, GomokuVisualizer.board_size v = 15 →
       GomokuVisualizer.board_state v = board init →
       grid_shape (GomokuVisualizer.move_numbers v) →
  ∃ bk v',
    play init (take k (recorded_calls records)) = Ok bk ∧
    GomokuVisualizer.for_each (PyStr.range (Z.of_nat k))
      (GomokuVisualizer.apply_move records) v = (GomokuVisualizer.Done tt, v') ∧
    GomokuVisualizer.board_state v' = board bk ∧
    grid_shape (GomokuVisualizer.move_numbers v') ∧
    GomokuVisualizer.game_data v' = GomokuVisualizer.game_data v ∧
    GomokuVisualizer.board_size v' = 15 ∧
    GomokuVisualizer.current_move_index v' = GomokuVisualizer.current_move_index v ∧
    GomokuVisualizer.winning_positions v' = GomokuVisualizer.winning_positions v.
Proof.
  intros Hplay Hhist. induction k as [| k IH]; intros Hk v Hsize Hstate Hnums.
  - exists init, v. split; [reflexivity |]. split; [reflexivity |].
    split; [exact Hstate |]. split; [exact Hnums |]. by repeat split.
  - destruct (IH ltac:(lia) v Hsize Hstate Hnums)
      as (bk & v1 & Hbk & Hloop & Hstate1 & Hnums1 & Hdata1 & Hsize1 & Hidx1 & Hwin1).
    destruct (lookup_lt_is_Some_2 records k) as [m Hm]; [lia |].
    assert (move_history b !! k =
            Some (GomokuGame.column m, GomokuGame.row m, GomokuGame.player m)) as Hcall.
    { rewrite Hhist. unfold recorded_calls. by rewrite list_lookup_fmap, Hm. }
    rewrite <- Hhist in Hplay.
    destruct (play_history_steps b k _ _ _ Hplay Hcall)
      as (bi & bi' & Hbi & Hsqi & Hplace & Hbi').
    rewrite Hhist in Hbi, Hbi'.
    pose proof (eq_trans (eq_sym Hbk) Hbi) as Hsame. injection Hsame as <-.
    destruct (apply_move_placed records k m bk bi' v1 Hm Hsqi Hplace Hsize1 Hstate1 Hnums1)
      as (v2 & Hmove & Hstate2 & Hnums2 & Hdata2 & Hsize2 & Hidx2 & Hwin2).
    exists bi', v2. split; [exact Hbi' |]. split.
    + unfold PyStr.range in *.
      replace (Z.of_nat (S k)) with (Z.of_nat k + 1) by lia.
      rewrite seqZ_app by lia. rewrite for_each_app.
      unfold GomokuVisualizer.bind at 1. rewrite Hloop.
      change (seqZ (0 + Z.of_nat k) 1) with [0 + (0 + Z.of_nat k)].
      cbn [GomokuVisualizer.for_each]. unfold GomokuVisualizer.bind at 1.
      replace (0 + (0 + Z.of_nat k)) with (Z.of_nat k) by lia.
      by rewrite Hmove.
    + split; [exact Hstate2 |]. split; [exact Hnums2 |].
      repeat split; congruence.
Qed.

Lemma fresh_board : GomokuVisualizer.fresh_grid 15 "." = board init.
Proof. reflexivity. Qed.

(** [update_board_to_move] on the file of a game that was played: it does
    not raise and shows the position asked for; with no move in the file it
    leaves the index as it is. *)
Lemma update_board_to_move_shows (file : GomokuVisualizer.game_file) (b : GomokuBoard)
    (k : nat) (v : GomokuVisualizer.t) :
  play init (recorded_calls (GomokuVisualizer.file_moves file)) = Ok b →
  move_history b = recorded_calls (GomokuVisualizer.file_moves file) →
  (k ≤ length (GomokuVisualizer.file_moves file))%nat →
  GomokuVisualizer.game_data v = Some file →
  GomokuVisualizer.board_size v = 15 →
  0 ≤ GomokuVisualizer.current_move_index v
    ≤ Z.of_nat (length (GomokuVisualizer.file_moves file)) →
  ∃ v',
    GomokuVisualizer.update_board_to_move (Z.of_nat k) v = (GomokuVisualizer.Done tt, v') ∧
    shows_position file v' ∧
    (GomokuVisualizer.file_moves file ≠ [] →
     GomokuVisualizer.current_move_index v' = Z.of_nat k).
Proof.
  intros Hplay Hhist Hk Hdata Hsize Hidx.
  unfold GomokuVisualizer.update_board_to_move. viewer_run. viewer_state.
  rewrite Hdata, Hsize.
  destruct (GomokuVisualizer.file_moves file) as [| m ms] eqn:Hmoves.
  - eexists. split; [reflexivity |]. split; [| done].
    split; [exact Hdata |]. split; [exact Hsize |]. split; [by rewrite Hmoves |].
    exists init. rewrite Hmoves. viewer_state. split; [| reflexivity].
    by destruct (Z.to_nat (GomokuVisualizer.current_move_index v)).
  - rewrite <- Hmoves in *.
    match goal with
    | |- context [GomokuVisualizer.for_each _ _ ?v0] =>
        destruct (replay_loop (GomokuVisualizer.file_moves file) b k Hplay Hhist Hk v0)
          as (bk & v1 & Hbk & Hloop & Hstate & _ & Hdata1 & Hsize1 & _ & _);
          [exact Hsize | reflexivity | apply fresh_grid_shape |]
    end.
    rewrite Hloop.
    assert (∀ w, ∃ v',
              GomokuVisualizer.set_current_move_index (Z.of_nat k)
                (GomokuVisualizer.set_winning_positions w v1) = v' ∧
              shows_position file v' ∧
              GomokuVisualizer.current_move_index v' = Z.of_nat k) as Hfinal.
    { intros w. eexists. split; [reflexivity |]. split; [| reflexivity].
      split; [viewer_state; by rewrite Hdata1 |]. split; [exact Hsize1 |].
      viewer_state. split; [lia |]. exists bk. rewrite Nat2Z.id. by split. }
    destruct (GomokuGame.winning_line (GomokuVisualizer.file_result file)) as [[| p l] |];
      [| destruct (Z.of_nat k =? Z.of_nat (length (GomokuVisualizer.file_moves file))) |];
      match goal with
      | |- context [GomokuVisualizer.set_winning_positions ?w v1] =>
          destruct (Hfinal w) as (v' & Hv' & Hshows & Hindex)
      end;
      rewrite Hv'; exists v'; (split; [reflexivity |]); (split; [exact Hshows |]);
      intros _; exact Hindex.
Qed.

Lemma load_game_shows (file : GomokuVisualizer.game_file) (b : GomokuBoard)
    (v : GomokuVisualizer.t) :
  play init (recorded_calls (GomokuVisualizer.file_moves file)) = Ok b →
  move_history b = recorded_calls (GomokuVisualizer.file_moves file) →
  GomokuVisualizer.board_size v = 15 →
  ∃ v', GomokuVisualizer.load_game file v = (GomokuVisualizer.Done tt, v') ∧
        shows_position file v'.
Proof.
  intros Hplay Hhist Hsize. unfold GomokuVisualizer.load_game.
  unfold GomokuVisualizer.bind at 1, GomokuVisualizer.modify at 1.
  unfold GomokuVisualizer.bind at 1, GomokuVisualizer.modify at 1.
  unfold GomokuVisualizer.bind at 1.
  unfold GomokuVisualizer.reset_board at 1. viewer_run.
  match goal with
  | |- context [GomokuVisualizer.update_board_to_move 0 ?v0] =>
      destruct (update_board_to_move_shows file b 0 v0 Hplay Hhist)
        as (v' & Hupdate & Hshows & _);
        [lia | reflexivity | exact Hsize | viewer_state; lia |]
  end.
  change (Z.of_nat 0) with 0 in Hupdate. rewrite Hupdate. by exists v'.
Qed.

Lemma press_shows (file : GomokuVisualizer.game_file) (b : GomokuBoard)
    (v : GomokuVisualizer.t) (btn : GomokuVisualizer.button) :
  play init (recorded_calls (GomokuVisualizer.file_moves file)) = Ok b →
  move_history b = recorded_calls (GomokuVisualizer.file_moves file) →
  shows_position file v →
  ∃ v', GomokuVisualizer.press btn v = (GomokuVisualizer.Done tt, v') ∧
        shows_position file v'.
Proof.
  intros Hplay Hhist Hshows. pose proof Hshows as (Hdata & Hsize & Hidx & _).
  assert (∀ k : nat, (k ≤ length (GomokuVisualizer.file_moves file))%nat →
            ∃ v', GomokuVisualizer.update_board_to_move (Z.of_nat k) v
                  = (GomokuVisualizer.Done tt, v') ∧ shows_position file v') as Hupdate.
  { intros k Hk.
    destruct (update_board_to_move_shows file b k v Hplay Hhist Hk Hdata Hsize Hidx)
      as (v' & Hv' & Hs & _).
    by exists v'. }
  destruct btn; cbn [GomokuVisualizer.press].
  - apply (Hupdate 0%nat). lia.
  - unfold GomokuVisualizer.previous_move. viewer_run.
    destruct (Z.gtb_spec (GomokuVisualizer.current_move_index v) 0) as [Hpos | _];
      [| by exists v].
    replace (GomokuVisualizer.current_move_index v - 1)
      with (Z.of_nat (Z.to_nat (GomokuVisualizer.current_move_index v - 1))) by lia.
    apply Hupdate. lia.
  - unfold GomokuVisualizer.next_move, GomokuVisualizer.total_moves. viewer_run.
    rewrite Hdata.
    destruct (Z.ltb_spec (GomokuVisualizer.current_move_index v)
                (Z.of_nat (length (GomokuVisualizer.file_moves file)))) as [Hlt | _];
      [| by exists v].
    replace (GomokuVisualizer.current_move_index v + 1)
      with (Z.of_nat (Z.to_nat (GomokuVisualizer.current_move_index v + 1))) by lia.
    apply Hupdate. lia.
  - unfold GomokuVisualizer.go_to_last, GomokuVisualizer.total_moves. viewer_run.
    rewrite Hdata. apply Hupdate. lia.
Qed.

Lemma presses_show (file : GomokuVisualizer.game_file) (b : GomokuBoard)
    (buttons : list GomokuVisualizer.button) :
  play init (recorded_calls (GomokuVisualizer.file_moves file)) = Ok b →
  move_history b = recorded_calls (GomokuVisualizer.file_moves file) →
  ∀ v, shows_position file v →
  ∃ v', GomokuVisualizer.presses buttons v = (GomokuVisualizer.Done tt, v') ∧
        shows_position file v'.
Proof.
  intros Hplay Hhist. induction buttons as [| btn buttons IH]; intros v Hshows.
  - by exists v.
  - destruct (press_shows file b v btn Hplay Hhist Hshows) as (v1 & Hpress & Hshows1).
    destruct (IH v1 Hshows1) as (v2 & Hrest & Hshows2).
    exists v2. split; [| exact Hshows2].
    cbn [GomokuVisualizer.presses]. unfold GomokuVisualizer.bind. by rewrite Hpress.
Qed.

(** X28. Take a game file whose moves are the history of a board made by
    calls of [place_stone], as the record of a played game is.  Loading it
    and pressing any buttons of the navigation raises nothing, and then the
    index is between 0 and the number of moves and the board state is the
    board after that many of the moves; and going to the last move shows
    the final board. *)
Theorem viewer_shows_position (file : GomokuVisualizer.game_file) (b : GomokuBoard)
    (v : GomokuVisualizer.t) (buttons : list GomokuVisualizer.button) :
  play init (recorded_calls (GomokuVisualizer.file_moves file)) = Ok b →
  move_history b = recorded_calls (GomokuVisualizer.file_moves file) →
  GomokuVisualizer.board_size v = 15 →
  ∃ v' v'',
    GomokuVisualizer.bind (GomokuVisualizer.load_game file)
      (fun _ => GomokuVisualizer.presses buttons) v = (GomokuVisualizer.Done tt, v') ∧
    shows_position file v' ∧
    GomokuVisualizer.go_to_last v' = (GomokuVisualizer.Done tt, v'') ∧
    GomokuVisualizer.board_state v'' = board b.
Proof.
  intros Hplay Hhist Hsize.
  destruct (load_game_shows file b v Hplay Hhist Hsize) as (v0 & Hload & Hshows0).
  destruct (presses_show file b buttons Hplay Hhist v0 Hshows0) as (v1 & Hpresses & Hshows1).
  pose proof Hshows1 as (Hdata & Hsize1 & Hidx & _).
  destruct (update_board_to_move_shows file b (length (GomokuVisualizer.file_moves file)) v1
              Hplay Hhist (le_n _) Hdata Hsize1 Hidx)
    as (v2 & Hlast & (_ & _ & Hidx2 & b2 & Hb2 & Hstate2) & Hindex).
  exists v1, v2. split; [unfold GomokuVisualizer.bind; by rewrite Hload |].
  split; [exact Hshows1 |]. split.
  - unfold GomokuVisualizer.go_to_last, GomokuVisualizer.total_moves. viewer_run.
    by rewrite Hdata.
  - rewrite Hstate2. f_equal.
    assert (GomokuVisualizer.current_move_index v2
            = Z.of_nat (length (GomokuVisualizer.file_moves file))) as Hend.
    { destruct (GomokuVisualizer.file_moves file) as [| m ms] eqn:Hmoves;
        [simpl in *; lia | by apply Hindex]. }
    rewrite Hend, Nat2Z.id in Hb2.
    rewrite take_ge in Hb2 by (unfold recorded_calls; by rewrite length_fmap).
    rewrite Hplay in Hb2. by injection Hb2.
Qed.

Lemma viewer_shows_position_witness :
  ∃ v' v'',
    GomokuVisualizer.bind (GomokuVisualizer.load_game three_moves)
      (fun _ => GomokuVisualizer.presses
                  [GomokuVisualizer.Next; GomokuVisualizer.Next; GomokuVisualizer.Previous])
      GomokuVisualizer.new_visualizer = (GomokuVisualizer.Done tt, v') ∧
    shows_position three_moves v' ∧
    GomokuVisualizer.go_to_last v' = (GomokuVisualizer.Done tt, v'') ∧
    GomokuVisualizer.board_state v''
    = board {| board := grid_set (grid_set (grid_set (board init) 7 7 "B") 14 0 "W") 6 7 "B";
               move_history := [("H", 8, "B"); ("A", 1, "W"); ("H", 9, "B")] |}.
Proof.
  apply (viewer_shows_position three_moves
           {| board := grid_set (grid_set (grid_set (board init) 7 7 "B") 14 0 "W") 6 7 "B";
              move_history := [("H", 8, "B"); ("A", 1, "W"); ("H", 9, "B")] |}
           GomokuVisualizer.new_visualizer).
  - vm_compute. reflexivity.
  - reflexivity.
  - reflexivity.
Defined.

(** Writing an entry at a row index that Python counts from the end. *)
Lemma assign_row {A : Type} (g : list (list A)) (row col : Z) (x : A) (r : list A) :
  grid_shape g → - size ≤ row < size → 0 ≤ col < size →
  g !! Z.to_nat (Py.norm_index size row) = Some r →
  GomokuVisualizer.assign g row col x =
  Ok (<[Z.to_nat (Py.norm_index size row) := <[Z.to_nat col := x]> r]> g).
Proof.
  intros [Hlen Hrows] Hr Hc Hgr.
  assert (Z.of_nat (length g) = size) as Hg by (rewrite Hlen; unfold size, BOARD_SIZE; lia).
  assert (Z.of_nat (length r) = size) as Hlr
    by (rewrite (Hrows _ _ Hgr); unfold size, BOARD_SIZE; lia).
  assert (0 ≤ Py.norm_index size row < size) as Hn.
  { unfold Py.norm_index. destruct (Z.ltb_spec row 0); lia. }
  unfold GomokuVisualizer.assign, Py.getitem, Py.setitem. rewrite Hg.
  destruct (Z.leb_spec 0 (Py.norm_index size row)); [| lia].
  destruct (Z.ltb_spec (Py.norm_index size row) size); [| lia].
  cbn [andb]. rewrite Hgr, ret_bind, Hlr.
  assert (Py.norm_index size col = col) as ->.
  { unfold Py.norm_index. destruct (Z.ltb_spec col 0); lia. }
  destruct (Z.leb_spec 0 col); [| lia]. destruct (Z.ltb_spec col size); [| lia].
  cbn [andb]. rewrite ret_bind. reflexivity.
Qed.

(** Outside these row indices the writing raises [IndexError]. *)
Lemma assign_off {A : Type} (g : list (list A)) (row col : Z) (x : A) :
  grid_shape g → ¬ (- size ≤ row < size) →
  GomokuVisualizer.assign g row col x = Raise IndexError.
Proof.
  intros [Hlen Hrows] Hr.
  assert (Z.of_nat (length g) = size) as Hg by (rewrite Hlen; unfold size, BOARD_SIZE; lia).
  unfold GomokuVisualizer.assign, Py.getitem, Py.norm_index. rewrite Hg.
  destruct (Z.ltb_spec row 0), (Z.leb_spec 0 (row + size)), (Z.ltb_spec (row + size) size),
    (Z.leb_spec 0 row), (Z.ltb_spec row size); cbn [andb]; try reflexivity; lia.
Qed.

(** X29. The replay does not check the row of a recorded move.  For a file
    of one move: a column that is no letter of the board raises
    [ValueError]; with a column of the board, a row from 1 to 15 is shown in
    its cell, a row from 16 to 30 is shown, by the negative index, in the
    cell of the row 15 less, and any other row raises [IndexError]. *)
Theorem replay_unchecked_row (m : GomokuGame.move_record)
    (result : GomokuGame.result_record) (v : GomokuVisualizer.t) :
  GomokuVisualizer.board_size v = 15 →
  GomokuVisualizer.game_data v = Some (GomokuVisualizer.mk_file [m] result) →
  (GomokuGame.column m ∉ GomokuVisualizer.cols →
   (GomokuVisualizer.update_board_to_move 1 v).1 =
   GomokuVisualizer.Raised GomokuVisualizer.ValueError) ∧
  (GomokuGame.column m ∈ GomokuVisualizer.cols →
   ¬ (1 ≤ GomokuGame.row m ≤ 30) →
   (GomokuVisualizer.update_board_to_move 1 v).1 =
   GomokuVisualizer.Raised (GomokuVisualizer.Indexing IndexError)) ∧
  (GomokuGame.column m ∈ GomokuVisualizer.cols →
   1 ≤ GomokuGame.row m ≤ 30 →
   ∃ v' col_idx,
     GomokuVisualizer.update_board_to_move 1 v = (GomokuVisualizer.Done tt, v') ∧
     0 ≤ col_idx ∧
     GomokuVisualizer.cols !! Z.to_nat col_idx = Some (GomokuGame.column m) ∧
     GomokuVisualizer.board_state v' =
     grid_set (board init)
       (if GomokuGame.row m <=? 15 then 15 - GomokuGame.row m else 30 - GomokuGame.row m)
       col_idx (GomokuGame.player m)).
Proof.
  intros Hsize Hdata.
  unfold GomokuVisualizer.update_board_to_move. viewer_run. viewer_state.
  rewrite Hdata, Hsize. cbn [GomokuVisualizer.file_moves].
  change (PyStr.range 1) with [0]. cbn [GomokuVisualizer.for_each].
  unfold GomokuVisualizer.apply_move. viewer_run. viewer_state.
  change (0 <? Z.of_nat (length [m])) with true. cbv iota.
  change (Py.getitem [m] 0) with (Ok m). cbv iota beta.
  split; [| split].
  - intros Hcol. by rewrite (list_index_None _ _ Hcol).
  - intros [i Hi]%list_elem_of_lookup Hrow.
    rewrite (list_index_lookup GomokuVisualizer.cols _ _ cols_NoDup Hi).
    cbv beta iota. viewer_state. rewrite Hsize.
    rewrite assign_off; [reflexivity | apply (fresh_grid_shape ".") |].
    unfold size, BOARD_SIZE. lia.
  - intros [i Hi]%list_elem_of_lookup Hrow.
    pose proof (lookup_lt_Some _ _ _ Hi) as Hlt. change (length GomokuVisualizer.cols) with 15%nat in Hlt.
    rewrite (list_index_lookup GomokuVisualizer.cols _ _ cols_NoDup Hi).
    cbv beta iota. viewer_state. rewrite Hsize.
    set (ri := if GomokuGame.row m <=? 15 then 15 - GomokuGame.row m
               else 30 - GomokuGame.row m).
    assert (Py.norm_index size (15 - GomokuGame.row m) = ri ∧ 0 ≤ ri < 15) as [Hnorm Hri].
    { unfold Py.norm_index, ri, size, BOARD_SIZE.
      destruct (Z.ltb_spec (15 - GomokuGame.row m) 0), (Z.leb_spec (GomokuGame.row m) 15); lia. }
    assert (∀ (A : Type) (x : A),
              GomokuVisualizer.fresh_grid 15 x !! Z.to_nat ri = Some (replicate 15 x)) as Hrow_at.
    { intros A x. apply lookup_replicate. split; [reflexivity |].
      change (Z.to_nat 15) with 15%nat. lia. }
    rewrite (assign_row _ _ _ _ (replicate 15 ".")); cycle 1.
    { apply fresh_grid_shape. }
    { unfold size, BOARD_SIZE. lia. }
    { unfold size, BOARD_SIZE. lia. }
    { rewrite Hnorm. apply Hrow_at. }
    cbv beta iota. viewer_state.
    rewrite (assign_row _ _ _ _ (replicate 15 0)); cycle 1.
    { apply fresh_grid_shape. }
    { unfold size, BOARD_SIZE. lia. }
    { unfold size, BOARD_SIZE. lia. }
    { rewrite Hnorm. apply Hrow_at. }
    cbv beta iota. viewer_state. cbn [GomokuVisualizer.file_result].
    destruct (GomokuGame.winning_line result) as [[| p l] |]; cbv iota beta;
      eexists _, (Z.of_nat i); (split; [reflexivity |]); (split; [lia |]);
      (split; [by rewrite Nat2Z.id |]); viewer_state;
      rewrite Hnorm; unfold grid_set; rewrite <- fresh_board, Hrow_at; reflexivity.
Qed.

Lemma replay_unchecked_row_witness :
  let m := GomokuGame.mk_move 1 "B" "Model B" "H" 16 "H16" in
  let v := GomokuVisualizer.set_game_data
             (Some (GomokuVisualizer.mk_file [m] no_result)) GomokuVisualizer.new_visualizer in
  (GomokuGame.column m ∉ GomokuVisualizer.cols →
   (GomokuVisualizer.update_board_to_move 1 v).1 =
   GomokuVisualizer.Raised GomokuVisualizer.ValueError) ∧
  (GomokuGame.column m ∈ GomokuVisualizer.cols →
   ¬ (1 ≤ GomokuGame.row m ≤ 30) →
   (GomokuVisualizer.update_board_to_move 1 v).1 =
   GomokuVisualizer.Raised (GomokuVisualizer.Indexing IndexError)) ∧
  (GomokuGame.column m ∈ GomokuVisualizer.cols →
   1 ≤ GomokuGame.row m ≤ 30 →
   ∃ v' col_idx,
     GomokuVisualizer.update_board_to_move 1 v = (GomokuVisualizer.Done tt, v') ∧
     0 ≤ col_idx ∧
     GomokuVisualizer.cols !! Z.to_nat col_idx = Some (GomokuGame.column m) ∧
     GomokuVisualizer.board_state v' =
     grid_set (board init)
       (if GomokuGame.row m <=? 15 then 15 - GomokuGame.row m else 30 - GomokuGame.row m)
       col_idx (GomokuGame.player m)).
Proof.
  apply (replay_unchecked_row (GomokuGame.mk_move 1 "B" "Model B" "H" 16 "H16") no_result).
  - reflexivity.
  - reflexivity.
Defined.

(** * The model configuration *)


Lemma dict_get_None {V : Type} (d : list (string * V)) (k : string) :
  k ∉ ModelManager.keys d → ModelManager.dict_get d k = None.
Proof.
  induction d as [| [k' v] d IH]; [done |].
  intros [Hne Hk]%not_elem_of_cons. simpl.
  destruct (String.eqb_spec k' k) as [-> | _]; [done | by apply IH].
Qed.



